(** * Tabular preprocessing steps and the correlation categorizer

    A shallow embedding of [research/utils]: the correlation categorizer
    ([analyze_feature_correlations.py]) and the fit/transform pipeline
    steps ([tranformerColumnsHighNA.py], [transformerDropLowVarNum.py],
    [transformerImputeMissingValues.py], [transformerDataTypesConversion.py],
    [transformerDropColumns.py]).

    Conventions of the embedding.
    - A pandas DataFrame is a mutable object: tables live in a store and the
      code handles references to them.  [X.copy()] allocates, item
      assignment [X[col] = ...] writes through the reference.
    - [print] appends to a console log carried by the store.
    - Exceptions are results: a method returns either a value or the
      exception it raised, together with the store it leaves behind.
    - Finite float64 values are rationals, so comparisons between them are
      exact in [Q]; arithmetic on them (percentages, means, variances) is
      carried out in exact rational arithmetic.  The missing marker
      (NaN / None) is a separate constructor. *)

From Stdlib Require Import QArith Qminmax Qabs Lia Lqa.
From stdpp Require Import base list strings gmap.

Open Scope Q_scope.
Open Scope string_scope.
Open Scope list_scope.

(** ** Cells, columns and tables *)

Inductive dtype := int64 | float64 | bool_ | object | category.

Inductive value :=
| VNum (q : Q)
| VStr (s : string)
| VBool (b : bool)
| NaN.

Record Series := mkSeries { dtype_of : dtype; values : list value }.

(** [index_len] is [len(X)], the length of the row index; a table without
    columns still has one. *)
Record DataFrame := mkDF { index_len : nat; columns : list (string * Series) }.

#[global] Instance dtype_eq_dec : EqDecision dtype.
Proof. solve_decision. Defined.

Definition names (X : DataFrame) : list string := map fst (columns X).

(** Every column has one cell per row and column labels are unique. *)
Definition wf_table (X : DataFrame) : Prop :=
  NoDup (names X) /\
  Forall (fun c => length (values (snd c)) = index_len X) (columns X).

(** [col in X.columns] *)
Definition has_column (X : DataFrame) (col : string) : bool :=
  bool_decide (col ∈ names X).

(** [X[col]] *)
Fixpoint lookup_col (cs : list (string * Series)) (col : string) : option Series :=
  match cs with
  | [] => None
  | (c, s) :: cs' => if String.eqb c col then Some s else lookup_col cs' col
  end.

(** [X.empty]: either axis has length zero. *)
Definition DataFrame_empty (X : DataFrame) : bool :=
  (index_len X =? 0)%nat || (length (columns X) =? 0)%nat.

(** [np.number] covers the integer and floating dtypes, not bool. *)
Definition is_number (d : dtype) : bool :=
  match d with int64 | float64 => true | _ => false end.

(** [X.select_dtypes(...).columns.tolist()] for a dtype predicate. *)
Definition select_dtypes (p : dtype -> bool) (X : DataFrame) : list string :=
  map fst (filter (fun c => p (dtype_of (snd c)) = true) (columns X)).

(** ** Series operations *)

Definition isnull (v : value) : bool :=
  match v with NaN => true | _ => false end.

(** [s.isnull().sum()] *)
Definition isnull_sum (s : Series) : nat :=
  length (filter (fun v => isnull v = true) (values s)).

(** [s.isnull().any()] *)
Definition isnull_any (s : Series) : bool := existsb isnull (values s).

(** [s.dropna()] *)
Definition dropna (vs : list value) : list value :=
  filter (fun v => isnull v = false) vs.

(** [==] on cell values. *)
Definition value_eqb (a b : value) : bool :=
  match a, b with
  | VNum p, VNum q => Qeq_bool p q
  | VStr s, VStr t => String.eqb s t
  | VBool x, VBool y => Bool.eqb x y
  | _, _ => false
  end.

(** [s.unique()]: distinct values in order of first appearance. *)
Fixpoint unique (vs : list value) : list value :=
  match vs with
  | [] => []
  | v :: vs' =>
      v :: filter (fun w => value_eqb v w = false) (unique vs')
  end.

(** [s.nunique()] (dropna=True) *)
Definition nunique (s : Series) : nat := length (unique (dropna (values s))).

(** The non-missing numbers of a column, in row order. *)
Fixpoint numbers (vs : list value) : list Q :=
  match vs with
  | [] => []
  | VNum q :: vs' => q :: numbers vs'
  | _ :: vs' => numbers vs'
  end.

Definition Qsum (l : list Q) : Q := fold_right Qplus 0 l.

Definition Qlen (l : list Q) : Q := inject_Z (Z.of_nat (length l)).

(** [s.mean()]: NaN on a column without numbers. *)
Definition mean (l : list Q) : option Q :=
  match l with
  | [] => None
  | _ => Some (Qsum l / Qlen l)
  end.

(** [s.var(ddof=0)]: population variance, the sum of squared deviations
    divided by the number N of non-missing values; NaN when N = 0. *)
Definition var_ddof0 (l : list Q) : option Q :=
  match mean l with
  | None => None
  | Some m => Some (Qsum (map (fun x => (x - m) * (x - m)) l) / Qlen l)
  end.

Fixpoint insert_sorted (x : Q) (l : list Q) : list Q :=
  match l with
  | [] => [x]
  | y :: l' => if Qle_bool x y then x :: l else y :: insert_sorted x l'
  end.

Definition sort_Q (l : list Q) : list Q := fold_right insert_sorted [] l.

(** [s.median()]: middle of the sorted non-missing values, the average of
    the two middle ones when their number is even; NaN when there is none. *)
Definition median (l : list Q) : option Q :=
  let s := sort_Q l in
  let n := length s in
  match n with
  | O => None
  | _ =>
      if Nat.even n
      then Some ((nth (n / 2 - 1) s 0 + nth (n / 2) s 0) / 2)
      else Some (nth (n / 2) s 0)
  end.

(** Ordering used by [mode] to sort its result. *)
Definition value_rank (v : value) : nat :=
  match v with VBool _ => 0 | VNum _ => 1 | VStr _ => 2 | NaN => 3 end.

Definition value_leb (a b : value) : bool :=
  match a, b with
  | VNum p, VNum q => Qle_bool p q
  | VStr s, VStr t => String.leb s t
  | VBool x, VBool y => implb x y
  | _, _ => (value_rank a <=? value_rank b)%nat
  end.

Fixpoint insert_value (x : value) (l : list value) : list value :=
  match l with
  | [] => [x]
  | y :: l' => if value_leb x y then x :: l else y :: insert_value x l'
  end.

Definition count_value (v : value) (vs : list value) : nat :=
  length (filter (fun w => value_eqb v w = true) vs).

(** [s.mode()]: the most frequent non-missing values, sorted. *)
Definition mode (vs : list value) : list value :=
  let xs := dropna vs in
  let us := unique xs in
  let best := fold_right Nat.max 0%nat (map (fun u => count_value u xs) us) in
  fold_right insert_value []
    (filter (fun u => count_value u xs = best) us).

(** [s.fillna(v)] *)
Definition fillna (fill : value) (s : Series) : Series :=
  mkSeries (dtype_of s)
    (map (fun v => if isnull v then fill else v) (values s)).

(** [s.astype("category")] *)
Definition astype_category (s : Series) : Series :=
  mkSeries category (values s).

(** ** Table operations that build a new table value *)

(** [X.drop(columns=cols, errors="ignore")] *)
Definition drop_columns (cols : list string) (X : DataFrame) : DataFrame :=
  mkDF (index_len X)
    (filter (fun c => bool_decide (fst c ∈ cols) = false) (columns X)).

(** [X[col] = s]: replaces the column labelled [col], or adds it last. *)
Fixpoint assign_col (cs : list (string * Series)) (col : string) (s : Series)
  : list (string * Series) :=
  match cs with
  | [] => [(col, s)]
  | (c, s0) :: cs' =>
      if String.eqb c col then (c, s) :: cs' else (c, s0) :: assign_col cs' col s
  end.

(** ** The store, exceptions and the console *)

Inductive exn :=
| TypeError (msg : string)
| ValueError (msg : string)
| RuntimeError (msg : string)
| KeyError (key : string)
| ZeroDivisionError
| AttributeError (attr : string)
| UnboundReference (l : nat).

Inductive result (A : Type) :=
| Ok (a : A)
| Raise (e : exn).
Arguments Ok {A} a.
Arguments Raise {A} e.

(** A reference to a table is its position in the store. *)
Definition loc := nat.

Record world := mkWorld { heap : list DataFrame; stdout : list string }.

(** A computation returns a value or raises, and leaves a store behind in
    both cases. *)
Definition M (A : Type) : Type := world -> result A * world.

Definition ret {A} (a : A) : M A := fun w => (Ok a, w).

Definition bind {A B} (m : M A) (k : A -> M B) : M B :=
  fun w =>
    match m w with
    | (Ok a, w') => k a w'
    | (Raise e, w') => (Raise e, w')
    end.

Definition raise {A} (e : exn) : M A := fun w => (Raise e, w).

Notation "'let!' x ':=' m 'in' k" := (bind m (fun x => k))
  (at level 10, x name, m at level 100, k at level 200).
Notation "'do!' m 'in' k" := (bind m (fun _ => k))
  (at level 10, m at level 100, k at level 200).

(** [print(msg)] *)
Definition print (msg : string) : M unit :=
  fun w => (Ok tt, mkWorld (heap w) (stdout w ++ [msg])).

(** Reading the table a reference points to.  Python keeps every referenced
    object alive, so [UnboundReference] only arises for a reference that was
    never allocated in the store at hand. *)
Definition deref (l : loc) : M DataFrame :=
  fun w =>
    match heap w !! l with
    | Some X => (Ok X, w)
    | None => (Raise (UnboundReference l), w)
    end.

(** A new table object. *)
Definition alloc (X : DataFrame) : M loc :=
  fun w => (Ok (length (heap w)), mkWorld (heap w ++ [X]) (stdout w)).

(** [X.copy()] *)
Definition copy (l : loc) : M loc :=
  let! X := deref l in alloc X.

(** [X.drop(columns=cols, ...)] returns a new table object. *)
Definition drop (l : loc) (cols : list string) : M loc :=
  let! X := deref l in alloc (drop_columns cols X).

(** [X[col]]: [KeyError] on an absent label. *)
Definition getitem (l : loc) (col : string) : M Series :=
  let! X := deref l in
  match lookup_col (columns X) col with
  | Some s => ret s
  | None => raise (KeyError col)
  end.

(** [X[col] = s]: writes into the table object itself. *)
Definition setitem (l : loc) (col : string) (s : Series) : M unit :=
  fun w =>
    match heap w !! l with
    | Some X =>
        (Ok tt,
         mkWorld (<[l := mkDF (index_len X) (assign_col (columns X) col s)]> (heap w))
                 (stdout w))
    | None => (Raise (UnboundReference l), w)
    end.

(** [for x in l: body(x)] *)
Fixpoint for_each {A} (l : list A) (body : A -> M unit) : M unit :=
  match l with
  | [] => ret tt
  | x :: l' => do! body x in for_each l' body
  end.

(** A loop that updates the fields of [self] as it goes. *)
Fixpoint for_fold {A S} (l : list A) (body : S -> A -> M S) (self : S) : M S :=
  match l with
  | [] => ret self
  | x :: l' => let! self' := body self x in for_fold l' body self'
  end.

(** Reading an attribute that [hasattr] may find absent: [None] is an
    attribute that was never assigned. *)
Definition getattr {A} (name : string) (a : option A) : M A :=
  match a with
  | Some x => ret x
  | None => raise (AttributeError name)
  end.

Definition hasattr {A} (a : option A) : bool :=
  match a with Some _ => true | None => false end.

Definition nonempty {A} (l : list A) : bool :=
  match l with [] => false | _ => true end.

(** ** [DropColumnsHighNA] (tranformerColumnsHighNA.py) *)

Module DropColumnsHighNA.

(** [columns_to_drop_] is an attribute probed with [hasattr]. *)
Record t := mk { threshold : Q; columns_to_drop_ : option (list string) }.

Definition __init__ (threshold : Q) : result t :=
  if negb (Qle_bool 0 threshold && Qle_bool threshold 100)
  then Raise (ValueError "Threshold must be between 0 and 100.")
  else Ok (mk threshold (Some [])).

(** [X.isnull().sum() * 100 / len(X)], one entry per column. *)
Definition missing_percentage (X : DataFrame) : list (string * Q) :=
  map (fun c =>
         (fst c,
          inject_Z (Z.of_nat (isnull_sum (snd c)) * 100)
          / inject_Z (Z.of_nat (index_len X))))
      (columns X).

Definition fit (self : t) (X : loc) : M t :=
  let! df := deref X in
  if DataFrame_empty df then
    do! print "DropColumnsHighNA: DataFrame is empty. No columns to analyze or drop." in
    ret (mk (threshold self) (Some []))
  else
    let to_drop :=
      map fst (filter (fun p => Qle_bool (threshold self) (snd p) = true)
                      (missing_percentage df)) in
    let self := mk (threshold self) (Some to_drop) in
    do! (if nonempty to_drop then ret tt
         else print "DropColumnsHighNA: No columns found with missing values >= threshold.")
    in ret self.

Definition transform (self : t) (X : loc) : M loc :=
  if negb (hasattr (columns_to_drop_ self)) then
    raise (RuntimeError "Transform called before fit. Call fit first.")
  else
    let! X_copy := copy X in
    let! to_drop := getattr "columns_to_drop_" (columns_to_drop_ self) in
    let! cur := deref X_copy in
    let cols_to_actually_drop_now :=
      filter (fun col => has_column cur col = true) to_drop in
    if nonempty cols_to_actually_drop_now then
      let! X_copy := drop X_copy cols_to_actually_drop_now in
      do! print "DropColumnsHighNA: Dropped columns" in
      ret X_copy
    else if nonempty to_drop then
      do! print "DropColumnsHighNA: Columns were targeted for dropping based on 'fit', but none are present in the DataFrame provided to 'transform'." in
      ret X_copy
    else ret X_copy.

(** [get_feature_names_out]; [input_features] is [None] when left out. *)
Definition get_feature_names_out (self : t) (input_features : option (list string))
  : M (list string) :=
match input_features with
| None =>
    if hasattr (columns_to_drop_ self) then
      do! print "DropColumnsHighNA Warning: input_features was None in get_feature_names_out. Returning an empty list or based on limited info." in
      ret []
    else
      raise (RuntimeError "get_feature_names_out called before fit or on an uninitialized transformer.")
| Some input_features =>
    if negb (hasattr (columns_to_drop_ self)) then ret input_features
    else
      let! to_drop := getattr "columns_to_drop_" (columns_to_drop_ self) in
      ret (filter (fun col => bool_decide (col ∈ to_drop) = false) input_features)
end.

End DropColumnsHighNA.

(** ** [ColumnDropper] (transformerDropColumns.py) *)

Module ColumnDropper.

Record t := mk { columns_to_drop : list string;
                 _fitted_columns_to_drop : option (list string) }.

(** The two [isinstance] tests of the constructor hold by typing. *)
Definition __init__ (columns_to_drop : list string) : result t :=
  Ok (mk columns_to_drop (Some [])).

Definition fit (self : t) (X : loc) : M t :=
  let! df := deref X in
  let missing_columns :=
    filter (fun col => has_column df col = false) (columns_to_drop self) in
  if nonempty missing_columns then
    let message :=
      "ColumnDropper Error: The following specified columns for dropping were not found in the DataFrame. Halting process." in
    do! print message in
    raise (ValueError message)
  else
    ret (mk (columns_to_drop self) (Some (columns_to_drop self))).

Definition transform (self : t) (X : loc) : M loc :=
  if negb (hasattr (_fitted_columns_to_drop self))
     || negb (nonempty (default [] (_fitted_columns_to_drop self)))
  then
    if negb (nonempty (columns_to_drop self)) then
      do! print "ColumnDropper: No columns were specified to drop. Returning original DataFrame." in
      copy X
    else
      raise (RuntimeError "Transform called before fit, or fit did not identify any columns to drop.")
  else
    let! fitted := getattr "_fitted_columns_to_drop" (_fitted_columns_to_drop self) in
    let! X_copy := copy X in
    let! cur := deref X_copy in
    let cols_to_actually_drop_now :=
      filter (fun col => has_column cur col = true) fitted in
    do! (if negb (nonempty cols_to_actually_drop_now) && nonempty fitted
         then print "ColumnDropper Warning: Columns were present during fit but are missing now during transform. Dropping remaining."
         else ret tt) in
    if nonempty cols_to_actually_drop_now then
      let! X_copy := drop X_copy cols_to_actually_drop_now in
      do! print "ColumnDropper: Dropped columns" in
      ret X_copy
    else if nonempty fitted then
      do! print "ColumnDropper Warning: All columns intended for dropping are missing from the DataFrame provided to transform." in
      ret X_copy
    else ret X_copy.

Definition get_feature_names_out (self : t) (input_features : option (list string))
  : M (list string) :=
match input_features with
| None => raise (ValueError "input_features must be provided to get_feature_names_out.")
| Some input_features =>
    if negb (hasattr (_fitted_columns_to_drop self)) then ret input_features
    else
      let! fitted := getattr "_fitted_columns_to_drop" (_fitted_columns_to_drop self) in
      ret (filter (fun col => bool_decide (col ∈ fitted) = false) input_features)
end.

End ColumnDropper.

(** ** [MinMaxScaler] (sklearn.preprocessing), per column

    [fit] learns [scale_ = 1 / data_range] and [min_ = 0 - data_min * scale_]
    from the non-missing values, a zero range being replaced by 1;
    [transform] maps [x] to [x * scale_ + min_] and keeps missing cells. *)

Definition Qmin_list (l : list Q) : Q :=
  match l with
  | [] => 0
  | x :: l' => fold_right Qmin x l'
  end.

Definition Qmax_list (l : list Q) : Q :=
  match l with
  | [] => 0
  | x :: l' => fold_right Qmax x l'
  end.

Definition handle_zeros_in_scale (r : Q) : Q :=
  if Qeq_bool r 0 then 1 else r.

Definition minmax_scale_ (l : list Q) : Q :=
  1 / handle_zeros_in_scale (Qmax_list l - Qmin_list l).

Definition minmax_min_ (l : list Q) : Q :=
  0 - Qmin_list l * minmax_scale_ l.

Definition minmax_transform (vs : list value) : list value :=
  let l := numbers vs in
  map (fun v => match v with
                | VNum x => VNum (x * minmax_scale_ l + minmax_min_ l)
                | _ => v
                end) vs.

(** ** [IdentifyAndDropLowVarNum] (transformerDropLowVarNum.py) *)

Module IdentifyAndDropLowVarNum.

Record t := mk {
  quasi_constant_threshold : Q;
  numeric_cols_considered_ : list string;
  columns_to_drop_ : option (list string);
  _input_features_during_fit : list string }.

Definition __init__ (quasi_constant_threshold : Q) : result t :=
  if negb (Qle_bool 0 quasi_constant_threshold)
  then Raise (ValueError "quasi_constant_threshold must be non-negative.")
  else Ok (mk quasi_constant_threshold [] (Some []) []).

(** [X[cols]]: the listed columns that the table has, in the listed order. *)
Definition project (X : DataFrame) (cols : list string) : list (string * Series) :=
  omap (fun col => match lookup_col (columns X) col with
                   | Some s => Some (col, s)
                   | None => None
                   end) cols.

(** [frame.var(ddof=0)] of a list of columns. *)
Definition variances (cs : list (string * Series)) : list (string * option Q) :=
  map (fun c => (fst c, var_ddof0 (numbers (values (snd c))))) cs.

(** [v == 0.0] on a variance; NaN compares unequal. *)
Definition var_is_zero (v : option Q) : bool :=
  match v with Some v => Qeq_bool v 0 | None => false end.

(** [(v > 0.0) & (v < threshold)] on a variance. *)
Definition var_is_quasi (thr : Q) (v : option Q) : bool :=
  match v with
  | Some v => negb (Qle_bool v 0) && negb (Qle_bool thr v)
  | None => false
  end.

(** [v[v == 0.0].index.tolist()] *)
Definition zero_variance (vars : list (string * option Q)) : list string :=
  map fst (filter (fun p => var_is_zero (snd p) = true) vars).

(** [v[(v > 0.0) & (v < threshold)].index.tolist()] *)
Definition quasi_constant (thr : Q) (vars : list (string * option Q)) : list string :=
  map fst (filter (fun p => var_is_quasi thr (snd p) = true) vars).

(** The temporarily scaled frame of the columns fit for scaling. *)
Definition scaled_frame (cs : list (string * Series)) : list (string * Series) :=
  map (fun c => (fst c, mkSeries float64 (minmax_transform (values (snd c))))) cs.

Definition fit (self : t) (X : loc) : M t :=
  let! df := deref X in
  let self := mk (quasi_constant_threshold self)
                 (select_dtypes is_number df) (Some []) (names df) in
  if negb (nonempty (numeric_cols_considered_ self)) then
    do! print "IdentifyAndDropLowVarNum: No numeric columns found to analyze for variance." in
    ret self
  else
    let! X_numeric_fit :=
      alloc (mkDF (index_len df) (project df (numeric_cols_considered_ self))) in
    let! valid_numeric_cols_for_scaling :=
      for_fold (numeric_cols_considered_ self)
        (fun valid col =>
           let! s := getitem X_numeric_fit col in
           if (0 <? nunique s)%nat then ret (valid ++ [col])
           else
             do! print "IdentifyAndDropLowVarNum: Numeric column has no unique non-NaN values. Checking its original variance." in
             ret valid)
        [] in
    if negb (nonempty valid_numeric_cols_for_scaling) then
      do! print "IdentifyAndDropLowVarNum: No valid numeric columns for temporary scaling (e.g., all are entirely NaN or have no variance)." in
      if nonempty (numeric_cols_considered_ self) then
        let original_variances :=
          variances (project df (numeric_cols_considered_ self)) in
        let to_drop := zero_variance original_variances in
        let self := mk (quasi_constant_threshold self)
                       (numeric_cols_considered_ self) (Some to_drop)
                       (_input_features_during_fit self) in
        do! (if nonempty to_drop
             then print "IdentifyAndDropLowVarNum: Dropping originally zero-variance columns (no scaling performed)"
             else ret tt) in
        ret self
      else ret self
    else
      let! fit_frame := deref X_numeric_fit in
      let X_scaled_numeric_df :=
        scaled_frame (project fit_frame valid_numeric_cols_for_scaling) in
      let scaled_variances := variances X_scaled_numeric_df in
      let zero_var_cols := zero_variance scaled_variances in
      let! to_drop :=
        (if nonempty zero_var_cols then
           do! print "IdentifyAndDropLowVarNum: Identified columns as CONSTANT after temporary scaling" in
           ret ([] ++ zero_var_cols)
         else
           do! print "IdentifyAndDropLowVarNum: No columns identified as CONSTANT after temporary scaling." in
           ret []) in
      let quasi_var_cols :=
        quasi_constant (quasi_constant_threshold self) scaled_variances in
      let! to_drop :=
        (if nonempty quasi_var_cols then
           do! print "IdentifyAndDropLowVarNum: Number of Identified columns as QUASI-CONSTANT after temporary scaling" in
           ret (to_drop ++ quasi_var_cols)
         else ret to_drop) in
      let unscaled_numeric_cols :=
        filter (fun col => bool_decide (col ∈ valid_numeric_cols_for_scaling) = false)
               (numeric_cols_considered_ self) in
      let! to_drop :=
        (if nonempty unscaled_numeric_cols then
           let original_unscaled_variances :=
             variances (project df unscaled_numeric_cols) in
           let zero_var_unscaled_cols := zero_variance original_unscaled_variances in
           if nonempty zero_var_unscaled_cols then
             do! print "IdentifyAndDropLowVarNum: Identified originally constant UNSCALED numeric columns" in
             ret (fold_left (fun acc col =>
                               if bool_decide (col ∈ acc) then acc else acc ++ [col])
                            zero_var_unscaled_cols to_drop)
           else ret to_drop
         else ret to_drop) in
      (* list(set(...)): the distinct labels, in the set's own order *)
      let to_drop := elements (list_to_set to_drop : gset string) in
      let self := mk (quasi_constant_threshold self)
                     (numeric_cols_considered_ self) (Some to_drop)
                     (_input_features_during_fit self) in
      do! (if negb (nonempty to_drop) && nonempty (numeric_cols_considered_ self)
           then print "IdentifyAndDropLowVarNum: No numeric columns met criteria for dropping (based on temporarily scaled variance)."
           else ret tt) in
      ret self.

Definition transform (self : t) (X : loc) : M loc :=
  if negb (hasattr (columns_to_drop_ self)) then
    raise (RuntimeError "Transform called before fit. Call fit first.")
  else
    let! X_transformed := copy X in
    let! to_drop := getattr "columns_to_drop_" (columns_to_drop_ self) in
    let! cur := deref X_transformed in
    let cols_to_actually_drop_now :=
      filter (fun col => has_column cur col = true) to_drop in
    if nonempty cols_to_actually_drop_now then
      let! X_transformed := drop X_transformed cols_to_actually_drop_now in
      do! print "IdentifyAndDropLowVarNum: Dropped columns from original data" in
      ret X_transformed
    else if nonempty to_drop then
      do! print "IdentifyAndDropLowVarNum: Columns were targeted for dropping, but none are present in the current DataFrame." in
      ret X_transformed
    else ret X_transformed.

(** [get_feature_names_out]; [_input_features_during_fit] is assigned by
    the constructor, so its [hasattr] test holds. *)
Definition get_feature_names_out (self : t) (input_features : option (list string))
  : M (list string) :=
let! input_features :=
  match input_features with
  | None =>
      if nonempty (_input_features_during_fit self)
      then ret (_input_features_during_fit self)
      else raise (ValueError "input_features must be provided if fit hasn't been called or was called on an empty DataFrame.")
  | Some given => ret given
  end in
if negb (hasattr (columns_to_drop_ self)) then ret input_features
else
  let! to_drop := getattr "columns_to_drop_" (columns_to_drop_ self) in
  ret (filter (fun col => bool_decide (col ∈ to_drop) = false) input_features).

End IdentifyAndDropLowVarNum.

(** ** [MissingValueImputer] (transformerImputeMissingValues.py) *)

Module MissingValueImputer.

(** The imputer dictionaries map a column label to its fill value;
    [Some None] is the entry [None] stored for a column that had no
    missing value at fit time.  [numerical_cols_] is probed with
    [hasattr]. *)
Record t := mk {
  num_strategy : string;
  cat_strategy : value;
  num_imputers_ : gmap string (option value);
  cat_imputers_ : gmap string (option value);
  numerical_cols_ : option (list string);
  categorical_cols_ : list string }.

Definition __init__ (num_strategy : string) (cat_strategy : value) : result t :=
  if negb (bool_decide (num_strategy ∈ ["mean"; "median"; "mode"]))
  then Raise (ValueError "num_strategy must be 'mean', 'median', or 'mode'")
  else Ok (mk num_strategy cat_strategy ∅ ∅ (Some []) []).

(** A float result: NaN when undefined. *)
Definition of_float (o : option Q) : value :=
  match o with Some q => VNum q | None => NaN end.

Definition set_num (self : t) (col : string) (v : option value) : t :=
  mk (num_strategy self) (cat_strategy self)
     (<[col := v]> (num_imputers_ self)) (cat_imputers_ self)
     (numerical_cols_ self) (categorical_cols_ self).

Definition set_cat (self : t) (col : string) (v : option value) : t :=
  mk (num_strategy self) (cat_strategy self)
     (num_imputers_ self) (<[col := v]> (cat_imputers_ self))
     (numerical_cols_ self) (categorical_cols_ self).

(** [not d] on a dictionary. *)
Definition dict_empty (d : gmap string (option value)) : bool :=
  (size d =? 0)%nat.

Definition fit (self : t) (X : loc) : M t :=
  let! X_fit := copy X in
  let! df := deref X_fit in
  let self := mk (num_strategy self) (cat_strategy self)
                 (num_imputers_ self) (cat_imputers_ self)
                 (Some (select_dtypes is_number df))
                 (select_dtypes (fun d => negb (is_number d)) df) in
  let! self :=
    for_fold (select_dtypes is_number df)
      (fun self col =>
         let! s := getitem X_fit col in
         if isnull_any s then
           if String.eqb (num_strategy self) "mean" then
             ret (set_num self col (Some (of_float (mean (numbers (values s))))))
           else if String.eqb (num_strategy self) "median" then
             ret (set_num self col (Some (of_float (median (numbers (values s))))))
           else if String.eqb (num_strategy self) "mode" then
             let mode_val := mode (values s) in
             ret (set_num self col
                    (Some (match mode_val with v :: _ => v | [] => VNum 0 end)))
           else ret self
         else ret (set_num self col None))
      self in
  let! self :=
    for_fold (categorical_cols_ self)
      (fun self col =>
         let! s := getitem X_fit col in
         if isnull_any s then
           if value_eqb (cat_strategy self) (VStr "mode") then
             let mode_val := mode (values s) in
             ret (set_cat self col
                    (Some (match mode_val with v :: _ => v | [] => VStr "Unknown" end)))
           else ret (set_cat self col (Some (cat_strategy self)))
         else ret (set_cat self col None))
      self in
  do! print "MissingValueImputer: Fitted." in
  ret self.

(** One iteration of either imputation loop of [transform]. *)
Definition impute_column (imputers : gmap string (option value))
    (X_transformed : loc) (col : string) : M unit :=
  let! cur := deref X_transformed in
  match (if has_column cur col then imputers !! col else None) with
  | Some (Some fill) =>
      let! s := getitem X_transformed col in
      if isnull_any s
      then setitem X_transformed col (fillna fill s)
      else ret tt
  | _ =>
      if has_column cur col then
        let! s := getitem X_transformed col in
        if isnull_any s
        then print "Warning: Column has NaNs in transform data but no imputer was learned (or column was not in fit data). NaNs will remain."
        else ret tt
      else ret tt
  end.

Definition transform (self : t) (X : loc) : M loc :=
  do! (if dict_empty (num_imputers_ self) && dict_empty (cat_imputers_ self) then
         let! numerical_cols_ := getattr "numerical_cols_" (numerical_cols_ self) in
         if nonempty numerical_cols_ || nonempty (categorical_cols_ self) then
           if negb (hasattr (MissingValueImputer.numerical_cols_ self))
           then raise (RuntimeError "Transform called before fit. Call fit first.")
           else ret tt
         else ret tt
       else ret tt) in
  let! X_transformed := copy X in
  let! numerical_cols_ := getattr "numerical_cols_" (numerical_cols_ self) in
  do! for_each numerical_cols_ (impute_column (num_imputers_ self) X_transformed) in
  do! for_each (categorical_cols_ self)
        (impute_column (cat_imputers_ self) X_transformed) in
  do! print "MissingValueImputer: Number of missing values after imputation" in
  ret X_transformed.

(** [get_feature_names_out]; [categorical_cols_] is assigned by the
    constructor, so its [hasattr] test holds. *)
Definition get_feature_names_out (self : t) (input_features : option (list string))
  : M (list string) :=
match input_features with
| None =>
    if hasattr (numerical_cols_ self) then
      let! numerical_cols_ := getattr "numerical_cols_" (numerical_cols_ self) in
      ret (numerical_cols_ ++ categorical_cols_ self)
    else
      raise (ValueError "input_features must be provided to get_feature_names_out if fit hasn't been called with a non-empty DataFrame.")
| Some input_features => ret input_features
end.

End MissingValueImputer.

(** ** Dtype conversion steps (transformerDataTypesConversion.py) *)

(** The loop shared by the four [transform] methods:
    [for col in cols: X_copy[col] = X_copy[col].astype("category")],
    each iteration followed by a message. *)
Definition convert_columns (X_copy : loc) (cols : list string) (msg : string) : M unit :=
  for_each cols
    (fun col =>
       let! s := getitem X_copy col in
       do! setitem X_copy col (astype_category s) in
       print msg).

Module SpecificColumnCategorizer.

Record t := mk { columns_to_categorize : list string;
                 fitted_columns_ : list string }.

Definition __init__ (columns_to_categorize : list string) : result t :=
  Ok (mk columns_to_categorize []).

Definition fit (self : t) (X : loc) : M t :=
  let! df := deref X in
  let self := mk (columns_to_categorize self)
                 (filter (fun col => has_column df col = true)
                         (columns_to_categorize self)) in
  do! (if negb (nonempty (fitted_columns_ self))
       then print "Warning: None of the specified columns found in DataFrame."
       else ret tt) in
  ret self.

Definition transform (self : t) (X : loc) : M loc :=
  let! X_copy := copy X in
  do! convert_columns X_copy (fitted_columns_ self)
        "SpecificColumnCategorizer: Converted to category." in
  ret X_copy.

Definition get_feature_names_out (self : t) (input_features : option (list string))
  : list string :=
match input_features with
| Some given => given
| None => fitted_columns_ self
end.

End SpecificColumnCategorizer.

(** [a / b] on Python integers. *)
Definition int_truediv (a b : nat) : M Q :=
  if (b =? 0)%nat then raise ZeroDivisionError
  else ret (inject_Z (Z.of_nat a) / inject_Z (Z.of_nat b)).

Module ObjectToCategoryTransformer.

Record t := mk { threshold_ratio : Q; max_unique : nat;
                 object_cols_to_convert_ : list string }.

Definition __init__ (threshold_ratio : Q) (max_unique : nat) : result t :=
  Ok (mk threshold_ratio max_unique []).

Definition fit (self : t) (X : loc) : M t :=
  let! df := deref X in
  let self := mk (threshold_ratio self) (max_unique self) [] in
  let object_columns := select_dtypes (fun d => bool_decide (d = object)) df in
  for_fold object_columns
    (fun self col =>
       let! s := getitem X col in
       let n_unique := nunique s in
       let! ratio := int_truediv n_unique (length (values s)) in
       if negb (Qle_bool (threshold_ratio self) ratio)
          && (n_unique <=? max_unique self)%nat
       then ret (mk (threshold_ratio self) (max_unique self)
                    (object_cols_to_convert_ self ++ [col]))
       else ret self)
    self.

Definition transform (self : t) (X : loc) : M loc :=
  let! X_copy := copy X in
  do! (if negb (nonempty (object_cols_to_convert_ self))
       then print "ObjectToCategoryTransformer: No object columns met criteria for conversion."
       else ret tt) in
  do! convert_columns X_copy (object_cols_to_convert_ self)
        "ObjectToCategoryTransformer: Converted to category." in
  ret X_copy.

(** [get_feature_names_out] hands back its argument, [None] included. *)
Definition get_feature_names_out (self : t) (input_features : option (list string))
  : option (list string) :=
input_features.

End ObjectToCategoryTransformer.

Module FloatToCategoryTransformer.

Record t := mk { float_cols_to_convert_ : list string }.

Definition __init__ : result t := Ok (mk []).

(** [val in [0.0, 1.0]] *)
Definition in_zero_one (val : value) : bool :=
  value_eqb val (VNum 0) || value_eqb val (VNum 1).

Definition fit (self : t) (X : loc) : M t :=
  let! df := deref X in
  let self := mk [] in
  let float_columns := select_dtypes (fun d => bool_decide (d = float64)) df in
  for_fold float_columns
    (fun self col =>
       let! s := getitem X col in
       let unique_values := unique (dropna (values s)) in
       if forallb in_zero_one unique_values
          && (0 <? length unique_values)%nat
       then
         if (length unique_values <=? 2)%nat
         then ret (mk (float_cols_to_convert_ self ++ [col]))
         else ret self
       else ret self)
    self.

Definition transform (self : t) (X : loc) : M loc :=
  let! X_copy := copy X in
  do! (if negb (nonempty (float_cols_to_convert_ self))
       then print "FloatToCategoryTransformer: No float columns met criteria for conversion to category (0/1)."
       else ret tt) in
  do! convert_columns X_copy (float_cols_to_convert_ self)
        "FloatToCategoryTransformer: Converted float column to category." in
  ret X_copy.

(** [get_feature_names_out] hands back its argument, [None] included. *)
Definition get_feature_names_out (self : t) (input_features : option (list string))
  : option (list string) :=
input_features.

End FloatToCategoryTransformer.

Module BooleanToCategoryTransformer.

Record t := mk { bool_cols_to_convert_ : list string }.

Definition __init__ : result t := Ok (mk []).

Definition fit (self : t) (X : loc) : M t :=
  let! df := deref X in
  ret (mk (select_dtypes (fun d => bool_decide (d = bool_)) df)).

Definition transform (self : t) (X : loc) : M loc :=
  let! X_copy := copy X in
  do! (if negb (nonempty (bool_cols_to_convert_ self))
       then print "BooleanToCategoryTransformer: No boolean columns found for conversion."
       else ret tt) in
  do! convert_columns X_copy (bool_cols_to_convert_ self)
        "BooleanToCategoryTransformer: Converted boolean column to category." in
  ret X_copy.

(** [get_feature_names_out] hands back its argument, [None] included. *)
Definition get_feature_names_out (self : t) (input_features : option (list string))
  : option (list string) :=
input_features.

End BooleanToCategoryTransformer.

(** ** The correlation categorizer (analyze_feature_correlations.py) *)

(** A Python float: a rational, or NaN. *)
Definition float := option Q.

(** [a <= b] and [a < b] on floats; any comparison with NaN is false. *)
Definition float_le (a b : float) : bool :=
  match a, b with Some x, Some y => Qle_bool x y | _, _ => false end.

Definition float_lt (a b : float) : bool :=
  match a, b with Some x, Some y => negb (Qle_bool y x) | _, _ => false end.

(** [abs(a)] *)
Definition float_abs (a : float) : float :=
  match a with Some x => Some (Qabs x) | None => None end.

(** A scalar read from a cell of the correlation matrix, by Python type. *)
Inductive scalar :=
| PyFloat (x : float)
| PyInt (z : Z)
| PyComplex (re im : float)
| PyOther.

(** The frame returned by [df.corr]: row labels, column labels, and the
    cell at a row and column position ([.iloc[i, j]]). *)
Record CorrMatrix := mkCorr {
  corr_index : list string;
  corr_columns : list string;
  iloc : nat -> nat -> scalar }.

(** [thresholds.items()]: the bands in the dictionary's iteration order. *)
Definition threshold_table := list (string * (Q * Q)).

Definition entry : Type := string * string * float.

Definition default_thresholds : threshold_table :=
  [ ("very_low_positive", (1 # 10, 3 # 10));
    ("very_low_negative", (- (3 # 10), - (1 # 10)));
    ("low_positive", (3 # 10, 5 # 10));
    ("low_negative", (- (5 # 10), - (3 # 10)));
    ("medium_positive", (5 # 10, 7 # 10));
    ("medium_negative", (- (7 # 10), - (5 # 10)));
    ("high_positive", (7 # 10, 1000001 # 1000000));
    ("high_negative", (- (1000001 # 1000000), - (7 # 10)));
    ("perfect_positive", (999999 # 1000000, 1000001 # 1000000));
    ("perfect_negative", (- (1000001 # 1000000), - (999999 # 1000000))) ].

(** The value the signature gives [thresholds] when the caller leaves it
    out: [thresholds: Dict[...] = {}], an empty dictionary. *)
Definition thresholds_unset : option threshold_table := Some [].

(** [categorized_correlations[level].append(e)] *)
Definition append_to (level : string) (e : entry)
    (report : gmap string (list entry)) : gmap string (list entry) :=
  alter (fun l => l ++ [e]) level report.

(** The loop over [thresholds.items()] for one pair, leaving at the first
    band that takes the pair ([break]). *)
Fixpoint scan_bands (items : threshold_table) (col1 col2 : string)
    (correlation_value : float) (report : gmap string (list entry))
  : gmap string (list entry) :=
  match items with
  | [] => report
  | (level, (min_corr, max_corr)) :: rest =>
      let abs_correlation_value := float_abs correlation_value in
      let is_directional_range :=
        negb (Qle_bool 0 min_corr) || Qle_bool max_corr 0 in
      if is_directional_range then
        if float_le (Some min_corr) correlation_value
           && float_lt correlation_value (Some max_corr)
        then append_to level (col1, col2, correlation_value) report
        else scan_bands rest col1 col2 correlation_value report
      else
        if float_le (Some min_corr) abs_correlation_value
           && float_lt abs_correlation_value (Some max_corr)
        then append_to level (col1, col2, correlation_value) report
        else scan_bands rest col1 col2 correlation_value report
  end.

Section Categorizer.

(** [df.corr(numeric_only=True)] is pandas' own; the categorizer is
    embedded over any such function. *)
Variable corr : DataFrame -> CorrMatrix.

(** The body of the two nested [for] loops for the pair at [(i, j)]. *)
Definition visit_pair (thresholds : threshold_table) (cm : CorrMatrix)
    (report : gmap string (list entry)) (i j : nat)
  : M (gmap string (list entry)) :=
  let col1 := default "" (corr_columns cm !! i) in
  let col2 := default "" (corr_columns cm !! j) in
  let correlation_value_raw := iloc cm i j in
  match correlation_value_raw with
  | PyComplex re _ => ret (scan_bands thresholds col1 col2 re report)
  | PyFloat x => ret (scan_bands thresholds col1 col2 x report)
  | PyInt z => ret (scan_bands thresholds col1 col2 (Some (inject_Z z)) report)
  | PyOther =>
      do! print "Warning: Non-numeric correlation value" in
      ret report
  end.

Definition analyze_feature_correlations (df : loc)
    (thresholds : option threshold_table) : M (gmap string (list entry)) :=
  let! df := copy df in
  let! frame := deref df in
  let correlation_matrix := corr frame in
  if negb (length (corr_index correlation_matrix)
           =? length (corr_columns correlation_matrix))%nat then
    raise (ValueError "correlation_matrix must be a square matrix.")
  else if negb (forallb (fun p => String.eqb (fst p) (snd p))
                  (zip (corr_columns correlation_matrix)
                       (corr_index correlation_matrix))) then
    raise (ValueError "correlation_matrix columns and index must be identical.")
  else
    let! thresholds :=
      match thresholds with
      | None =>
          do! print "Using default directional thresholds." in
          ret default_thresholds
      | Some given => ret given
      end in
    let categorized_correlations : gmap string (list entry) :=
      list_to_map (map (fun item => (fst item, [])) thresholds) in
    let n_cols := length (corr_columns correlation_matrix) in
    for_fold (seq 0 n_cols)
      (fun report i =>
         for_fold (seq 0 i)
           (fun report j => visit_pair thresholds correlation_matrix report i j)
           report)
      categorized_correlations.

End Categorizer.

(** * Notions used to state the properties *)

(** The share of missing cells of a column, in percent:
    [missing_count / row_count * 100]. *)
Definition percent_missing (s : Series) (row_count : nat) : Q :=
  inject_Z (Z.of_nat (isnull_sum s)) / inject_Z (Z.of_nat row_count) * 100.

(** ** Sample tables *)

(** Two rows; [a] is entirely missing, [b] has no missing cell. *)
Definition sample_missing : DataFrame :=
  mkDF 2 [ ("a", mkSeries float64 [NaN; NaN]);
           ("b", mkSeries float64 [VNum 1; VNum 2]) ].

(** The table of the end-to-end scenario: two numeric columns. *)
Definition sample_pair : DataFrame :=
  mkDF 3 [ ("A_03", mkSeries int64 [VNum 1; VNum 2; VNum 3]);
           ("A_12", mkSeries int64 [VNum 1; VNum 5; VNum 3]) ].

(** A stand-in for [df.corr] on small examples: labelled by the numeric
    columns, 1 on the diagonal and 1/2 elsewhere (1/2 is the Pearson
    coefficient of [A_03] and [A_12] above). *)
Definition sample_corr (X : DataFrame) : CorrMatrix :=
  mkCorr (select_dtypes is_number X) (select_dtypes is_number X)
         (fun i j => PyFloat (Some (if (i =? j)%nat then 1 else 1 # 2))).

(** The table of the imputer scenario: [A = [1, 2, null, 4]] numeric and
    [B = ["x", "y", "x", "x"]] text. *)
Definition scenario_table : DataFrame :=
  mkDF 4 [ ("A", mkSeries float64 [VNum 1; VNum 2; NaN; VNum 4]);
           ("B", mkSeries object [VStr "x"; VStr "y"; VStr "x"; VStr "x"]) ].

(** ** Reading results *)

(** [fit(X).transform(X)] *)
Definition fit_then_transform {S} (fit : S -> loc -> M S)
    (transform : S -> loc -> M loc) (self : S) (X : loc) : M loc :=
  let! self := fit self X in transform self X.

(** The table behind the reference a run returned. *)
Definition returned_table (run : result loc * world) : option DataFrame :=
  match run with
  | (Ok r, w) => heap w !! r
  | (Raise _, _) => None
  end.

(** The cell of column [col] at row [row]. *)
Definition cell (X : DataFrame) (col : string) (row : nat) : option value :=
  match lookup_col (columns X) col with
  | Some s => values s !! row
  | None => None
  end.

(** The imputer scenario: an imputer built with [num_strategy="median"]
    (and the default [cat_strategy="mode"]) is fitted on the scenario
    table and then transforms it. *)
Definition impute_scenario : result loc * world :=
  match MissingValueImputer.__init__ "median" (VStr "mode") with
  | Ok self =>
      fit_then_transform MissingValueImputer.fit MissingValueImputer.transform
        self 0%nat (mkWorld [scenario_table] [])
  | Raise e => (Raise e, mkWorld [scenario_table] [])
  end.

(** ** Bands and pairs, in the words of the specification *)

(** A band [(min, max)] is directional when [min < 0] or [max <= 0]. *)
Definition directional (band : Q * Q) : Prop :=
  fst band < 0 \/ snd band <= 0.

(** A directional band matches when [min <= signed correlation < max]; any
    other band matches when [min <= |correlation| < max]. *)
Definition band_matches (band : Q * Q) (v : Q) : Prop :=
  (directional band /\ fst band <= v /\ v < snd band)
  \/ (~ directional band /\ fst band <= Qabs v /\ Qabs v < snd band).

(** [first_matching_band thresholds v level]: [level] names the first band,
    in the table's iteration order, that matches [v]. *)
Inductive first_matching_band : threshold_table -> Q -> string -> Prop :=
| first_here level band rest v :
    band_matches band v ->
    first_matching_band ((level, band) :: rest) v level
| first_later level0 band0 rest v level :
    ~ band_matches band0 v ->
    first_matching_band rest v level ->
    first_matching_band ((level0, band0) :: rest) v level.

(** The signed correlation of the pair at row [i], column [j] of the
    matrix: none for a NaN or a non-numeric cell. *)
Definition pair_correlation (cm : CorrMatrix) (i j : nat) : option Q :=
  match iloc cm i j with
  | PyFloat (Some q) => Some q
  | PyInt z => Some (inject_Z z)
  | PyComplex (Some q) _ => Some q
  | _ => None
  end.

(** The list a report holds for a band; empty for a name it has no key for. *)
Definition band_list (report : gmap string (list entry)) (level : string)
  : list entry :=
  default [] (report !! level).

(** ** Boolean-like float columns, in the words of the specification *)

(** The non-missing values of the column are a subset of [{0.0, 1.0}]. *)
Definition values_within_zero_one (s : Series) : Prop :=
  Forall (fun v => isnull v = true
                   \/ exists q, v = VNum q /\ (q == 0 \/ q == 1))
         (values s).

(** The column has at least one non-missing value. *)
Definition has_present_value (s : Series) : Prop :=
  Exists (fun v => isnull v = false) (values s).

(** What the float-to-category [transform] makes of a table, given the
    learned columns: those columns become categorical, the others stay. *)
Definition with_categories (learned : list string) (X : DataFrame) : DataFrame :=
  mkDF (index_len X)
    (map (fun c => if bool_decide (fst c ∈ learned)
                   then (fst c, astype_category (snd c)) else c)
         (columns X)).


(** The column test of [FloatToCategoryTransformer.fit], on a column label. *)
Definition float_indicator (df : DataFrame) (col : string) : bool :=
  match lookup_col (columns df) col with
  | Some s =>
      forallb FloatToCategoryTransformer.in_zero_one (unique (dropna (values s)))
      && (0 <? length (unique (dropna (values s))))%nat
  | None => false
  end.


(** ** Low-variance columns, in the words of the specification *)

(** The variance of a column after its min-max rescaling to [[0, 1]]:
    the population variance of the rescaled values. *)
Definition scaled_variance (s : Series) : option Q :=
  var_ddof0 (numbers (minmax_transform (values s))).



(** The column labelled [col] has a non-missing value
    ([nunique(dropna=True) > 0]). *)
Definition has_distinct_value (df : DataFrame) (col : string) : bool :=
  match lookup_col (columns df) col with
  | Some s => (0 <? nunique s)%nat
  | None => false
  end.

(** The drop-list [IdentifyAndDropLowVarNum.fit] computes from a table,
    the messages left aside. *)
Definition learned_drop_list (thr : Q) (df : DataFrame) : list string :=
  let numeric := select_dtypes is_number df in
  let valid := filter (fun c => has_distinct_value df c = true) numeric in
  if negb (nonempty numeric) then []
  else if negb (nonempty valid) then
    IdentifyAndDropLowVarNum.zero_variance
      (IdentifyAndDropLowVarNum.variances
         (IdentifyAndDropLowVarNum.project df numeric))
  else
    let scaled_variances :=
      IdentifyAndDropLowVarNum.variances
        (IdentifyAndDropLowVarNum.scaled_frame
           (IdentifyAndDropLowVarNum.project
              (mkDF (index_len df) (IdentifyAndDropLowVarNum.project df numeric))
              valid)) in
    let unscaled :=
      filter (fun col => bool_decide (col ∈ valid) = false) numeric in
    elements
      (list_to_set
         (fold_left (fun acc col => if bool_decide (col ∈ acc) then acc else acc ++ [col])
            (IdentifyAndDropLowVarNum.zero_variance
               (IdentifyAndDropLowVarNum.variances
                  (IdentifyAndDropLowVarNum.project df unscaled)))
            (IdentifyAndDropLowVarNum.zero_variance scaled_variances
             ++ IdentifyAndDropLowVarNum.quasi_constant thr scaled_variances))
       : gset string).

(** A numeric column is flagged constant when its rescaled variance is 0,
    quasi-constant when it lies strictly between 0 and the threshold. *)
Definition flagged_constant (s : Series) : bool :=
  IdentifyAndDropLowVarNum.var_is_zero (scaled_variance s).

Definition flagged_quasi_constant (thr : Q) (s : Series) : bool :=
  IdentifyAndDropLowVarNum.var_is_quasi thr (scaled_variance s).

(** What decides whether [fit] puts a numeric column on the drop-list. *)
Definition flagged (thr : Q) (s : Series) : bool :=
  if (0 <? nunique s)%nat
  then flagged_constant s || flagged_quasi_constant thr s
  else IdentifyAndDropLowVarNum.var_is_zero (var_ddof0 (numbers (values s))).

(** Four rows; [k] repeats one number, [t] holds two numbers twice each. *)
Definition sample_variance : DataFrame :=
  mkDF 4 [ ("k", mkSeries int64 [VNum 7; VNum 7; VNum 7; VNum 7]);
           ("t", mkSeries float64 [VNum 0; VNum 5; VNum 5; VNum 0]) ].

(** A table without rows that has a text column and a boolean column. *)
Definition sample_empty : DataFrame :=
  mkDF 0 [ ("name", mkSeries object []); ("flag", mkSeries bool_ []) ].

(** ** Tolerated conditions *)

(** A call is tolerated when it returns normally and printed a diagnostic
    on the way. *)
Definition tolerated {S} (run : result S * world) (before : world) : Prop :=
  exists s after,
    run = (Ok s, after) /\ (length (stdout before) < length (stdout after))%nat.

(** Every fill value of an imputer dictionary is the no-op marker [None]. *)
Definition only_markers (d : gmap string (option value)) : Prop :=
  forall col v, d !! col = Some v -> v = None.

(** ** Frame conditions on the store *)

(** The tables of the store [h0] are all still in place, unchanged. *)
Definition grows (h0 : list DataFrame) (w : world) : Prop :=
  take (length h0) (heap w) = h0.

(** In addition, the reference [c] is allocated. *)
Definition Live (h0 : list DataFrame) (c : loc) (w : world) : Prop :=
  grows h0 w /\ (c < length (heap w))%nat.

(** The reference [r] was allocated after [h0]. *)
Definition Fresh (h0 : list DataFrame) (r : loc) (w : world) : Prop :=
  grows h0 w /\ (length h0 <= r < length (heap w))%nat.

(** From a store satisfying [P], the computation ends in one satisfying
    [Q] when it returns and [E] when it raises. *)
Definition hoare {A} (P : world -> Prop) (m : M A)
    (Q : A -> world -> Prop) (E : world -> Prop) : Prop :=
  forall w, P w ->
    match m w with
    | (Ok a, w') => Q a w'
    | (Raise _, w') => E w'
    end.

(** The outcome of a call on the table [df] behind [X]: the table is as
    before, raised or not. *)
Definition input_untouched {A} (run : result A * world) (X : loc) (df : DataFrame)
  : Prop :=
  heap (snd run) !! X = Some df.

(** Moreover a returned reference points to a table allocated by the call. *)
Definition returns_new_table (run : result loc * world) (before : world)
    (X : loc) (df : DataFrame) : Prop :=
  input_untouched run X df
  /\ forall r, fst run = Ok r ->
       heap before !! r = None /\ r <> X /\ is_Some (heap (snd run) !! r).

(** ** More sample data *)

(** A stand-in for a correlation frame whose row and column labels differ. *)
Definition skewed_corr (X : DataFrame) : CorrMatrix :=
  mkCorr ["A_03"] ["A_03"; "A_12"] (fun _ _ => PyFloat (Some 1)).

(** A table of magnitude bands: none is directional. *)
Definition magnitude_thresholds : threshold_table :=
  [ ("low_abs", (3 # 10, 5 # 10));
    ("medium_abs", (5 # 10, 7 # 10));
    ("high_abs", (7 # 10, 101 # 100)) ].


(** ** The droppers, in terms of the table *)

(** The drop-list [DropColumnsHighNA.fit] computes from a table that has
    rows and columns. *)
Definition high_missing_columns (thr : Q) (df : DataFrame) : list string :=
  map fst (filter (fun p => Qle_bool thr (snd p) = true)
                  (DropColumnsHighNA.missing_percentage df)).

(** The column's share of missing cells is below the threshold. *)
Definition below_threshold (thr : Q) (df : DataFrame) (c : string * Series) : bool :=
  negb (Qle_bool thr (percent_missing (snd c) (index_len df))).

(** A transformer state that holds [L] as its learned drop-list. *)
Definition HighNA_with (thr : Q) (L : list string) : DropColumnsHighNA.t :=
  DropColumnsHighNA.mk thr (Some L).

Definition LowVar_with (thr : Q) (numeric seen L : list string)
  : IdentifyAndDropLowVarNum.t :=
  IdentifyAndDropLowVarNum.mk thr numeric (Some L) seen.

Definition ColumnDropper_with (configured L : list string) : ColumnDropper.t :=
  ColumnDropper.mk configured (Some L).

(** A numeric column that [IdentifyAndDropLowVarNum.fit] puts on its
    drop-list. *)
Definition low_variance (thr : Q) (c : string * Series) : bool :=
  is_number (dtype_of (snd c)) && flagged thr (snd c).



(** ** The dtype converters, in terms of the table *)



(** Two rows of text under [name], a flag and a number. *)
Definition sample_mixed : DataFrame :=
  mkDF 2 [ ("name", mkSeries object [VStr "u"; VStr "u"]);
           ("flag", mkSeries bool_ [VBool true; VBool false]);
           ("size", mkSeries float64 [VNum 1; NaN]) ].

(** The dtype of the column labelled [col]. *)
Definition dtype_at (X : DataFrame) (col : string) : option dtype :=
  match lookup_col (columns X) col with
  | Some s => Some (dtype_of s)
  | None => None
  end.

(** ** The imputer, in terms of the table *)

(** The value [fit] learns for a numerical column that has a missing cell,
    under one of the three accepted strategies. *)
Definition num_fill (strategy : string) (s : Series) : value :=
  if String.eqb strategy "mean" then
    MissingValueImputer.of_float (mean (numbers (values s)))
  else if String.eqb strategy "median" then
    MissingValueImputer.of_float (median (numbers (values s)))
  else match mode (values s) with v :: _ => v | [] => VNum 0 end.

(** The value [fit] learns for any other column that has a missing cell. *)
Definition cat_fill (strategy : value) (s : Series) : value :=
  if value_eqb strategy (VStr "mode")
  then match mode (values s) with v :: _ => v | [] => VStr "Unknown" end
  else strategy.

(** The dictionary entry of a column label after [fit] on a table: the
    fill value, or the no-op marker for a column without a missing cell;
    no entry for a label the table lacks. *)
Definition entry_at (fill : Series -> value) (df : DataFrame) (col : string)
  : option (option value) :=
  match lookup_col (columns df) col with
  | Some s => Some (if isnull_any s then Some (fill s) else None)
  | None => None
  end.

(** The state of an imputer built with the strategies [ns] and [cs] and
    fitted on [df]. *)
Definition learned_from (ns : string) (cs : value) (df : DataFrame)
    (self : MissingValueImputer.t) : Prop :=
  MissingValueImputer.numerical_cols_ self = Some (select_dtypes is_number df)
  /\ MissingValueImputer.categorical_cols_ self
     = select_dtypes (fun d => negb (is_number d)) df
  /\ (forall c, MissingValueImputer.num_imputers_ self !! c
                = if bool_decide (c ∈ select_dtypes is_number df)
                  then entry_at (num_fill ns) df c else None)
  /\ (forall c, MissingValueImputer.cat_imputers_ self !! c
                = if bool_decide (c ∈ select_dtypes (fun d => negb (is_number d)) df)
                  then entry_at (cat_fill cs) df c else None).

(** What one imputation loop of [transform] makes of a column. *)
Definition apply_fill (d : gmap string (option value)) (c : string) (s : Series)
  : Series :=
  match d !! c with
  | Some (Some fill) => if isnull_any s then fillna fill s else s
  | _ => s
  end.

(** One iteration of an imputation loop, on the table. *)
Definition impute_step (d : gmap string (option value)) (cur : DataFrame)
    (col : string) : DataFrame :=
  mkDF (index_len cur)
    (map (fun p => if String.eqb (fst p) col
                   then (fst p, apply_fill d col (snd p)) else p)
         (columns cur)).

(** What [transform] makes of a column, given the imputer's state. *)
Definition imputed_column (self : MissingValueImputer.t) (c : string) (s : Series)
  : Series :=
  let s1 :=
    if bool_decide (c ∈ default [] (MissingValueImputer.numerical_cols_ self))
    then apply_fill (MissingValueImputer.num_imputers_ self) c s else s in
  if bool_decide (c ∈ MissingValueImputer.categorical_cols_ self)
  then apply_fill (MissingValueImputer.cat_imputers_ self) c s1 else s1.

Definition imputed_table (self : MissingValueImputer.t) (df : DataFrame)
  : DataFrame :=
  mkDF (index_len df)
    (map (fun p => (fst p, imputed_column self (fst p) (snd p))) (columns df)).

(** A later batch of the scenario table: [A] has no gap, [B] has one. *)
Definition scenario_later : DataFrame :=
  mkDF 2 [ ("A", mkSeries float64 [VNum 3; VNum 5]);
           ("B", mkSeries object [NaN; VStr "y"]) ].

(** * Properties *)

(** ** Running the store primitives *)

#[local] Set Warnings "-clear-no-such-hyp".

#[local] Arguments copy : simpl never.
#[local] Arguments deref : simpl never.
#[local] Arguments drop : simpl never.
#[local] Arguments getitem : simpl never.
#[local] Arguments setitem : simpl never.

Lemma deref_ok (w : world) (l : loc) (X : DataFrame) :
  heap w !! l = Some X -> deref l w = (Ok X, w).
Proof. intros H. unfold deref. by rewrite H. Qed.

Lemma copy_ok (w : world) (l : loc) (X : DataFrame) :
  heap w !! l = Some X ->
  copy l w = (Ok (length (heap w)), mkWorld (heap w ++ [X]) (stdout w)).
Proof. intros H. unfold copy, bind. by rewrite (deref_ok _ _ _ H). Qed.

Lemma lookup_new (h : list DataFrame) (X : DataFrame) :
  (h ++ [X]) !! length h = Some X.
Proof. rewrite lookup_app_r by lia. by rewrite Nat.sub_diag. Qed.

(** Rewriting with the run of [copy] on an allocated reference. *)
Ltac run_copy H :=
  let E := fresh "E" in
  pose proof (copy_ok _ _ _ H) as E; rewrite E; clear E.

(** ** Column lookup *)

Lemma lookup_col_Some (cs : list (string * Series)) (c : string) (s : Series) :
  NoDup (map fst cs) -> (c, s) ∈ cs -> lookup_col cs c = Some s.
Proof.
  induction cs as [|[c0 s0] cs IH]; simpl; intros Hnd Hin.
  - by apply elem_of_nil in Hin.
  - apply NoDup_cons in Hnd as [Hnot Hnd].
    apply elem_of_cons in Hin as [[= <- <-]|Hin].
    + by rewrite String.eqb_refl.
    + destruct (String.eqb_spec c0 c) as [->|Hne]; [|by apply IH].
      exfalso. apply Hnot. apply list_elem_of_fmap. by exists (c, s).
Qed.

Lemma lookup_col_is_Some (cs : list (string * Series)) (c : string) :
  c ∈ map fst cs -> is_Some (lookup_col cs c).
Proof.
  induction cs as [|[c0 s0] cs IH]; simpl; intros Hin.
  - by apply elem_of_nil in Hin.
  - destruct (String.eqb_spec c0 c) as [->|Hne]; [by eexists|].
    apply IH. apply elem_of_cons in Hin as [Heq|Hin]; [congruence|done].
Qed.

Lemma nonempty_false {A} (l : list A) : nonempty l = false <-> l = [].
Proof. destruct l; simpl; split; congruence. Qed.

(** ** The strict column dropper halts on a missing column *)

(** C9: when the table lacks one of the configured columns-to-drop,
    [ColumnDropper.fit] raises [ValueError]; the exception reaches the
    caller as the result of the call, after the message was printed, and
    the store's tables are as before. *)
Theorem ColumnDropper_fit_missing_column_raises
    (self : ColumnDropper.t) (w : world) (X : loc) (df : DataFrame) (col : string) :
  heap w !! X = Some df ->
  col ∈ ColumnDropper.columns_to_drop self ->
  col ∉ names df ->
  exists msg,
    ColumnDropper.fit self X w
    = (Raise (ValueError msg), mkWorld (heap w) (stdout w ++ [msg])).
Proof.
  intros HX Hin Hnot. unfold ColumnDropper.fit, bind.
  rewrite (deref_ok _ _ _ HX).
  destruct (nonempty _) eqn:Hne.
  - eexists. reflexivity.
  - exfalso. apply nonempty_false in Hne.
    assert (Hmem : col ∈ filter (fun c => has_column df c = false)
                          (ColumnDropper.columns_to_drop self)).
    { apply list_elem_of_filter. split; [|done].
      unfold has_column. by apply bool_decide_eq_false. }
    rewrite Hne in Hmem. by apply elem_of_nil in Hmem.
Qed.

Lemma ColumnDropper_fit_missing_column_raises_witness :
  exists msg,
    ColumnDropper.fit (ColumnDropper.mk ["age"; "ghost"] (Some []))
      0%nat (mkWorld [mkDF 1 [("age", mkSeries int64 [VNum 3])]] [])
    = (Raise (ValueError msg),
       mkWorld [mkDF 1 [("age", mkSeries int64 [VNum 3])]] ([] ++ [msg])).
Proof.
  apply (ColumnDropper_fit_missing_column_raises
           (ColumnDropper.mk ["age"; "ghost"] (Some []))
           (mkWorld [mkDF 1 [("age", mkSeries int64 [VNum 3])]] [])
           0%nat (mkDF 1 [("age", mkSeries int64 [VNum 3])]) "ghost").
  - reflexivity.
  - apply (bool_decide_unpack _). vm_compute. exact I.
  - apply (bool_decide_unpack _). vm_compute. exact I.
Defined.

(** ** Rational arithmetic *)

Lemma Qeq_bounds (a b : Q) : a == b -> a <= b /\ b <= a.
Proof.
  intros H. split; apply Qle_lteq; right; [exact H | symmetry; exact H].
Qed.

(** ** The high-missingness dropper *)



Lemma missing_percentage_eq (s : Series) (n : nat) :
  (0 < n)%nat ->
  inject_Z (Z.of_nat (isnull_sum s) * 100) / inject_Z (Z.of_nat n)
  == percent_missing s n.
Proof.
  intros Hn. unfold percent_missing. rewrite inject_Z_mult.
  assert (~ inject_Z (Z.of_nat n) == 0).
  { change 0 with (inject_Z 0). rewrite inject_Z_injective. lia. }
  field. done.
Qed.

Lemma missing_percentage_le (thr : Q) (s : Series) (n : nat) :
  (0 < n)%nat ->
  thr <= inject_Z (Z.of_nat (isnull_sum s) * 100) / inject_Z (Z.of_nat n)
  <-> thr <= percent_missing s n.
Proof.
  intros Hn. destruct (Qeq_bounds _ _ (missing_percentage_eq s n Hn)).
  split; intros; eapply Qle_trans; eauto.
Qed.


Lemma sample_missing_wf : wf_table sample_missing.
Proof.
  split.
  - apply (bool_decide_unpack _). vm_compute. exact I.
  - repeat constructor.
Defined.


(** ** Loops *)

(** A loop whose body never raises and keeps an invariant of the loop
    state and the store ends normally, with the invariant. *)
Lemma for_fold_inv {A S} (I : S -> world -> Prop) (l : list A)
    (body : S -> A -> M S) :
  (forall s x w, x ∈ l -> I s w ->
     exists s' w', body s x w = (Ok s', w') /\ I s' w') ->
  forall s w, I s w ->
    exists s' w', for_fold l body s w = (Ok s', w') /\ I s' w'.
Proof.
  induction l as [|x l IH]; intros Hbody s w HI; simpl.
  - by exists s, w.
  - destruct (Hbody s x w) as (s1 & w1 & Hrun & HI1); [left|done|].
    unfold bind. rewrite Hrun. apply IH; [|done].
    intros s0 y w0 Hy. apply Hbody. by right.
Qed.

(** ** The categorizer's default threshold table *)

Lemma scan_bands_dom (items : threshold_table) (c1 c2 : string) (v : float)
    (report : gmap string (list entry)) :
  dom (scan_bands items c1 c2 v report) = dom report.
Proof.
  induction items as [|[level [mn mx]] items IH]; simpl; [done|].
  repeat case_match; rewrite ?IH; unfold append_to; by rewrite ?dom_alter_L.
Qed.

Lemma visit_pair_inv (I : gmap string (list entry) -> Prop)
    (thresholds : threshold_table) (cm : CorrMatrix)
    (report : gmap string (list entry)) (i j : nat) (w : world) :
  (forall c1 c2 v r, I r -> I (scan_bands thresholds c1 c2 v r)) ->
  I report ->
  exists r' w', visit_pair thresholds cm report i j w = (Ok r', w')
                /\ I r' /\ heap w' = heap w.
Proof.
  intros Hstep HI. unfold visit_pair.
  destruct (iloc cm i j); try (eexists _, _; split; [reflexivity|]; split; [by apply Hstep|done]).
  eexists _, _. split; [reflexivity|]. by split.
Qed.

Lemma pairs_loop_inv (I : gmap string (list entry) -> Prop)
    (thresholds : threshold_table) (cm : CorrMatrix) (n : nat)
    (report : gmap string (list entry)) (w : world) :
  (forall c1 c2 v r, I r -> I (scan_bands thresholds c1 c2 v r)) ->
  I report ->
  exists r' w',
    for_fold (seq 0 n)
      (fun report i =>
         for_fold (seq 0 i)
           (fun report j => visit_pair thresholds cm report i j) report)
      report w
    = (Ok r', w') /\ I r' /\ heap w' = heap w.
Proof.
  intros Hstep HI.
  destruct (for_fold_inv (fun r w0 => I r /\ heap w0 = heap w) (seq 0 n)
              (fun report i =>
                 for_fold (seq 0 i)
                   (fun report j => visit_pair thresholds cm report i j) report))
    with (s := report) (w := w) as (r' & w' & Hrun & HI' & Hh); [|done|by eauto].
  intros r i w0 _ [HIr Hw0].
  destruct (for_fold_inv (fun r w1 => I r /\ heap w1 = heap w) (seq 0 i)
              (fun report j => visit_pair thresholds cm report i j))
    with (s := r) (w := w0) as (r1 & w1 & Hrun1 & HI1); [|done|by eauto].
  intros r2 j w2 _ [HI2 Hw2].
  destruct (visit_pair_inv I thresholds cm r2 i j w2 Hstep HI2)
    as (r3 & w3 & Hrun3 & HI3 & Hw3).
  exists r3, w3. split; [done|]. split; [done|congruence].
Qed.

Lemma zip_same_eqb (l : list string) :
  forallb (fun p => String.eqb (fst p) (snd p)) (zip l l) = true.
Proof. induction l; simpl; [done|]. by rewrite String.eqb_refl. Qed.

(** C1: what the code does when the caller leaves [thresholds] out.  The
    parameter then holds the signature's own default, an empty dictionary,
    and the report comes back without a single band key; the ten-band
    default table is reached only by passing [None], and then the report's
    keys are exactly its ten band names. *)
Theorem analyze_unset_thresholds_report_has_no_band
    (corr : DataFrame -> CorrMatrix) (w : world) (X : loc) (df : DataFrame) :
  heap w !! X = Some df ->
  corr_index (corr df) = corr_columns (corr df) ->
  (exists w', analyze_feature_correlations corr X thresholds_unset w = (Ok ∅, w'))
  /\ (exists report w',
        analyze_feature_correlations corr X None w = (Ok report, w')
        /\ dom report = list_to_set (map fst default_thresholds)).
Proof.
  intros HX Hlabels.
  assert (Hpre : forall th,
    analyze_feature_correlations corr X th w
    = bind (match th with
            | None => do! print "Using default directional thresholds." in
                      ret default_thresholds
            | Some given => ret given
            end)
        (fun thresholds =>
           for_fold (seq 0 (length (corr_columns (corr df))))
             (fun report i =>
                for_fold (seq 0 i)
                  (fun report j => visit_pair thresholds (corr df) report i j)
                  report)
             (list_to_map (map (fun item => (fst item, [])) thresholds)))
        (mkWorld (heap w ++ [df]) (stdout w))).
  { intros th. unfold analyze_feature_correlations.
    unfold bind at 1. rewrite (copy_ok _ _ _ HX).
    unfold bind at 1. rewrite (deref_ok _ _ df) by apply lookup_new.
    rewrite Hlabels, Nat.eqb_refl, zip_same_eqb. reflexivity. }
  split.
  - rewrite Hpre. unfold thresholds_unset, bind, ret. simpl map.
    destruct (pairs_loop_inv (fun r => r = ∅) [] (corr df)
                (length (corr_columns (corr df))) ∅
                (mkWorld (heap w ++ [df]) (stdout w)))
      as (r' & w' & Hrun & -> & _); [done|done|].
    exists w'. exact Hrun.
  - rewrite Hpre. unfold bind at 1. unfold bind at 1. unfold print, ret.
    destruct (pairs_loop_inv
                (fun r => dom r = list_to_set (map fst default_thresholds))
                default_thresholds (corr df)
                (length (corr_columns (corr df)))
                (list_to_map (map (fun item => (fst item, [])) default_thresholds))
                (mkWorld (heap w ++ [df]) (stdout w ++ ["Using default directional thresholds."])))
      as (r' & w' & Hrun & Hdom & _).
    + intros c1 c2 v r Hr. by rewrite scan_bands_dom.
    + apply set_eq. intros k. rewrite elem_of_dom, elem_of_list_to_set.
      vm_compute map. rewrite <- elem_of_dom. rewrite dom_list_to_map_L.
      rewrite elem_of_list_to_set. done.
    + exists r', w'. split; [exact Hrun|exact Hdom].
Qed.

Lemma analyze_unset_thresholds_report_has_no_band_witness :
  (exists w', analyze_feature_correlations sample_corr 0%nat thresholds_unset
                (mkWorld [sample_pair] []) = (Ok ∅, w'))
  /\ (exists report w',
        analyze_feature_correlations sample_corr 0%nat None
          (mkWorld [sample_pair] []) = (Ok report, w')
        /\ dom report = list_to_set (map fst default_thresholds)).
Proof.
  apply (analyze_unset_thresholds_report_has_no_band sample_corr
           (mkWorld [sample_pair] []) 0%nat sample_pair).
  - reflexivity.
  - reflexivity.
Defined.

(** ** [transform] on an instance that was never fitted *)

Lemma deref_new (h : list DataFrame) (out : list string) (X : DataFrame) :
  deref (length h) (mkWorld (h ++ [X]) out) = (Ok X, mkWorld (h ++ [X]) out).
Proof. apply deref_ok. apply lookup_new. Qed.

(** C2: what the code does when [transform] is called on a freshly
    constructed step.  Every constructor already assigns the learned
    attribute (an empty list, empty dictionaries), so the [hasattr] guards
    of the two droppers and of the imputer never fire, and the dtype
    converters have no guard: each [transform] returns a copy of the table
    instead of raising. *)
Theorem transform_before_fit_returns_a_copy
    (w : world) (X : loc) (df : DataFrame) :
  heap w !! X = Some df ->
  (forall thr self, DropColumnsHighNA.__init__ thr = Ok self ->
     DropColumnsHighNA.transform self X w
     = (Ok (length (heap w)), mkWorld (heap w ++ [df]) (stdout w)))
  /\ (forall thr self, IdentifyAndDropLowVarNum.__init__ thr = Ok self ->
     IdentifyAndDropLowVarNum.transform self X w
     = (Ok (length (heap w)), mkWorld (heap w ++ [df]) (stdout w)))
  /\ (forall num cat self, MissingValueImputer.__init__ num cat = Ok self ->
     MissingValueImputer.transform self X w
     = (Ok (length (heap w)),
        mkWorld (heap w ++ [df])
          (stdout w ++ ["MissingValueImputer: Number of missing values after imputation"])))
  /\ (forall cols self, SpecificColumnCategorizer.__init__ cols = Ok self ->
     SpecificColumnCategorizer.transform self X w
     = (Ok (length (heap w)), mkWorld (heap w ++ [df]) (stdout w)))
  /\ (forall ratio most self, ObjectToCategoryTransformer.__init__ ratio most = Ok self ->
     ObjectToCategoryTransformer.transform self X w
     = (Ok (length (heap w)),
        mkWorld (heap w ++ [df])
          (stdout w ++ ["ObjectToCategoryTransformer: No object columns met criteria for conversion."])))
  /\ (forall self, FloatToCategoryTransformer.__init__ = Ok self ->
     FloatToCategoryTransformer.transform self X w
     = (Ok (length (heap w)),
        mkWorld (heap w ++ [df])
          (stdout w ++ ["FloatToCategoryTransformer: No float columns met criteria for conversion to category (0/1)."])))
  /\ (forall self, BooleanToCategoryTransformer.__init__ = Ok self ->
     BooleanToCategoryTransformer.transform self X w
     = (Ok (length (heap w)),
        mkWorld (heap w ++ [df])
          (stdout w ++ ["BooleanToCategoryTransformer: No boolean columns found for conversion."]))).
Proof.
  intros HX. repeat split.
  - intros thr self Hinit. unfold DropColumnsHighNA.__init__ in Hinit.
    destruct (negb _); [discriminate|]. injection Hinit as <-.
    unfold DropColumnsHighNA.transform, bind. simpl.
    run_copy HX. by rewrite deref_new.
  - intros thr self Hinit. unfold IdentifyAndDropLowVarNum.__init__ in Hinit.
    destruct (negb _); [discriminate|]. injection Hinit as <-.
    unfold IdentifyAndDropLowVarNum.transform, bind. simpl.
    run_copy HX. by rewrite deref_new.
  - intros num cat self Hinit. unfold MissingValueImputer.__init__ in Hinit.
    destruct (negb _); [discriminate|]. injection Hinit as <-.
    unfold MissingValueImputer.transform, MissingValueImputer.dict_empty.
    cbn [MissingValueImputer.num_imputers_ MissingValueImputer.cat_imputers_
         MissingValueImputer.numerical_cols_ MissingValueImputer.categorical_cols_].
    rewrite map_size_empty. unfold bind. simpl.
    by run_copy HX.
  - intros cols self [= <-].
    unfold SpecificColumnCategorizer.transform, bind. simpl.
    by run_copy HX.
  - intros ratio most self [= <-].
    unfold ObjectToCategoryTransformer.transform, bind. simpl.
    by run_copy HX.
  - intros self [= <-].
    unfold FloatToCategoryTransformer.transform, bind. simpl.
    by run_copy HX.
  - intros self [= <-].
    unfold BooleanToCategoryTransformer.transform, bind. simpl.
    by run_copy HX.
Qed.

Lemma transform_before_fit_returns_a_copy_witness :
  DropColumnsHighNA.transform (DropColumnsHighNA.mk 70 (Some [])) 0%nat
    (mkWorld [sample_missing] [])
  = (Ok 1%nat, mkWorld ([sample_missing] ++ [sample_missing]) []).
Proof.
  exact (proj1 (transform_before_fit_returns_a_copy
                  (mkWorld [sample_missing] []) 0%nat sample_missing eq_refl)
               70 (DropColumnsHighNA.mk 70 (Some [])) eq_refl).
Defined.

(** ** The imputer scenario *)

(** C3, as the code has it: on the table [A = [1, 2, null, 4]],
    [B = ["x", "y", "x", "x"]], fit then transform with the median strategy
    returns a table whose column [A] has its null filled with 2, the median
    of the three values present (1, 2 and 4), every other cell of [A] and
    the whole of [B] being as in the input. *)
Theorem impute_scenario_fills_with_median_2 :
  returned_table impute_scenario
  = Some (mkDF 4
            [ ("A", mkSeries float64 [VNum 1; VNum 2; VNum 2; VNum 4]);
              ("B", mkSeries object [VStr "x"; VStr "y"; VStr "x"; VStr "x"]) ]).
Proof. vm_compute. reflexivity. Qed.

(** C3 as stated fails: the cell that replaces the null of [A] is not 2.5. *)
Lemma impute_scenario_fill_is_not_2_5 :
  ~ (exists out q,
       returned_table impute_scenario = Some out
       /\ cell out "A" 2 = Some (VNum q)
       /\ q == 5 # 2
       /\ lookup_col (columns out) "B" = lookup_col (columns scenario_table) "B").
Proof.
  intros (out & q & Hout & Hcell & Hq & _).
  vm_compute in Hout. injection Hout as <-.
  vm_compute in Hcell. injection Hcell as <-.
  vm_compute in Hq. discriminate.
Qed.

(** ** First match wins *)

Lemma Qle_bool_false (a b : Q) : Qle_bool a b = false <-> b < a.
Proof.
  rewrite <- not_true_iff_false, Qle_bool_iff.
  split; [apply Qnot_le_lt | apply Qlt_not_le].
Qed.

Lemma directional_test (mn mx : Q) :
  negb (Qle_bool 0 mn) || Qle_bool mx 0 = true <-> directional (mn, mx).
Proof.
  unfold directional. simpl.
  rewrite orb_true_iff, negb_true_iff, Qle_bool_false, Qle_bool_iff. done.
Qed.

Lemma range_test (mn mx v : Q) :
  Qle_bool mn v && negb (Qle_bool mx v) = true <-> mn <= v /\ v < mx.
Proof.
  rewrite andb_true_iff, negb_true_iff, Qle_bool_false, Qle_bool_iff. done.
Qed.

Lemma first_matching_band_key (items : threshold_table) (v : Q) (level : string) :
  first_matching_band items v level -> level ∈ map fst items.
Proof.
  induction 1; simpl; [left|right]; done.
Qed.

Lemma first_matching_band_functional (items : threshold_table) (v : Q)
    (l1 l2 : string) :
  first_matching_band items v l1 -> first_matching_band items v l2 -> l1 = l2.
Proof.
  induction 1 as [| ? ? ? ? ? Hno _ IH]; inversion 1; subst; try done.
  by apply IH.
Qed.

(** The loop with [break] appends the pair to the first matching band and
    to no other; a NaN matches nothing. *)
Lemma scan_bands_spec (items : threshold_table) (c1 c2 : string) (x : float)
    (report : gmap string (list entry)) :
  (exists v level, x = Some v /\ first_matching_band items v level
     /\ scan_bands items c1 c2 x report = append_to level (c1, c2, x) report)
  \/ ((forall v level, x = Some v -> ~ first_matching_band items v level)
      /\ scan_bands items c1 c2 x report = report).
Proof.
  destruct x as [v|]; cycle 1.
  { right. split; [intros ? ? [=]|].
    induction items as [|[level [mn mx]] items IH]; simpl; [done|].
    rewrite IH. by destruct (negb _ || _). }
  induction items as [|[level [mn mx]] items IH]; simpl.
  { right. split; [|done]. intros ? ? [= <-] H. inversion H. }
  destruct (negb (Qle_bool 0 mn) || Qle_bool mx 0) eqn:Hdir.
  - apply directional_test in Hdir.
    destruct (Qle_bool mn v && negb (Qle_bool mx v)) eqn:Hin.
    + apply range_test in Hin. left. exists v, level. split; [done|].
      split; [|done]. constructor. left. done.
    + assert (Hno : ~ band_matches (mn, mx) v).
      { intros [(_ & Hm)|(Hnd & _)]; [|done].
        apply range_test in Hm. simpl in Hm. congruence. }
      destruct IH as [(v' & l' & [= <-] & Hfm & Heq)|[Hnone Heq]].
      * left. exists v, l'. split; [done|]. split; [|done]. by constructor.
      * right. split; [|done]. intros ? l' [= <-] H.
        inversion H; subst; [done|]. by eapply Hnone.
  - assert (Hnd : ~ directional (mn, mx)).
    { rewrite <- directional_test. congruence. }
    destruct (Qle_bool mn (Qabs v) && negb (Qle_bool mx (Qabs v))) eqn:Hin.
    + apply range_test in Hin. left. exists v, level. split; [done|].
      split; [|done]. constructor. right. done.
    + assert (Hno : ~ band_matches (mn, mx) v).
      { intros [(Hd & _)|(_ & Hm)]; [done|].
        apply range_test in Hm. simpl in Hm. congruence. }
      destruct IH as [(v' & l' & [= <-] & Hfm & Heq)|[Hnone Heq]].
      * left. exists v, l'. split; [done|]. split; [|done]. by constructor.
      * right. split; [|done]. intros ? l' [= <-] H.
        inversion H; subst; [done|]. by eapply Hnone.
Qed.

(** A loop invariant that follows the part of the list already visited. *)
Lemma for_fold_prefix_inv {A S} (l : list A) (body : S -> A -> M S) :
  forall (I : list A -> S -> world -> Prop),
  (forall pre x s w, x ∈ l -> I pre s w ->
     exists s' w', body s x w = (Ok s', w') /\ I (pre ++ [x]) s' w') ->
  forall s w, I [] s w ->
    exists s' w', for_fold l body s w = (Ok s', w') /\ I l s' w'.
Proof.
  induction l as [|x l IH]; intros I Hbody s w HI; simpl.
  - by exists s, w.
  - destruct (Hbody [] x s w) as (s1 & w1 & Hrun & HI1); [left|done|].
    unfold bind. rewrite Hrun.
    apply (IH (fun pre => I (x :: pre))); [|done].
    intros pre y s0 w0 Hy. apply (Hbody (x :: pre)). by right.
Qed.

Lemma band_list_append (level : string) (e0 : entry)
    (report : gmap string (list entry)) (L : string) (e : entry) :
  level ∈ dom report ->
  e ∈ band_list (append_to level e0 report) L
  <-> e ∈ band_list report L \/ (L = level /\ e = e0).
Proof.
  intros Hdom. apply elem_of_dom in Hdom as [es Hes].
  unfold band_list, append_to.
  destruct (decide (L = level)) as [->|Hne].
  - rewrite lookup_alter_eq, Hes. simpl. rewrite elem_of_app, list_elem_of_singleton.
    naive_solver.
  - rewrite lookup_alter_ne by done. naive_solver.
Qed.

Section PairsLoop.

Variables (thresholds : threshold_table) (cm : CorrMatrix).

(** The label at a position of the matrix columns, as the loop reads it. *)
Let col (k : nat) : string := default "" (corr_columns cm !! k).

(** What the visit of the pair at [(i, j)] adds to band [level]. *)
Let adds (i j : nat) (level : string) (e : entry) : Prop :=
  exists v, e = (col i, col j, Some v)
            /\ pair_correlation cm i j = Some v
            /\ first_matching_band thresholds v level.

Lemma visit_pair_step (report : gmap string (list entry)) (i j : nat) (w : world) :
  list_to_set (map fst thresholds) ⊆ dom report ->
  exists r' w',
    visit_pair thresholds cm report i j w = (Ok r', w')
    /\ dom r' = dom report
    /\ heap w' = heap w
    /\ forall level e,
         e ∈ band_list r' level <-> e ∈ band_list report level \/ adds i j level e.
Proof.
  intros Hkeys.
  assert (Hscan : forall x,
    dom (scan_bands thresholds (col i) (col j) x report) = dom report
    /\ forall level e,
         e ∈ band_list (scan_bands thresholds (col i) (col j) x report) level
         <-> e ∈ band_list report level
             \/ exists v, x = Some v /\ e = (col i, col j, Some v)
                          /\ first_matching_band thresholds v level).
  { intros x. split; [apply scan_bands_dom|]. intros level e.
    destruct (scan_bands_spec thresholds (col i) (col j) x report)
      as [(v & l & -> & Hfm & ->)|[Hnone ->]].
    - rewrite band_list_append; cycle 1.
      { apply Hkeys, elem_of_list_to_set. by eapply first_matching_band_key. }
      split; (intros [H|H]; [by left|right]).
      + destruct H as [-> ->]. by exists v.
      + destruct H as (v' & [= <-] & -> & Hfm').
        split; [|done]. by eapply first_matching_band_functional.
    - split; [by left|]. intros [H|(v & -> & _ & Hfm)]; [done|].
      by destruct (Hnone v level eq_refl). }
  unfold visit_pair, adds, pair_correlation. fold (col i) (col j).
  destruct (iloc cm i j) as [x|z|re im|].
  - eexists _, _. split; [reflexivity|]. destruct (Hscan x) as [Hd Hm].
    split; [done|]. split; [done|]. intros level e. rewrite Hm.
    destruct x as [q|]; naive_solver.
  - eexists _, _. split; [reflexivity|].
    destruct (Hscan (Some (inject_Z z))) as [Hd Hm].
    split; [done|]. split; [done|]. intros level e. rewrite Hm. naive_solver.
  - eexists _, _. split; [reflexivity|]. destruct (Hscan re) as [Hd Hm].
    split; [done|]. split; [done|]. intros level e. rewrite Hm.
    destruct re as [q|]; naive_solver.
  - eexists _, _. split; [reflexivity|]. split; [done|]. split; [done|].
    naive_solver.
Qed.

Lemma pairs_loop_entries (n : nat) (report : gmap string (list entry)) (w : world) :
  list_to_set (map fst thresholds) ⊆ dom report ->
  exists r' w',
    for_fold (seq 0 n)
      (fun report i =>
         for_fold (seq 0 i)
           (fun report j => visit_pair thresholds cm report i j) report)
      report w
    = (Ok r', w')
    /\ heap w' = heap w
    /\ forall level e,
         e ∈ band_list r' level
         <-> e ∈ band_list report level
             \/ exists i j, (j < i < n)%nat /\ adds i j level e.
Proof.
  intros Hkeys.
  set (I := fun (pre : list nat) (r : gmap string (list entry)) (w0 : world) =>
    dom r = dom report /\ heap w0 = heap w
    /\ forall level e,
         e ∈ band_list r level
         <-> e ∈ band_list report level
             \/ exists i j, i ∈ pre /\ (j < i)%nat /\ adds i j level e).
  destruct (for_fold_prefix_inv (seq 0 n)
              (fun report i =>
                 for_fold (seq 0 i)
                   (fun report j => visit_pair thresholds cm report i j) report)
              I) with (s := report) (w := w)
    as (r' & w' & Hrun & Hd & Hh & Hm).
  - intros pre i r0 w0 _ (Hd0 & Hh0 & Hm0).
    set (J := fun (pre' : list nat) (r : gmap string (list entry)) (w1 : world) =>
      dom r = dom report /\ heap w1 = heap w
      /\ forall level e,
           e ∈ band_list r level
           <-> e ∈ band_list r0 level
               \/ exists j, j ∈ pre' /\ adds i j level e).
    destruct (for_fold_prefix_inv (seq 0 i)
                (fun report j => visit_pair thresholds cm report i j) J)
      with (s := r0) (w := w0) as (r1 & w1 & Hrun1 & Hd1 & Hh1 & Hm1).
    + intros pre' j r2 w2 _ (Hd2 & Hh2 & Hm2).
      destruct (visit_pair_step r2 i j w2) as (r3 & w3 & Hrun3 & Hd3 & Hh3 & Hm3).
      { by rewrite Hd2. }
      exists r3, w3. split; [done|]. split; [congruence|]. split; [congruence|].
      intros level e. rewrite Hm3, Hm2. setoid_rewrite elem_of_app.
      setoid_rewrite list_elem_of_singleton. naive_solver.
    + split; [done|]. split; [done|]. intros level e.
      split; [by left|]. intros [H|(j & Hj & _)]; [done|].
      by apply elem_of_nil in Hj.
    + exists r1, w1. split; [done|]. split; [done|]. split; [done|].
      intros level e. rewrite Hm1, Hm0. setoid_rewrite elem_of_app.
      setoid_rewrite list_elem_of_singleton. setoid_rewrite elem_of_seq.
      split.
      * intros [[H|(i' & j' & Hi' & Hlt & Ha)]|(j & Hj & Ha)].
        -- by left.
        -- right. exists i', j'. split; [by left|done].
        -- right. exists i, j. split; [by right|]. split; [lia|done].
      * intros [H|(i' & j' & [Hi'| ->] & Hlt & Ha)].
        -- left. by left.
        -- left. right. by exists i', j'.
        -- right. exists j'. split; [lia|done].
  - split; [done|]. split; [done|]. intros level e.
    split; [by left|]. intros [H|(i & j & Hi & _)]; [done|].
    by apply elem_of_nil in Hi.
  - exists r', w'. split; [done|]. split; [done|]. intros level e.
    rewrite Hm. setoid_rewrite elem_of_seq.
    split; (intros [H|(i & j & H1 & H2)]; [by left|right; exists i, j]).
    + split; [lia|]. by destruct H2.
    + split; [lia|]. split; [lia|done].
Qed.

End PairsLoop.

Lemma band_list_initial (thresholds : threshold_table) (level : string) :
  band_list (list_to_map (map (fun item : string * (Q * Q) => (fst item, []))
                              thresholds)) level = [].
Proof.
  unfold band_list.
  destruct (list_to_map _ !! level) as [es|] eqn:Hes; [|done].
  apply elem_of_list_to_map_2, list_elem_of_fmap in Hes as [item [[= _ ->] _]].
  done.
Qed.

(** With matching row and column labels the checks on the correlation
    frame pass, and the categorizer runs its two loops on a copy. *)
Lemma analyze_given_thresholds_run (corr : DataFrame -> CorrMatrix)
    (w : world) (X : loc) (df : DataFrame) (thresholds : threshold_table) :
  heap w !! X = Some df ->
  corr_index (corr df) = corr_columns (corr df) ->
  analyze_feature_correlations corr X (Some thresholds) w
  = for_fold (seq 0 (length (corr_columns (corr df))))
      (fun report i =>
         for_fold (seq 0 i)
           (fun report j => visit_pair thresholds (corr df) report i j) report)
      (list_to_map (map (fun item => (fst item, [])) thresholds))
      (mkWorld (heap w ++ [df]) (stdout w)).
Proof.
  intros HX Hlabels. unfold analyze_feature_correlations.
  unfold bind at 1. rewrite (copy_ok _ _ _ HX).
  unfold bind at 1. rewrite (deref_ok _ _ df) by apply lookup_new.
  rewrite Hlabels, Nat.eqb_refl, zip_same_eqb. reflexivity.
Qed.

(** C4: for every table and threshold table (the correlation frame being
    labelled alike on both axes, with distinct labels), the categorizer
    returns a report in which the pair of the features at positions
    [j < i] is listed in a band exactly when that band is the first one, in
    the table's iteration order, that matches the pair's correlation
    (signed value for a directional band, absolute value for any other);
    so the pair is in the list of at most one band, in none when no band
    matches, and it is never listed the other way round. *)
Theorem pair_listed_in_first_matching_band_only
    (corr : DataFrame -> CorrMatrix) (w : world) (X : loc) (df : DataFrame)
    (thresholds : threshold_table) :
  heap w !! X = Some df ->
  corr_index (corr df) = corr_columns (corr df) ->
  NoDup (corr_columns (corr df)) ->
  exists report w',
    analyze_feature_correlations corr X (Some thresholds) w = (Ok report, w')
    /\ forall i j c1 c2,
         (j < i)%nat ->
         corr_columns (corr df) !! i = Some c1 ->
         corr_columns (corr df) !! j = Some c2 ->
         (forall level x,
            (c1, c2, x) ∈ band_list report level
            <-> exists v, x = Some v
                          /\ pair_correlation (corr df) i j = Some v
                          /\ first_matching_band thresholds v level)
         /\ (forall l1 l2 x1 x2,
               (c1, c2, x1) ∈ band_list report l1 ->
               (c1, c2, x2) ∈ band_list report l2 -> l1 = l2)
         /\ (forall level x, (c2, c1, x) ∉ band_list report level).
Proof.
  intros HX Hlabels Hnd.
  destruct (pairs_loop_entries thresholds (corr df)
              (length (corr_columns (corr df)))
              (list_to_map (map (fun item => (fst item, [])) thresholds))
              (mkWorld (heap w ++ [df]) (stdout w)))
    as (report & w' & Hrun & _ & Hm).
  { rewrite dom_list_to_map_L, <- list_fmap_compose.
    intros k Hk. apply elem_of_list_to_set. apply elem_of_list_to_set in Hk.
    done. }
  exists report, w'.
  split; [by rewrite (analyze_given_thresholds_run _ _ _ _ _ HX Hlabels)|].
  intros i j c1 c2 Hlt Hi Hj.
  assert (Hchar : forall d1 d2 level x,
    (d1, d2, x) ∈ band_list report level
    <-> exists i' j' v,
          (j' < i')%nat
          /\ corr_columns (corr df) !! i' = Some d1
          /\ corr_columns (corr df) !! j' = Some d2
          /\ x = Some v
          /\ pair_correlation (corr df) i' j' = Some v
          /\ first_matching_band thresholds v level).
  { intros d1 d2 level x. rewrite Hm, band_list_initial. split.
    - intros [H|(i' & j' & [Hlt1 Hlt2] & v & [= -> -> ->] & Hpc & Hfm)].
      { by apply elem_of_nil in H. }
      destruct (lookup_lt_is_Some_2 (corr_columns (corr df)) i') as [a Ha]; [done|].
      destruct (lookup_lt_is_Some_2 (corr_columns (corr df)) j') as [b Hb]; [lia|].
      exists i', j', v. rewrite Ha, Hb. done.
    - intros (i' & j' & v & Hlt' & Hi' & Hj' & -> & Hpc & Hfm). right.
      exists i', j'. split.
      { split; [done|]. by eapply lookup_lt_Some. }
      exists v. rewrite Hi', Hj'. done. }
  assert (Hsame : forall i' j',
    corr_columns (corr df) !! i' = Some c1 ->
    corr_columns (corr df) !! j' = Some c2 -> i' = i /\ j' = j).
  { intros i' j' Hi' Hj'. split; eapply NoDup_lookup; eauto. }
  split; [|split].
  - intros level x. rewrite Hchar. split.
    + intros (i' & j' & v & _ & Hi' & Hj' & -> & Hpc & Hfm).
      destruct (Hsame _ _ Hi' Hj') as [-> ->]. by exists v.
    + intros (v & -> & Hpc & Hfm). by exists i, j, v.
  - intros l1 l2 x1 x2 H1 H2.
    apply Hchar in H1 as (i1 & j1 & v1 & _ & Hi1 & Hj1 & -> & Hpc1 & Hfm1).
    apply Hchar in H2 as (i2 & j2 & v2 & _ & Hi2 & Hj2 & -> & Hpc2 & Hfm2).
    destruct (Hsame _ _ Hi1 Hj1) as [-> ->].
    destruct (Hsame _ _ Hi2 Hj2) as [-> ->].
    assert (v1 = v2) as -> by congruence.
    by eapply first_matching_band_functional.
  - intros level x Hin.
    apply Hchar in Hin as (i' & j' & v & Hlt' & Hi' & Hj' & _).
    assert (i' = j) as -> by (eapply NoDup_lookup; eauto).
    assert (j' = i) as -> by (eapply NoDup_lookup; eauto).
    lia.
Qed.

Lemma pair_listed_in_first_matching_band_only_witness :
  exists report w',
    analyze_feature_correlations sample_corr 0%nat (Some default_thresholds)
      (mkWorld [sample_pair] []) = (Ok report, w')
    /\ forall i j c1 c2,
         (j < i)%nat ->
         corr_columns (sample_corr sample_pair) !! i = Some c1 ->
         corr_columns (sample_corr sample_pair) !! j = Some c2 ->
         (forall level x,
            (c1, c2, x) ∈ band_list report level
            <-> exists v, x = Some v
                          /\ pair_correlation (sample_corr sample_pair) i j = Some v
                          /\ first_matching_band default_thresholds v level)
         /\ (forall l1 l2 x1 x2,
               (c1, c2, x1) ∈ band_list report l1 ->
               (c1, c2, x2) ∈ band_list report l2 -> l1 = l2)
         /\ (forall level x, (c2, c1, x) ∉ band_list report level).
Proof.
  apply (pair_listed_in_first_matching_band_only sample_corr
           (mkWorld [sample_pair] []) 0%nat sample_pair default_thresholds).
  - reflexivity.
  - reflexivity.
  - apply (bool_decide_unpack _). vm_compute. exact I.
Defined.

(** ** Distinct values of a column *)

Lemma value_eqb_sym (a b : value) : value_eqb a b = value_eqb b a.
Proof.
  destruct a, b; simpl; try done.
  - apply eq_true_iff_eq. rewrite !Qeq_bool_iff. split; intros H; by symmetry.
  - apply String.eqb_sym.
  - by destruct b0, b.
Qed.

Lemma value_eqb_trans (a b c : value) :
  value_eqb a b = true -> value_eqb b c = true -> value_eqb a c = true.
Proof.
  destruct a, b, c; simpl; try done.
  - rewrite !Qeq_bool_iff. intros H1 H2. by rewrite H1.
  - rewrite !String.eqb_eq. congruence.
  - by destruct b0, b, b1.
Qed.

Lemma unique_subset (vs : list value) (x : value) :
  x ∈ unique vs -> x ∈ vs.
Proof.
  induction vs as [|v vs IH]; simpl; [done|].
  rewrite !elem_of_cons, list_elem_of_filter. naive_solver.
Qed.

Lemma unique_repr (vs : list value) (x : value) :
  x ∈ vs -> value_eqb x x = true ->
  exists u, u ∈ unique vs /\ value_eqb u x = true.
Proof.
  induction vs as [|v vs IH]; simpl; intros Hin Hx.
  - by apply elem_of_nil in Hin.
  - apply elem_of_cons in Hin as [->|Hin].
    + exists v. split; [left|done].
    + destruct (IH Hin Hx) as (u & Hu & Hux).
      destruct (value_eqb v u) eqn:Hvu.
      * exists v. split; [left|]. by eapply value_eqb_trans.
      * exists u. split; [|done]. right. by apply list_elem_of_filter.
Qed.

Lemma unique_nil (vs : list value) : unique vs = [] <-> vs = [].
Proof. destruct vs; simpl; split; congruence. Qed.

Lemma filter_none {A} (P : A -> Prop) `{!forall x, Decision (P x)} (l : list A) :
  (forall x, x ∈ l -> ~ P x) -> filter P l = [].
Proof.
  induction l as [|x l IH]; intros Hno; [done|].
  rewrite filter_cons_False by (apply Hno; left).
  apply IH. intros y Hy. apply Hno. by right.
Qed.

(** When the values that pass [P] are all equal to one value, at most one
    of them is left among the distinct values. *)
Lemma unique_filter_one (P : value -> bool) (o : value) (vs : list value) :
  (forall v, v ∈ vs -> P v = true -> value_eqb o v = true) ->
  (length (filter (fun v => P v = true) (unique vs)) <= 1)%nat.
Proof.
  induction vs as [|y vs IH]; simpl; intros Hall; [lia|].
  assert (IH' : (length (filter (fun v => P v = true) (unique vs)) <= 1)%nat).
  { apply IH. intros v Hv. apply Hall. by right. }
  destruct (P y) eqn:HPy.
  - rewrite filter_cons_True by done. simpl.
    replace (filter (fun v => P v = true)
               (filter (fun w => value_eqb y w = false) (unique vs)))
      with (@nil value); [simpl; lia|].
    symmetry. apply filter_none. intros w Hw HPw.
    apply list_elem_of_filter in Hw as [Hyw Hw].
    apply unique_subset in Hw.
    assert (Hoy : value_eqb o y = true) by (apply Hall; [left|done]).
    assert (How : value_eqb o w = true) by (apply Hall; [by right|done]).
    rewrite value_eqb_sym in Hoy.
    rewrite (value_eqb_trans _ _ _ Hoy How) in Hyw. discriminate.
  - rewrite filter_cons_False by (rewrite HPy; discriminate).
    rewrite list_filter_filter.
    rewrite (list_filter_iff _ (fun a => value_eqb y a = false /\ P a = true))
      by tauto.
    rewrite <- list_filter_filter.
    etransitivity; [apply length_filter|exact IH'].
Qed.

(** ** The float-to-category step *)

Lemma in_zero_one_iff (v : value) :
  FloatToCategoryTransformer.in_zero_one v = true
  <-> exists q, v = VNum q /\ (q == 0 \/ q == 1).
Proof.
  unfold FloatToCategoryTransformer.in_zero_one.
  destruct v as [q| | |]; simpl; try (split; [done|by intros (? & [=] & _)]).
  rewrite orb_true_iff, !Qeq_bool_iff. split.
  - intros H. by exists q.
  - by intros (? & [= <-] & H).
Qed.

Lemma in_zero_one_eqb (u v : value) :
  value_eqb u v = true ->
  FloatToCategoryTransformer.in_zero_one u = true ->
  FloatToCategoryTransformer.in_zero_one v = true.
Proof.
  unfold FloatToCategoryTransformer.in_zero_one.
  rewrite !orb_true_iff. intros Huv [H|H]; [left|right];
    (rewrite value_eqb_sym in Huv; by eapply value_eqb_trans).
Qed.

Lemma value_eqb_refl_present (v : value) : isnull v = false -> value_eqb v v = true.
Proof.
  destruct v; simpl; try done; intros _.
  - by apply Qeq_bool_iff.
  - apply String.eqb_refl.
  - by destruct b.
Qed.

Lemma distinct_within_zero_one (s : Series) :
  forallb FloatToCategoryTransformer.in_zero_one (unique (dropna (values s))) = true
  <-> values_within_zero_one s.
Proof.
  unfold values_within_zero_one. rewrite forallb_forall, Forall_forall. split.
  - intros Hall v Hv. destruct (isnull v) eqn:Hnull; [by left|right].
    apply in_zero_one_iff.
    destruct (unique_repr (dropna (values s)) v) as (u & Hu & Huv).
    { by apply list_elem_of_filter. }
    { by apply value_eqb_refl_present. }
    apply (in_zero_one_eqb u v Huv). apply Hall. by apply list_elem_of_In.
  - intros Hall u Hu. apply list_elem_of_In, unique_subset in Hu.
    apply list_elem_of_filter in Hu as [Hnull Hu].
    destruct (Hall u Hu) as [H|H]; [congruence|by apply in_zero_one_iff].
Qed.

Lemma distinct_present (s : Series) :
  (0 <? length (unique (dropna (values s))))%nat = true <-> has_present_value s.
Proof.
  unfold has_present_value. rewrite Nat.ltb_lt, Exists_exists. split.
  - intros Hlen. destruct (unique (dropna (values s))) as [|u us] eqn:Hu.
    { simpl in Hlen. lia. }
    assert (Hin : u ∈ dropna (values s)).
    { apply unique_subset. rewrite Hu. left. }
    apply list_elem_of_filter in Hin as [Hnull Hin]. by exists u.
  - intros (v & Hv & Hnull).
    destruct (unique (dropna (values s))) as [|u us] eqn:Hu; [|simpl; lia].
    apply (proj1 (unique_nil _)) in Hu.
    assert (Hin : v ∈ dropna (values s)) by by apply list_elem_of_filter.
    rewrite Hu in Hin. by apply elem_of_nil in Hin.
Qed.

Lemma distinct_at_most_two (s : Series) :
  forallb FloatToCategoryTransformer.in_zero_one (unique (dropna (values s))) = true ->
  (length (unique (dropna (values s))) <=? 2)%nat = true.
Proof.
  intros Hall. apply Nat.leb_le.
  assert (Hl : forall v, v ∈ dropna (values s) ->
                 FloatToCategoryTransformer.in_zero_one v = true).
  { intros v Hv. apply list_elem_of_filter in Hv as [Hnull Hv].
    apply distinct_within_zero_one in Hall.
    unfold values_within_zero_one in Hall. rewrite Forall_forall in Hall.
    destruct (Hall v Hv) as [H|H]; [congruence|by apply in_zero_one_iff]. }
  set (P0 := fun v => value_eqb (VNum 0) v).
  rewrite <- (filter_app_complement (fun v => P0 v = true)
                (unique (dropna (values s)))).
  rewrite length_app.
  pose proof (unique_filter_one P0 (VNum 0) (dropna (values s))) as H0.
  pose proof (unique_filter_one (fun v => negb (P0 v)) (VNum 1)
                (dropna (values s))) as H1.
  rewrite (list_filter_iff (fun x => ~ P0 x = true)
             (fun v => negb (P0 v) = true)); cycle 1.
  { intros x. rewrite negb_true_iff. by destruct (P0 x). }
  assert ((length (filter (fun v => P0 v = true) (unique (dropna (values s)))) <= 1)%nat).
  { apply H0. by intros v _ Hv. }
  assert ((length (filter (fun v => negb (P0 v) = true)
                     (unique (dropna (values s)))) <= 1)%nat).
  { apply H1. intros v Hv Hneg. apply negb_true_iff in Hneg.
    specialize (Hl v Hv). unfold FloatToCategoryTransformer.in_zero_one in Hl.
    apply orb_true_iff in Hl as [Hz|Ho].
    - unfold P0 in Hneg. rewrite value_eqb_sym in Hneg. congruence.
    - by rewrite value_eqb_sym. }
  lia.
Qed.

Lemma getitem_ok (w : world) (X : loc) (df : DataFrame) (col : string) (s : Series) :
  heap w !! X = Some df ->
  lookup_col (columns df) col = Some s ->
  getitem X col w = (Ok s, w).
Proof.
  intros HX Hs. unfold getitem, bind. rewrite (deref_ok _ _ _ HX). by rewrite Hs.
Qed.

Lemma float_fit_loop (w : world) (X : loc) (df : DataFrame)
    (cols acc : list string) :
  heap w !! X = Some df ->
  (forall c, c ∈ cols -> c ∈ names df) ->
  for_fold cols
    (fun self col =>
       let! s := getitem X col in
       let unique_values := unique (dropna (values s)) in
       if forallb FloatToCategoryTransformer.in_zero_one unique_values
          && (0 <? length unique_values)%nat
       then
         if (length unique_values <=? 2)%nat
         then ret (FloatToCategoryTransformer.mk
                     (FloatToCategoryTransformer.float_cols_to_convert_ self ++ [col]))
         else ret self
       else ret self)
    (FloatToCategoryTransformer.mk acc) w
  = (Ok (FloatToCategoryTransformer.mk
           (acc ++ filter (fun c => float_indicator df c = true) cols)), w).
Proof.
  intros HX. revert acc. induction cols as [|c cols IH]; intros acc Hcols; simpl.
  - by rewrite app_nil_r.
  - destruct (lookup_col_is_Some (columns df) c) as [s Hs].
    { apply Hcols. left. }
    unfold bind at 1. unfold bind at 1. rewrite (getitem_ok _ _ _ _ _ HX Hs).
    simpl.
    destruct (forallb _ _ && _) eqn:Htest.
    + pose proof Htest as Htest'. apply andb_true_iff in Htest' as [Hall _].
      rewrite (distinct_at_most_two s Hall). unfold ret at 1. simpl.
      rewrite IH by (intros; apply Hcols; by right).
      rewrite filter_cons_True by (unfold float_indicator; by rewrite Hs, Htest).
      by rewrite <- app_assoc.
    + unfold ret at 1. rewrite IH by (intros; apply Hcols; by right).
      rewrite filter_cons_False; [done|].
      unfold float_indicator. by rewrite Hs, Htest.
Qed.

(** ** Conversion of the learned columns *)

Lemma assign_col_names (cs : list (string * Series)) (c : string) (s s' : Series) :
  lookup_col cs c = Some s -> map fst (assign_col cs c s') = map fst cs.
Proof.
  induction cs as [|[c0 s0] cs IH]; simpl; [done|].
  destruct (String.eqb c0 c) eqn:Heq; simpl; [done|].
  intros H. by rewrite IH.
Qed.

Lemma assign_col_map (cs : list (string * Series)) (c : string) (s : Series)
    (f : Series -> Series) :
  NoDup (map fst cs) ->
  lookup_col cs c = Some s ->
  assign_col cs c (f s)
  = map (fun p => if String.eqb (fst p) c then (fst p, f (snd p)) else p) cs.
Proof.
  induction cs as [|[c0 s0] cs IH]; simpl; [done|].
  intros Hnd. apply NoDup_cons in Hnd as [Hnot Hnd].
  destruct (String.eqb_spec c0 c) as [->|Hne].
  - intros [= ->]. f_equal. symmetry.
    rewrite <- (map_id cs) at 2. apply map_ext_in. intros [c1 s1] Hin. simpl.
    destruct (String.eqb_spec c1 c) as [->|]; [|done].
    exfalso. apply Hnot. apply list_elem_of_fmap. exists (c, s1).
    split; [done|]. by apply list_elem_of_In.
  - intros H. by rewrite IH.
Qed.

Lemma setitem_ok (w : world) (X : loc) (df : DataFrame) (col : string) (s : Series) :
  heap w !! X = Some df ->
  setitem X col s w
  = (Ok tt,
     mkWorld (<[X := mkDF (index_len df) (assign_col (columns df) col s)]> (heap w))
             (stdout w)).
Proof. intros HX. unfold setitem. by rewrite HX. Qed.

Lemma with_categories_step (c : string) (cols : list string) (n : nat)
    (cs : list (string * Series)) :
  with_categories cols
    (mkDF n (map (fun p => if String.eqb (fst p) c
                           then (fst p, astype_category (snd p)) else p) cs))
  = with_categories (c :: cols) (mkDF n cs).
Proof.
  unfold with_categories. simpl. f_equal. rewrite map_map.
  apply map_ext. intros [c0 s0]. simpl.
  destruct (String.eqb_spec c0 c) as [->|Hne]; simpl.
  - rewrite (bool_decide_eq_true_2 (c ∈ c :: cols)) by left.
    by destruct (bool_decide (c ∈ cols)).
  - destruct (decide (c0 ∈ cols)) as [Hin|Hin].
    + rewrite !bool_decide_eq_true_2; [done|by right|done].
    + rewrite !bool_decide_eq_false_2; [done| |done].
      rewrite elem_of_cons. naive_solver.
Qed.

(** The conversion loop turns the table behind [X] into the table with the
    listed columns made categorical, and prints one message a column. *)
Lemma convert_columns_run (cols : list string) (msg : string) :
  forall (w : world) (X : loc) (df : DataFrame),
  heap w !! X = Some df ->
  NoDup (names df) ->
  (forall c, c ∈ cols -> c ∈ names df) ->
  convert_columns X cols msg w
  = (Ok tt, mkWorld (<[X := with_categories cols df]> (heap w))
                    (stdout w ++ map (fun _ => msg) cols)).
Proof.
  unfold convert_columns.
  induction cols as [|c cols IH]; intros w X [n cs] HX Hnd Hcols; simpl.
  - unfold ret, with_categories. simpl.
    rewrite app_nil_r. rewrite map_ext with (g := id) by (by intros []).
    rewrite map_id. rewrite list_insert_id by done. by destruct w.
  - destruct (lookup_col_is_Some cs c) as [s Hs].
    { apply (Hcols c). left. }
    unfold bind at 1. unfold bind at 1.
    rewrite (getitem_ok _ _ _ _ _ HX Hs).
    unfold bind at 1. rewrite (setitem_ok _ _ _ _ _ HX). simpl.
    rewrite (assign_col_map cs c s astype_category Hnd Hs).
    set (cs1 := map _ cs).
    assert (Hnames : map fst cs1 = map fst cs).
    { unfold cs1. rewrite map_map. apply map_ext. intros [c0 s0]. simpl.
      by destruct (String.eqb c0 c). }
    rewrite (IH _ X (mkDF n cs1)).
    + simpl. rewrite list_insert_insert_eq. unfold cs1.
      rewrite with_categories_step. by rewrite <- app_assoc.
    + simpl. apply list_lookup_insert_eq. by eapply lookup_lt_Some.
    + unfold names. simpl. by rewrite Hnames.
    + intros c' Hc'. unfold names. simpl. rewrite Hnames. apply Hcols. by right.
Qed.

Lemma elem_of_select_dtypes (p : dtype -> bool) (df : DataFrame) (c : string) :
  c ∈ select_dtypes p df
  <-> exists s, (c, s) ∈ columns df /\ p (dtype_of s) = true.
Proof.
  unfold select_dtypes. rewrite list_elem_of_fmap. split.
  - intros [[c0 s] [-> Hin]]. apply list_elem_of_filter in Hin as [Hp Hin].
    by exists s.
  - intros (s & Hin & Hp). exists (c, s). split; [done|].
    by apply list_elem_of_filter.
Qed.

Lemma select_dtypes_names (p : dtype -> bool) (df : DataFrame) (c : string) :
  c ∈ select_dtypes p df -> c ∈ names df.
Proof.
  intros (s & Hin & _)%elem_of_select_dtypes.
  apply list_elem_of_fmap. by exists (c, s).
Qed.

(** What [FloatToCategoryTransformer.fit] learns. *)
Lemma float_fit_learns
    (self : FloatToCategoryTransformer.t) (w : world) (X : loc) (df : DataFrame) :
  heap w !! X = Some df ->
  wf_table df ->
  exists learned,
    FloatToCategoryTransformer.fit self X w
    = (Ok (FloatToCategoryTransformer.mk learned), w)
    /\ (forall c, c ∈ learned -> c ∈ names df)
    /\ (forall c, c ∈ learned <->
          exists s, (c, s) ∈ columns df
                    /\ dtype_of s = float64
                    /\ values_within_zero_one s
                    /\ has_present_value s).
Proof.
  intros HX [Hnd Hlen].
  set (float_columns := select_dtypes (fun d => bool_decide (d = float64)) df).
  set (learned := filter (fun c => float_indicator df c = true) float_columns).
  exists learned. split; [|split].
  - unfold FloatToCategoryTransformer.fit. unfold bind at 1.
    rewrite (deref_ok _ _ _ HX). cbv zeta.
    apply (float_fit_loop w X df float_columns [] HX).
    intros c. apply select_dtypes_names.
  - intros c Hc. apply list_elem_of_filter in Hc as [_ Hc].
    by apply select_dtypes_names in Hc.
  - intros c. unfold learned. rewrite list_elem_of_filter.
    unfold float_columns. rewrite elem_of_select_dtypes. split.
    + intros [Hind (s & Hin & Hdt)]. exists s. split; [done|].
      apply bool_decide_eq_true in Hdt. split; [done|].
      unfold float_indicator in Hind.
      rewrite (lookup_col_Some _ _ _ Hnd Hin) in Hind.
      apply andb_true_iff in Hind as [Hall Hpos].
      split; [by apply distinct_within_zero_one|by apply distinct_present].
    + intros (s & Hin & Hdt & Hall & Hpos). split.
      * unfold float_indicator. rewrite (lookup_col_Some _ _ _ Hnd Hin).
        apply andb_true_iff.
        split; [by apply distinct_within_zero_one|by apply distinct_present].
      * exists s. split; [done|]. by apply bool_decide_eq_true.
Qed.




(** ** Sums, extrema and variance of a list of rationals *)



















(** ** Rescaled variance of a constant and of a two-valued column *)





(** ** The low-variance dropper's [fit] *)

Lemma lookup_project (df : DataFrame) (cols : list string) (c : string) :
  lookup_col (IdentifyAndDropLowVarNum.project df cols) c
  = if bool_decide (c ∈ cols) then lookup_col (columns df) c else None.
Proof.
  unfold IdentifyAndDropLowVarNum.project.
  induction cols as [|c0 cols IH]; csimpl; [done|].
  destruct (decide (c0 = c)) as [->|Hne].
  - rewrite (bool_decide_eq_true_2 (c ∈ c :: cols)) by left.
    destruct (lookup_col (columns df) c) eqn:Hc; csimpl.
    + by rewrite String.eqb_refl.
    + rewrite IH. by destruct (bool_decide _).
  - assert (Hiff : bool_decide (c ∈ c0 :: cols) = bool_decide (c ∈ cols)).
    { apply bool_decide_ext. rewrite elem_of_cons. naive_solver. }
    rewrite Hiff.
    destruct (lookup_col (columns df) c0) eqn:Hc0; csimpl; [|done].
    destruct (String.eqb_spec c0 c); [done|]. apply IH.
Qed.

Lemma elem_of_project (df : DataFrame) (cols : list string) (c : string) (s : Series) :
  (c, s) ∈ IdentifyAndDropLowVarNum.project df cols
  <-> c ∈ cols /\ lookup_col (columns df) c = Some s.
Proof.
  unfold IdentifyAndDropLowVarNum.project. rewrite list_elem_of_omap. split.
  - intros (c0 & Hc0 & H). destruct (lookup_col (columns df) c0) eqn:Hl; [|done].
    by injection H as -> ->.
  - intros [Hc Hl]. exists c. split; [done|]. by rewrite Hl.
Qed.

Lemma elem_of_zero_variance (cs : list (string * Series)) (c : string) :
  c ∈ IdentifyAndDropLowVarNum.zero_variance (IdentifyAndDropLowVarNum.variances cs)
  <-> exists s, (c, s) ∈ cs
        /\ IdentifyAndDropLowVarNum.var_is_zero (var_ddof0 (numbers (values s))) = true.
Proof.
  unfold IdentifyAndDropLowVarNum.zero_variance, IdentifyAndDropLowVarNum.variances.
  rewrite list_elem_of_fmap. split.
  - intros [[c0 v] [-> Hin]]. apply list_elem_of_filter in Hin as [Hz Hin].
    apply list_elem_of_fmap in Hin as [[c1 s] [[= -> ->] Hin]]. by exists s.
  - intros (s & Hin & Hz). eexists (c, _). split; [done|].
    apply list_elem_of_filter. split; [exact Hz|].
    apply list_elem_of_fmap. by exists (c, s).
Qed.

Lemma elem_of_quasi_constant (thr : Q) (cs : list (string * Series)) (c : string) :
  c ∈ IdentifyAndDropLowVarNum.quasi_constant thr (IdentifyAndDropLowVarNum.variances cs)
  <-> exists s, (c, s) ∈ cs
        /\ IdentifyAndDropLowVarNum.var_is_quasi thr
             (var_ddof0 (numbers (values s))) = true.
Proof.
  unfold IdentifyAndDropLowVarNum.quasi_constant, IdentifyAndDropLowVarNum.variances.
  rewrite list_elem_of_fmap. split.
  - intros [[c0 v] [-> Hin]]. apply list_elem_of_filter in Hin as [Hz Hin].
    apply list_elem_of_fmap in Hin as [[c1 s] [[= -> ->] Hin]]. by exists s.
  - intros (s & Hin & Hz). eexists (c, _). split; [done|].
    apply list_elem_of_filter. split; [exact Hz|].
    apply list_elem_of_fmap. by exists (c, s).
Qed.

Lemma elem_of_scaled_frame (cs : list (string * Series)) (c : string) (s' : Series) :
  (c, s') ∈ IdentifyAndDropLowVarNum.scaled_frame cs
  <-> exists s, (c, s) ∈ cs /\ s' = mkSeries float64 (minmax_transform (values s)).
Proof.
  unfold IdentifyAndDropLowVarNum.scaled_frame. rewrite list_elem_of_fmap. split.
  - intros [[c0 s] [[= -> ->] Hin]]. by exists s.
  - intros (s & Hin & ->). by exists (c, s).
Qed.

Lemma elem_of_dedup_fold (extra base : list string) (c : string) :
  c ∈ fold_left (fun acc col => if bool_decide (col ∈ acc) then acc else acc ++ [col])
        extra base
  <-> c ∈ base \/ c ∈ extra.
Proof.
  revert base. induction extra as [|x extra IH]; intros base; simpl.
  - split; [by left|]. intros [H|H]; [done|by apply elem_of_nil in H].
  - rewrite IH, elem_of_cons. destruct (decide (x ∈ base)) as [Hx|Hx].
    + rewrite bool_decide_eq_true_2 by done. naive_solver.
    + rewrite bool_decide_eq_false_2 by done.
      rewrite elem_of_app, list_elem_of_singleton. naive_solver.
Qed.

Lemma lowvar_valid_loop (df proj : DataFrame) (Xn : loc) (cols : list string) :
  (forall c, c ∈ cols ->
     lookup_col (columns proj) c = lookup_col (columns df) c
     /\ is_Some (lookup_col (columns df) c)) ->
  forall (acc : list string) (w1 : world),
  heap w1 !! Xn = Some proj ->
  exists w1',
    for_fold cols
      (fun valid col =>
         let! s := getitem Xn col in
         if (0 <? nunique s)%nat then ret (valid ++ [col])
         else
           do! print "IdentifyAndDropLowVarNum: Numeric column has no unique non-NaN values. Checking its original variance." in
           ret valid)
      acc w1
    = (Ok (acc ++ filter (fun c => has_distinct_value df c = true) cols), w1')
    /\ heap w1' = heap w1
    /\ (length (stdout w1) <= length (stdout w1'))%nat.
Proof.
  induction cols as [|c cols IH]; intros Hcols acc w1 HXn; simpl.
  - exists w1. by rewrite app_nil_r.
  - destruct (Hcols c) as [Hsame [s Hs]]; [left|].
    unfold bind at 1. unfold bind at 1.
    rewrite (getitem_ok _ _ proj c s HXn) by congruence.
    assert (Hrest : forall c', c' ∈ cols ->
              lookup_col (columns proj) c' = lookup_col (columns df) c'
              /\ is_Some (lookup_col (columns df) c')).
    { intros c' Hc'. apply Hcols. by right. }
    destruct (0 <? nunique s)%nat eqn:Hpos.
    + unfold ret at 1.
      destruct (IH Hrest (acc ++ [c]) w1 HXn) as (w1' & Hrun & Hheap & Hout).
      exists w1'. split; [|done]. rewrite Hrun.
      rewrite filter_cons_True by (unfold has_distinct_value; by rewrite Hs).
      by rewrite <- app_assoc.
    + unfold bind at 1. unfold print at 1. unfold ret at 1.
      destruct (IH Hrest acc
                  (mkWorld (heap w1)
                     (stdout w1 ++ ["IdentifyAndDropLowVarNum: Numeric column has no unique non-NaN values. Checking its original variance."])))
        as (w1' & Hrun & Hheap & Hout); [done|].
      simpl in Hheap, Hout. rewrite length_app in Hout. simpl in Hout.
      exists w1'. split; [|split; [done|lia]]. rewrite Hrun.
      rewrite filter_cons_False; [done|].
      unfold has_distinct_value. by rewrite Hs, Hpos.
Qed.

(** [fit] never raises on an allocated table; it learns
    [learned_drop_list] and prints at least one message. *)
Lemma lowvar_fit_run (self : IdentifyAndDropLowVarNum.t) (w : world) (X : loc)
    (df : DataFrame) :
  heap w !! X = Some df ->
  exists w',
    IdentifyAndDropLowVarNum.fit self X w
    = (Ok (IdentifyAndDropLowVarNum.mk
             (IdentifyAndDropLowVarNum.quasi_constant_threshold self)
             (select_dtypes is_number df)
             (Some (learned_drop_list
                      (IdentifyAndDropLowVarNum.quasi_constant_threshold self) df))
             (names df)), w')
    /\ (length (stdout w) < length (stdout w'))%nat
    /\ forall l t, heap w !! l = Some t -> heap w' !! l = Some t.
Proof.
  intros HX. unfold IdentifyAndDropLowVarNum.fit, learned_drop_list.
  unfold bind at 1. rewrite (deref_ok _ _ _ HX). cbv zeta.
  cbn [IdentifyAndDropLowVarNum.numeric_cols_considered_
       IdentifyAndDropLowVarNum.quasi_constant_threshold
       IdentifyAndDropLowVarNum._input_features_during_fit].
  set (thr := IdentifyAndDropLowVarNum.quasi_constant_threshold self).
  set (numeric := select_dtypes is_number df).
  destruct (nonempty numeric) eqn:Hnum; cbn [negb].
  2:{ eexists. split; [reflexivity|]. simpl.
      split; [rewrite length_app; simpl; lia|done]. }
  unfold bind at 1. unfold alloc at 1.
  set (proj := mkDF (index_len df) (IdentifyAndDropLowVarNum.project df numeric)).
  set (w1 := mkWorld (heap w ++ [proj]) (stdout w)).
  destruct (lowvar_valid_loop df proj (length (heap w)) numeric) with (acc := @nil string) (w1 := w1)
    as (w2 & Hloop & Hheap2 & Hout2).
  { intros c Hc. split.
    - unfold proj. simpl. rewrite lookup_project. by rewrite bool_decide_eq_true_2.
    - apply lookup_col_is_Some. by apply select_dtypes_names in Hc. }
  { apply lookup_new. }
  unfold bind at 1. rewrite Hloop. rewrite app_nil_l.
  set (valid := filter (fun c => has_distinct_value df c = true) numeric).
  assert (Hold : forall l t, heap w !! l = Some t -> heap w2 !! l = Some t).
  { intros l t Hl. rewrite Hheap2. simpl. by apply lookup_app_l_Some. }
  simpl in Hout2.
  destruct (nonempty valid) eqn:Hvalid; cbn [negb].
  - unfold bind at 1. rewrite (deref_ok w2 (length (heap w)) proj)
      by (rewrite Hheap2; apply lookup_new).
    set (zv := IdentifyAndDropLowVarNum.zero_variance _).
    set (qv := IdentifyAndDropLowVarNum.quasi_constant _ _).
    set (unscaled := filter _ numeric).
    set (zvu := IdentifyAndDropLowVarNum.zero_variance _).
    assert (Hnil : unscaled = [] -> zvu = []).
    { intros Hu. unfold zvu. by rewrite Hu. }
    clearbody zv qv zvu unscaled.
    destruct zv, qv, unscaled, zvu; simpl nonempty; cbv iota;
      try (specialize (Hnil eq_refl); discriminate);
      unfold bind, print, ret; simpl;
      rewrite ?app_nil_r;
      match goal with
      | |- context [nonempty ?l] => destruct (nonempty l)
      end; simpl;
      (eexists; split; [reflexivity|]; simpl;
       split; [rewrite ?length_app; simpl; lia|exact Hold]).
  - unfold bind at 1. unfold print at 1. simpl.
    set (zv := IdentifyAndDropLowVarNum.zero_variance _).
    destruct (nonempty zv); unfold bind, print, ret; simpl;
      (eexists; split; [reflexivity|]; simpl;
       split; [rewrite ?length_app; simpl; lia|exact Hold]).
Qed.

Lemma learned_drop_list_char (thr : Q) (df : DataFrame) (c : string) :
  NoDup (names df) ->
  c ∈ learned_drop_list thr df
  <-> exists s, (c, s) ∈ columns df
                /\ is_number (dtype_of s) = true
                /\ flagged thr s = true.
Proof.
  intros Hnd. unfold learned_drop_list.
  set (numeric := select_dtypes is_number df).
  set (valid := filter (fun c => has_distinct_value df c = true) numeric).
  assert (Hnum : forall s, (c, s) ∈ columns df /\ is_number (dtype_of s) = true
                 <-> c ∈ numeric /\ lookup_col (columns df) c = Some s).
  { intros s. unfold numeric. rewrite elem_of_select_dtypes. split.
    - intros [Hin Hdt]. split; [by exists s|by apply lookup_col_Some].
    - intros [(s' & Hin & Hdt) Hl].
      rewrite (lookup_col_Some _ _ _ Hnd Hin) in Hl. injection Hl as <-. done. }
  assert (Hvalid : forall s, lookup_col (columns df) c = Some s ->
                   (c ∈ valid <-> c ∈ numeric /\ (0 <? nunique s)%nat = true)).
  { intros s Hl. unfold valid. rewrite list_elem_of_filter.
    unfold has_distinct_value. rewrite Hl. tauto. }
  destruct (nonempty numeric) eqn:Hne; cbn [negb].
  2:{ apply nonempty_false in Hne. split.
      - intros H. by apply elem_of_nil in H.
      - intros (s & Hin & Hdt & _).
        destruct (proj1 (Hnum s) (conj Hin Hdt)) as [Hc _].
        rewrite Hne in Hc. by apply elem_of_nil in Hc. }
  destruct (nonempty valid) eqn:Hv; cbn [negb].
  2:{ apply nonempty_false in Hv. rewrite elem_of_zero_variance. split.
      - intros (s & Hin & Hz). apply elem_of_project in Hin as [Hc Hl].
        exists s. destruct (proj2 (Hnum s) (conj Hc Hl)) as [Hin Hdt].
        split; [done|]. split; [done|]. unfold flagged.
        destruct (0 <? nunique s)%nat eqn:Hpos; [|done].
        assert (Hcv : c ∈ valid) by (by apply (Hvalid s)).
        rewrite Hv in Hcv. by apply elem_of_nil in Hcv.
      - intros (s & Hin & Hdt & Hfl).
        destruct (proj1 (Hnum s) (conj Hin Hdt)) as [Hc Hl].
        exists s. split; [by apply elem_of_project|].
        unfold flagged in Hfl.
        destruct (0 <? nunique s)%nat eqn:Hpos; [|done].
        assert (Hcv : c ∈ valid) by (by apply (Hvalid s)).
        rewrite Hv in Hcv. by apply elem_of_nil in Hcv. }
  rewrite elem_of_elements, elem_of_list_to_set, elem_of_dedup_fold, elem_of_app.
  rewrite elem_of_zero_variance, elem_of_quasi_constant, elem_of_zero_variance.
  assert (Hscaled : forall s',
    (c, s') ∈ IdentifyAndDropLowVarNum.scaled_frame
               (IdentifyAndDropLowVarNum.project
                  (mkDF (index_len df) (IdentifyAndDropLowVarNum.project df numeric))
                  valid)
    <-> exists s, c ∈ valid /\ lookup_col (columns df) c = Some s
                  /\ s' = mkSeries float64 (minmax_transform (values s))).
  { intros s'. rewrite elem_of_scaled_frame. split.
    - intros (s & Hin & ->). apply elem_of_project in Hin as [Hcv Hl].
      simpl in Hl. rewrite lookup_project in Hl.
      destruct (bool_decide (c ∈ numeric)); [|done]. by exists s.
    - intros (s & Hcv & Hl & ->). exists s. split; [|done].
      apply elem_of_project. split; [done|]. simpl. rewrite lookup_project.
      rewrite bool_decide_eq_true_2; [done|].
      by apply list_elem_of_filter in Hcv as [_ Hcv]. }
  split.
  - intros [[(s' & Hin & Hz)|(s' & Hin & Hq)]|(s & Hin & Hz)].
    + apply Hscaled in Hin as (s & Hcv & Hl & ->).
      destruct (proj1 (Hvalid s Hl) Hcv) as [Hc Hpos].
      destruct (proj2 (Hnum s) (conj Hc Hl)) as [Hin Hdt].
      exists s. split; [done|]. split; [done|].
      unfold flagged, flagged_constant, scaled_variance. rewrite Hpos.
      simpl in Hz. by rewrite Hz.
    + apply Hscaled in Hin as (s & Hcv & Hl & ->).
      destruct (proj1 (Hvalid s Hl) Hcv) as [Hc Hpos].
      destruct (proj2 (Hnum s) (conj Hc Hl)) as [Hin Hdt].
      exists s. split; [done|]. split; [done|].
      unfold flagged, flagged_quasi_constant, scaled_variance. rewrite Hpos.
      simpl in Hq. rewrite Hq. apply orb_true_r.
    + apply elem_of_project in Hin as [Hcu Hl].
      apply list_elem_of_filter in Hcu as [Hnv Hc].
      apply bool_decide_eq_false in Hnv.
      destruct (proj2 (Hnum s) (conj Hc Hl)) as [Hin Hdt].
      exists s. split; [done|]. split; [done|]. unfold flagged.
      destruct (0 <? nunique s)%nat eqn:Hpos; [|done].
      exfalso. apply Hnv. by apply (Hvalid s).
  - intros (s & Hin & Hdt & Hfl).
    destruct (proj1 (Hnum s) (conj Hin Hdt)) as [Hc Hl].
    unfold flagged in Hfl. destruct (0 <? nunique s)%nat eqn:Hpos.
    + assert (Hcv : c ∈ valid) by (by apply (Hvalid s)).
      left. apply orb_true_iff in Hfl as [Hz|Hq]; [left|right].
      * exists (mkSeries float64 (minmax_transform (values s))).
        split; [apply Hscaled; by exists s|exact Hz].
      * exists (mkSeries float64 (minmax_transform (values s))).
        split; [apply Hscaled; by exists s|exact Hq].
    + right. exists s. split; [|done]. apply elem_of_project. split; [|done].
      apply list_elem_of_filter. split; [|done].
      apply bool_decide_eq_false. intros Hcv.
      destruct (proj1 (Hvalid s Hl) Hcv) as [_ Hpos']. congruence.
Qed.



Lemma sample_variance_wf : wf_table sample_variance.
Proof.
  split.
  - apply (bool_decide_unpack _). vm_compute. exact I.
  - repeat constructor.
Defined.


(** ** [fit] on an empty table *)

Lemma empty_table_values (df : DataFrame) (c : string) (s : Series) :
  wf_table df -> DataFrame_empty df = true -> (c, s) ∈ columns df ->
  values s = [].
Proof.
  intros [_ Hlen] Hempty Hin. unfold DataFrame_empty in Hempty.
  apply orb_true_iff in Hempty as [Hrows|Hcols].
  - apply Nat.eqb_eq in Hrows. rewrite Forall_forall in Hlen.
    specialize (Hlen _ Hin). simpl in Hlen. rewrite Hrows in Hlen.
    by destruct (values s).
  - apply Nat.eqb_eq in Hcols. destruct (columns df); [|discriminate].
    by apply elem_of_nil in Hin.
Qed.

Lemma nil_of_no_elem {A} (l : list A) : (forall x, x ∉ l) -> l = [].
Proof. destruct l as [|x l]; [done|]. intros H. destruct (H x). left. Qed.

Lemma learned_drop_list_empty (thr : Q) (df : DataFrame) :
  wf_table df -> DataFrame_empty df = true -> learned_drop_list thr df = [].
Proof.
  intros Hwf Hempty. apply nil_of_no_elem. intros c Hc.
  apply learned_drop_list_char in Hc as (s & Hin & _ & Hfl); [|by destruct Hwf].
  unfold flagged, nunique in Hfl.
  rewrite (empty_table_values df c s Hwf Hempty Hin) in Hfl. done.
Qed.

(** The imputer loops on columns without a missing cell store the no-op
    marker for each of them and print nothing. *)
Lemma imputer_num_loop_clean (X_fit : loc) (df : DataFrame) (cols : list string) :
  (forall c, c ∈ cols ->
     exists s, lookup_col (columns df) c = Some s /\ isnull_any s = false) ->
  forall (self : MissingValueImputer.t) (w : world),
  heap w !! X_fit = Some df ->
  for_fold cols
    (fun self col =>
       let! s := getitem X_fit col in
       if isnull_any s then
         if String.eqb (MissingValueImputer.num_strategy self) "mean" then
           ret (MissingValueImputer.set_num self col
                  (Some (MissingValueImputer.of_float (mean (numbers (values s))))))
         else if String.eqb (MissingValueImputer.num_strategy self) "median" then
           ret (MissingValueImputer.set_num self col
                  (Some (MissingValueImputer.of_float (median (numbers (values s))))))
         else if String.eqb (MissingValueImputer.num_strategy self) "mode" then
           let mode_val := mode (values s) in
           ret (MissingValueImputer.set_num self col
                  (Some (match mode_val with v :: _ => v | [] => VNum 0 end)))
         else ret self
       else ret (MissingValueImputer.set_num self col None))
    self w
  = (Ok (fold_left (fun self col => MissingValueImputer.set_num self col None)
                   cols self), w).
Proof.
  induction cols as [|c cols IH]; intros Hcols self w HX; simpl; [done|].
  destruct (Hcols c) as (s & Hs & Hnull); [left|].
  unfold bind at 1. unfold bind at 1. rewrite (getitem_ok _ _ _ _ _ HX Hs).
  rewrite Hnull. unfold ret at 1. apply IH; [|done].
  intros c' Hc'. apply Hcols. by right.
Qed.

Lemma imputer_cat_loop_clean (X_fit : loc) (df : DataFrame) (cols : list string) :
  (forall c, c ∈ cols ->
     exists s, lookup_col (columns df) c = Some s /\ isnull_any s = false) ->
  forall (self : MissingValueImputer.t) (w : world),
  heap w !! X_fit = Some df ->
  for_fold cols
    (fun self col =>
       let! s := getitem X_fit col in
       if isnull_any s then
         if value_eqb (MissingValueImputer.cat_strategy self) (VStr "mode") then
           let mode_val := mode (values s) in
           ret (MissingValueImputer.set_cat self col
                  (Some (match mode_val with v :: _ => v | [] => VStr "Unknown" end)))
         else ret (MissingValueImputer.set_cat self col
                     (Some (MissingValueImputer.cat_strategy self)))
       else ret (MissingValueImputer.set_cat self col None))
    self w
  = (Ok (fold_left (fun self col => MissingValueImputer.set_cat self col None)
                   cols self), w).
Proof.
  induction cols as [|c cols IH]; intros Hcols self w HX; simpl; [done|].
  destruct (Hcols c) as (s & Hs & Hnull); [left|].
  unfold bind at 1. unfold bind at 1. rewrite (getitem_ok _ _ _ _ _ HX Hs).
  rewrite Hnull. unfold ret at 1. apply IH; [|done].
  intros c' Hc'. apply Hcols. by right.
Qed.

Lemma set_num_markers (cols : list string) (self : MissingValueImputer.t) :
  only_markers (MissingValueImputer.num_imputers_ self) ->
  only_markers (MissingValueImputer.cat_imputers_ self) ->
  only_markers (MissingValueImputer.num_imputers_
                  (fold_left (fun self col => MissingValueImputer.set_num self col None)
                             cols self))
  /\ only_markers (MissingValueImputer.cat_imputers_
                     (fold_left (fun self col => MissingValueImputer.set_num self col None)
                                cols self))
  /\ MissingValueImputer.categorical_cols_
       (fold_left (fun self col => MissingValueImputer.set_num self col None) cols self)
     = MissingValueImputer.categorical_cols_ self.
Proof.
  revert self. induction cols as [|c cols IH]; intros self Hn Hc; simpl; [done|].
  destruct (IH (MissingValueImputer.set_num self c None)) as (H1 & H2 & H3); [|done|done].
  intros col v. simpl. rewrite lookup_insert_Some. naive_solver.
Qed.

Lemma set_num_categorical (cols : list string) (self : MissingValueImputer.t) :
  MissingValueImputer.categorical_cols_
    (fold_left (fun self col => MissingValueImputer.set_num self col None) cols self)
  = MissingValueImputer.categorical_cols_ self.
Proof. revert self. induction cols as [|c cols IH]; intros self; simpl; [done|]. by rewrite IH. Qed.

Lemma set_cat_markers (cols : list string) (self : MissingValueImputer.t) :
  only_markers (MissingValueImputer.num_imputers_ self) ->
  only_markers (MissingValueImputer.cat_imputers_ self) ->
  only_markers (MissingValueImputer.num_imputers_
                  (fold_left (fun self col => MissingValueImputer.set_cat self col None)
                             cols self))
  /\ only_markers (MissingValueImputer.cat_imputers_
                     (fold_left (fun self col => MissingValueImputer.set_cat self col None)
                                cols self)).
Proof.
  revert self. induction cols as [|c cols IH]; intros self Hn Hc; simpl; [done|].
  apply IH; [done|].
  intros col v. simpl. rewrite lookup_insert_Some. naive_solver.
Qed.

(** C5, as the code has it: on an empty (well-formed) table, [fit] of the
    high-missingness dropper, of the low-variance dropper and of a fresh
    imputer returns normally after printing a diagnostic, with an empty
    drop-list, respectively with no fill value learned; [fit] of the
    specific-column, float-to-category and boolean-to-category converters
    returns normally with its list of columns (printing nothing in the last
    two), and so does the object-to-category converter when the table has
    no text column. *)
Theorem fit_on_empty_table
    (w : world) (X : loc) (df : DataFrame) :
  heap w !! X = Some df ->
  wf_table df ->
  DataFrame_empty df = true ->
  (forall self,
     tolerated (DropColumnsHighNA.fit self X w) w
     /\ exists w', DropColumnsHighNA.fit self X w
                   = (Ok (DropColumnsHighNA.mk (DropColumnsHighNA.threshold self)
                            (Some [])), w'))
  /\ (forall self,
        tolerated (IdentifyAndDropLowVarNum.fit self X w) w
        /\ exists self' w',
             IdentifyAndDropLowVarNum.fit self X w = (Ok self', w')
             /\ IdentifyAndDropLowVarNum.columns_to_drop_ self' = Some [])
  /\ (forall num cat self,
        MissingValueImputer.__init__ num cat = Ok self ->
        tolerated (MissingValueImputer.fit self X w) w
        /\ exists self' w',
             MissingValueImputer.fit self X w = (Ok self', w')
             /\ only_markers (MissingValueImputer.num_imputers_ self')
             /\ only_markers (MissingValueImputer.cat_imputers_ self'))
  /\ (forall self,
        exists w',
          SpecificColumnCategorizer.fit self X w
          = (Ok (SpecificColumnCategorizer.mk
                   (SpecificColumnCategorizer.columns_to_categorize self)
                   (filter (fun col => has_column df col = true)
                           (SpecificColumnCategorizer.columns_to_categorize self))),
             w'))
  /\ (forall self,
        FloatToCategoryTransformer.fit self X w
        = (Ok (FloatToCategoryTransformer.mk []), w))
  /\ (forall self,
        BooleanToCategoryTransformer.fit self X w
        = (Ok (BooleanToCategoryTransformer.mk
                 (select_dtypes (fun d => bool_decide (d = bool_)) df)), w))
  /\ (forall self,
        select_dtypes (fun d => bool_decide (d = object)) df = [] ->
        ObjectToCategoryTransformer.fit self X w
        = (Ok (ObjectToCategoryTransformer.mk
                 (ObjectToCategoryTransformer.threshold_ratio self)
                 (ObjectToCategoryTransformer.max_unique self) []), w)).
Proof.
  intros HX Hwf Hempty.
  assert (Hclean : forall p c, c ∈ select_dtypes p df ->
            exists s, lookup_col (columns df) c = Some s /\ isnull_any s = false).
  { intros p c Hc. apply elem_of_select_dtypes in Hc as (s & Hin & _).
    exists s. split; [apply lookup_col_Some; [by destruct Hwf|done]|].
    unfold isnull_any. by rewrite (empty_table_values df c s Hwf Hempty Hin). }
  repeat split.
  - unfold tolerated, DropColumnsHighNA.fit, bind.
    rewrite (deref_ok _ _ _ HX), Hempty. simpl. eexists _, _.
    split; [reflexivity|]. simpl. rewrite length_app. simpl. lia.
  - unfold DropColumnsHighNA.fit, bind.
    rewrite (deref_ok _ _ _ HX), Hempty. simpl. by eexists.
  - destruct (lowvar_fit_run self w X df HX) as (w' & Hrun & Hout & _).
    unfold tolerated. by eexists _, _.
  - destruct (lowvar_fit_run self w X df HX) as (w' & Hrun & _).
    eexists _, w'. split; [exact Hrun|]. simpl.
    by rewrite (learned_drop_list_empty _ df Hwf Hempty).
  - unfold MissingValueImputer.__init__ in H.
    destruct (negb _) in H; [discriminate|]. injection H as <-.
    unfold tolerated, MissingValueImputer.fit. unfold bind at 1.
    rewrite (copy_ok _ _ _ HX). unfold bind at 1. rewrite deref_new. cbv zeta.
    unfold bind at 1.
    rewrite (imputer_num_loop_clean (length (heap w)) df) by (eauto using lookup_new).
    unfold bind at 1.
    rewrite set_num_categorical.
    rewrite (imputer_cat_loop_clean (length (heap w)) df) by (eauto using lookup_new).
    eexists _, _. split; [reflexivity|]. simpl. rewrite length_app. simpl. lia.
  - unfold MissingValueImputer.__init__ in H.
    destruct (negb _) in H; [discriminate|]. injection H as <-.
    unfold MissingValueImputer.fit. unfold bind at 1.
    rewrite (copy_ok _ _ _ HX). unfold bind at 1. rewrite deref_new. cbv zeta.
    unfold bind at 1.
    rewrite (imputer_num_loop_clean (length (heap w)) df) by (eauto using lookup_new).
    unfold bind at 1.
    rewrite set_num_categorical.
    rewrite (imputer_cat_loop_clean (length (heap w)) df) by (eauto using lookup_new).
    eexists _, _. split; [reflexivity|].
    match goal with
    | |- context [fold_left _ ?cs (fold_left _ ?ns ?s0)] =>
        destruct (set_num_markers ns s0) as (Hn & Hc & _);
        [intros ? ?; simpl; by rewrite lookup_empty..|];
        destruct (set_cat_markers cs (fold_left
          (fun self col => MissingValueImputer.set_num self col None) ns s0) Hn Hc)
          as (Hn' & Hc')
    end.
    by split.
  - intros self. unfold SpecificColumnCategorizer.fit, bind.
    rewrite (deref_ok _ _ _ HX). simpl.
    destruct (nonempty _); simpl; by eexists.
  - intros self.
    destruct (float_fit_learns self w X df HX Hwf)
      as (learned & Hfit & _ & Hchar).
    rewrite Hfit. assert (learned = []) as ->; [|done].
    apply nil_of_no_elem. intros c Hc.
    apply Hchar in Hc as (s & Hin & _ & _ & Hpres).
    unfold has_present_value in Hpres.
    rewrite (empty_table_values df c s Hwf Hempty Hin) in Hpres.
    by apply Exists_nil in Hpres.
  - intros self. unfold BooleanToCategoryTransformer.fit, bind.
    by rewrite (deref_ok _ _ _ HX).
  - intros self Hobj. unfold ObjectToCategoryTransformer.fit, bind.
    rewrite (deref_ok _ _ _ HX). cbv zeta. by rewrite Hobj.
Qed.

Lemma sample_empty_wf : wf_table sample_empty.
Proof.
  split.
  - apply (bool_decide_unpack _). vm_compute. exact I.
  - repeat constructor.
Defined.

Lemma fit_on_empty_table_witness :
  tolerated
    (DropColumnsHighNA.fit (DropColumnsHighNA.mk 70 (Some [])) 0%nat
       (mkWorld [sample_empty] []))
    (mkWorld [sample_empty] []).
Proof.
  exact (proj1 (proj1 (fit_on_empty_table (mkWorld [sample_empty] []) 0%nat
                         sample_empty eq_refl sample_empty_wf eq_refl)
                      (DropColumnsHighNA.mk 70 (Some [])))).
Defined.

(** C5 as stated fails on the table without rows [sample_empty]: the
    boolean-to-category [fit] returns without printing any diagnostic, and
    the object-to-category [fit] does not return normally (it divides the
    number of distinct values by the number of rows, which is zero). *)
Lemma fit_on_empty_table_not_always_tolerated :
  ~ tolerated
      (BooleanToCategoryTransformer.fit (BooleanToCategoryTransformer.mk []) 0%nat
         (mkWorld [sample_empty] []))
      (mkWorld [sample_empty] [])
  /\ ObjectToCategoryTransformer.fit
       (ObjectToCategoryTransformer.mk (1 # 10) 50 []) 0%nat
       (mkWorld [sample_empty] [])
     = (Raise ZeroDivisionError, mkWorld [sample_empty] []).
Proof.
  split.
  - intros (s & after & Hrun & Hlt). vm_compute in Hrun.
    injection Hrun as _ <-. simpl in Hlt. lia.
  - vm_compute. reflexivity.
Qed.

(** ** Frame rules *)

Section Frame.

Variable h0 : list DataFrame.

Lemma grows_length (w : world) : grows h0 w -> (length h0 <= length (heap w))%nat.
Proof.
  unfold grows. intros H. rewrite <- H at 1. rewrite length_take. lia.
Qed.

Lemma grows_append (w : world) (X : DataFrame) (out : list string) :
  grows h0 w -> grows h0 (mkWorld (heap w ++ [X]) out).
Proof.
  intros H. pose proof (grows_length w H). unfold grows in *. simpl.
  by rewrite take_app_le.
Qed.

Lemma hoare_bind {A B} (P : world -> Prop) (m : M A) (k : A -> M B)
    (Q1 : A -> world -> Prop) (Q2 : B -> world -> Prop) (E : world -> Prop) :
  hoare P m Q1 E ->
  (forall a, hoare (Q1 a) (k a) Q2 E) ->
  hoare P (bind m k) Q2 E.
Proof.
  intros Hm Hk w HP. unfold bind. specialize (Hm w HP).
  destruct (m w) as [[a|e] w1]; [|done]. by apply Hk.
Qed.

Lemma hoare_weaken {A} (P : world -> Prop) (m : M A)
    (Q Q' : A -> world -> Prop) (E : world -> Prop) :
  hoare P m Q E -> (forall a w, Q a w -> Q' a w) -> hoare P m Q' E.
Proof.
  intros Hm HQ w HP. specialize (Hm w HP).
  destruct (m w) as [[a|e] w1]; [by apply HQ|done].
Qed.

Lemma hoare_pure_pre {A} (P : world -> Prop) (phi : Prop) (m : M A)
    (Q : A -> world -> Prop) (E : world -> Prop) :
  (phi -> hoare P m Q E) -> hoare (fun w => P w /\ phi) m Q E.
Proof. intros H w [HP Hphi]. by apply H. Qed.

Lemma hoare_ret_keep {A} (c : loc) (a : A) :
  hoare (Live h0 c) (ret a) (fun _ => Live h0 c) (grows h0).
Proof. by intros w H. Qed.

Lemma hoare_ret_grows {A} (c : loc) (a : A) :
  hoare (Live h0 c) (ret a) (fun _ => grows h0) (grows h0).
Proof. by intros w [H _]. Qed.

Lemma hoare_ret_fresh (c : loc) :
  (length h0 <= c)%nat ->
  hoare (Live h0 c) (ret c) (Fresh h0) (grows h0).
Proof. intros Hc w [H Hlt]. simpl. split; [done|lia]. Qed.

Lemma hoare_raise {A} (c : loc) (e : exn) (Q : A -> world -> Prop) :
  hoare (Live h0 c) (raise e) Q (grows h0).
Proof. by intros w [H _]. Qed.

Lemma hoare_print (c : loc) (msg : string) :
  hoare (Live h0 c) (print msg) (fun _ => Live h0 c) (grows h0).
Proof. by intros w H. Qed.

Lemma hoare_deref (c l : loc) :
  hoare (Live h0 c) (deref l) (fun _ => Live h0 c) (grows h0).
Proof. intros w H. unfold deref. destruct (heap w !! l); [done|by destruct H]. Qed.

Lemma hoare_getitem (c l : loc) (col : string) :
  hoare (Live h0 c) (getitem l col) (fun _ => Live h0 c) (grows h0).
Proof.
  intros w H. unfold getitem, bind, deref.
  destruct (heap w !! l) as [X|]; [|by destruct H].
  destruct (lookup_col _ _); [done|by destruct H].
Qed.

Lemma hoare_setitem (c l : loc) (col : string) (s : Series) :
  (length h0 <= l)%nat ->
  hoare (Live h0 c) (setitem l col s) (fun _ => Live h0 c) (grows h0).
Proof.
  intros Hl w [H Hc]. unfold setitem.
  destruct (heap w !! l) as [X|]; [|done]. cbv beta iota.
  unfold Live, grows in *. cbn [heap]. split.
  - by rewrite take_insert_ge.
  - by rewrite length_insert.
Qed.

Lemma hoare_alloc (c : loc) (X : DataFrame) :
  hoare (Live h0 c) (alloc X)
    (fun a w => Live h0 a w /\ (length h0 <= a)%nat) (grows h0).
Proof.
  intros w [H Hc]. simpl. pose proof (grows_length w H). split; [split|done].
  - by apply grows_append.
  - simpl. rewrite length_app. simpl. lia.
Qed.

Lemma hoare_copy (c l : loc) :
  hoare (Live h0 c) (copy l)
    (fun a w => Live h0 a w /\ (length h0 <= a)%nat) (grows h0).
Proof.
  intros w H. unfold copy, bind, deref.
  destruct (heap w !! l) as [X|]; [|by destruct H].
  by apply (hoare_alloc c X w).
Qed.

Lemma hoare_drop (c l : loc) (cols : list string) :
  hoare (Live h0 c) (drop l cols)
    (fun a w => Live h0 a w /\ (length h0 <= a)%nat) (grows h0).
Proof.
  intros w H. unfold drop, bind, deref.
  destruct (heap w !! l) as [X|]; [|by destruct H].
  by apply (hoare_alloc c _ w).
Qed.

Lemma hoare_for_each {A} (c : loc) (l : list A) (body : A -> M unit) :
  (forall x, hoare (Live h0 c) (body x) (fun _ => Live h0 c) (grows h0)) ->
  hoare (Live h0 c) (for_each l body) (fun _ => Live h0 c) (grows h0).
Proof.
  intros Hbody. induction l as [|x l IH]; simpl.
  - apply hoare_ret_keep.
  - eapply hoare_bind; [apply Hbody|]. intros ?. exact IH.
Qed.

Lemma hoare_for_fold {A S} (c : loc) (l : list A) (body : S -> A -> M S) :
  (forall s x, hoare (Live h0 c) (body s x) (fun _ => Live h0 c) (grows h0)) ->
  forall s, hoare (Live h0 c) (for_fold l body s) (fun _ => Live h0 c) (grows h0).
Proof.
  intros Hbody. induction l as [|x l IH]; intros s; simpl.
  - apply hoare_ret_keep.
  - eapply hoare_bind; [apply Hbody|]. intros s'. apply IH.
Qed.

Lemma hoare_keep_grows {A} (c : loc) (m : M A) :
  hoare (Live h0 c) m (fun _ => Live h0 c) (grows h0) ->
  hoare (Live h0 c) m (fun _ => grows h0) (grows h0).
Proof. intros H. eapply hoare_weaken; [exact H|]. by intros _ w [Hg _]. Qed.

Lemma hoare_new_fresh (c : loc) (m : M loc) :
  hoare (Live h0 c) m (fun a w => Live h0 a w /\ (length h0 <= a)%nat) (grows h0) ->
  hoare (Live h0 c) m (Fresh h0) (grows h0).
Proof.
  intros H. eapply hoare_weaken; [exact H|].
  intros a w [[Hg Hlt] Hle]. split; [done|lia].
Qed.

Lemma hoare_new_grows (c : loc) (m : M loc) :
  hoare (Live h0 c) m (fun a w => Live h0 a w /\ (length h0 <= a)%nat) (grows h0) ->
  hoare (Live h0 c) m (fun _ => grows h0) (grows h0).
Proof.
  intros H. eapply hoare_weaken; [exact H|]. by intros a w [[Hg _] _].
Qed.

End Frame.

(** One step of a frame proof: the rule for the head of the computation. *)
Ltac frame_step :=
  cbv beta;
  lazymatch goal with
  | |- hoare (fun w => _ /\ _) _ _ _ =>
      apply hoare_pure_pre; intros ?
  | |- hoare (Live ?h ?c) (bind (copy _) _) _ _ =>
      eapply hoare_bind; [apply hoare_copy|intros ?]
  | |- hoare (Live ?h ?c) (bind (alloc _) _) _ _ =>
      eapply hoare_bind; [apply hoare_alloc|intros ?]
  | |- hoare (Live ?h ?c) (bind (drop _ _) _) _ _ =>
      eapply hoare_bind; [apply hoare_drop|intros ?]
  | |- hoare (Live ?h ?c) (bind _ _) _ _ =>
      eapply (hoare_bind _ _ _ (fun _ => Live h c)); [|intros ?]
  | |- hoare _ (if ?b then _ else _) _ _ => destruct b
  | |- hoare _ (match ?o with _ => _ end) _ _ => destruct o
  | |- hoare _ (let x := _ in _) _ _ => cbv zeta
  | |- hoare _ (ret _) (fun _ => Live _ _) _ => apply hoare_ret_keep
  | |- hoare _ (ret _) (fun _ => grows _) _ => apply hoare_ret_grows
  | |- hoare _ (ret _) (Fresh _) _ => apply hoare_ret_fresh; assumption
  | |- hoare _ (raise _) _ _ => apply hoare_raise
  | |- hoare _ (print _) (fun _ => Live _ _) _ => apply hoare_print
  | |- hoare _ (deref _) (fun _ => Live _ _) _ => apply hoare_deref
  | |- hoare _ (getitem _ _) (fun _ => Live _ _) _ => apply hoare_getitem
  | |- hoare _ (setitem _ _ _) (fun _ => Live _ _) _ =>
      apply hoare_setitem; assumption
  | |- hoare _ (getattr _ _) _ _ => unfold getattr
  | |- hoare _ (for_each _ _) (fun _ => Live _ _) _ =>
      apply hoare_for_each; intros ?
  | |- hoare _ (for_fold _ _ _) (fun _ => Live _ _) _ =>
      apply hoare_for_fold; intros ? ?
  | |- hoare _ (copy _) (Fresh _) _ => apply hoare_new_fresh, hoare_copy
  | |- hoare _ _ (fun _ => grows _) _ => apply hoare_keep_grows
  end.

Ltac frame := repeat frame_step.

(** ** No core operation writes to its input table *)

Section CoreOperations.

Variable h0 : list DataFrame.

Lemma frame_convert_columns (c : loc) (cols : list string) (msg : string) :
  (length h0 <= c)%nat ->
  hoare (Live h0 c) (convert_columns c cols msg) (fun _ => Live h0 c) (grows h0).
Proof. intros Hc. unfold convert_columns. frame. Qed.

Lemma frame_impute_column (c : loc) (imputers : gmap string (option value))
    (col : string) :
  (length h0 <= c)%nat ->
  hoare (Live h0 c) (MissingValueImputer.impute_column imputers c col)
    (fun _ => Live h0 c) (grows h0).
Proof. intros Hc. unfold MissingValueImputer.impute_column. frame. Qed.

Lemma frame_visit_pair (c : loc) (thresholds : threshold_table) (cm : CorrMatrix)
    (report : gmap string (list entry)) (i j : nat) :
  hoare (Live h0 c) (visit_pair thresholds cm report i j)
    (fun _ => Live h0 c) (grows h0).
Proof. unfold visit_pair. frame. Qed.

Lemma frame_analyze (corr : DataFrame -> CorrMatrix) (X : loc)
    (thresholds : option threshold_table) :
  hoare (Live h0 X) (analyze_feature_correlations corr X thresholds)
    (fun _ => grows h0) (grows h0).
Proof.
  unfold analyze_feature_correlations. frame; apply frame_visit_pair.
Qed.

Lemma frame_HighNA_fit (self : DropColumnsHighNA.t) (X : loc) :
  hoare (Live h0 X) (DropColumnsHighNA.fit self X) (fun _ => grows h0) (grows h0).
Proof. unfold DropColumnsHighNA.fit. frame. Qed.

Lemma frame_HighNA_transform (self : DropColumnsHighNA.t) (X : loc) :
  hoare (Live h0 X) (DropColumnsHighNA.transform self X) (Fresh h0) (grows h0).
Proof. unfold DropColumnsHighNA.transform. frame. Qed.

Lemma frame_LowVar_fit (self : IdentifyAndDropLowVarNum.t) (X : loc) :
  hoare (Live h0 X) (IdentifyAndDropLowVarNum.fit self X)
    (fun _ => grows h0) (grows h0).
Proof. unfold IdentifyAndDropLowVarNum.fit. frame. Qed.

Lemma frame_LowVar_transform (self : IdentifyAndDropLowVarNum.t) (X : loc) :
  hoare (Live h0 X) (IdentifyAndDropLowVarNum.transform self X)
    (Fresh h0) (grows h0).
Proof. unfold IdentifyAndDropLowVarNum.transform. frame. Qed.

Lemma frame_Imputer_fit (self : MissingValueImputer.t) (X : loc) :
  hoare (Live h0 X) (MissingValueImputer.fit self X) (fun _ => grows h0) (grows h0).
Proof. unfold MissingValueImputer.fit. frame. Qed.

Lemma frame_Imputer_transform (self : MissingValueImputer.t) (X : loc) :
  hoare (Live h0 X) (MissingValueImputer.transform self X) (Fresh h0) (grows h0).
Proof.
  unfold MissingValueImputer.transform. frame; by apply frame_impute_column.
Qed.

Lemma frame_Specific_fit (self : SpecificColumnCategorizer.t) (X : loc) :
  hoare (Live h0 X) (SpecificColumnCategorizer.fit self X)
    (fun _ => grows h0) (grows h0).
Proof. unfold SpecificColumnCategorizer.fit. frame. Qed.

Lemma frame_Specific_transform (self : SpecificColumnCategorizer.t) (X : loc) :
  hoare (Live h0 X) (SpecificColumnCategorizer.transform self X)
    (Fresh h0) (grows h0).
Proof.
  unfold SpecificColumnCategorizer.transform. frame; by apply frame_convert_columns.
Qed.

Lemma frame_Object_fit (self : ObjectToCategoryTransformer.t) (X : loc) :
  hoare (Live h0 X) (ObjectToCategoryTransformer.fit self X)
    (fun _ => grows h0) (grows h0).
Proof. unfold ObjectToCategoryTransformer.fit, int_truediv. frame. Qed.

Lemma frame_Object_transform (self : ObjectToCategoryTransformer.t) (X : loc) :
  hoare (Live h0 X) (ObjectToCategoryTransformer.transform self X)
    (Fresh h0) (grows h0).
Proof.
  unfold ObjectToCategoryTransformer.transform. frame; by apply frame_convert_columns.
Qed.

Lemma frame_Float_fit (self : FloatToCategoryTransformer.t) (X : loc) :
  hoare (Live h0 X) (FloatToCategoryTransformer.fit self X)
    (fun _ => grows h0) (grows h0).
Proof. unfold FloatToCategoryTransformer.fit. frame. Qed.

Lemma frame_Float_transform (self : FloatToCategoryTransformer.t) (X : loc) :
  hoare (Live h0 X) (FloatToCategoryTransformer.transform self X)
    (Fresh h0) (grows h0).
Proof.
  unfold FloatToCategoryTransformer.transform. frame; by apply frame_convert_columns.
Qed.

Lemma frame_Boolean_fit (self : BooleanToCategoryTransformer.t) (X : loc) :
  hoare (Live h0 X) (BooleanToCategoryTransformer.fit self X)
    (fun _ => grows h0) (grows h0).
Proof. unfold BooleanToCategoryTransformer.fit. frame. Qed.

Lemma frame_Boolean_transform (self : BooleanToCategoryTransformer.t) (X : loc) :
  hoare (Live h0 X) (BooleanToCategoryTransformer.transform self X)
    (Fresh h0) (grows h0).
Proof.
  unfold BooleanToCategoryTransformer.transform. frame; by apply frame_convert_columns.
Qed.

Lemma frame_ColumnDropper_fit (self : ColumnDropper.t) (X : loc) :
  hoare (Live h0 X) (ColumnDropper.fit self X) (fun _ => grows h0) (grows h0).
Proof. unfold ColumnDropper.fit. frame. Qed.

Lemma frame_ColumnDropper_transform (self : ColumnDropper.t) (X : loc) :
  hoare (Live h0 X) (ColumnDropper.transform self X) (Fresh h0) (grows h0).
Proof. unfold ColumnDropper.transform. frame. Qed.

End CoreOperations.

Lemma live_initially (w : world) (X : loc) (df : DataFrame) :
  heap w !! X = Some df -> Live (heap w) X w.
Proof.
  intros HX. split; [by apply take_ge|by eapply lookup_lt_Some].
Qed.

Lemma grows_lookup (h0 : list DataFrame) (w' : world) (X : loc) (df : DataFrame) :
  h0 !! X = Some df -> grows h0 w' -> heap w' !! X = Some df.
Proof.
  intros HX Hg. unfold grows in Hg. rewrite <- Hg in HX.
  by apply lookup_take_Some in HX as [HX _].
Qed.

Lemma hoare_input_untouched {A} (m : M A) (w : world) (X : loc) (df : DataFrame) :
  heap w !! X = Some df ->
  hoare (Live (heap w) X) m (fun _ => grows (heap w)) (grows (heap w)) ->
  input_untouched (m w) X df.
Proof.
  intros HX Hm. specialize (Hm w (live_initially w X df HX)).
  unfold input_untouched. destruct (m w) as [[a|e] w']; simpl;
    by apply (grows_lookup (heap w)).
Qed.

Lemma hoare_returns_new_table (m : M loc) (w : world) (X : loc) (df : DataFrame) :
  heap w !! X = Some df ->
  hoare (Live (heap w) X) m (Fresh (heap w)) (grows (heap w)) ->
  returns_new_table (m w) w X df.
Proof.
  intros HX Hm. specialize (Hm w (live_initially w X df HX)).
  unfold returns_new_table, input_untouched.
  destruct (m w) as [[a|e] w']; simpl.
  - destruct Hm as [Hg [Hle Hlt]]. split; [by apply (grows_lookup (heap w))|].
    intros r [= <-]. split; [by apply lookup_ge_None|]. split.
    + apply lookup_lt_Some in HX. lia.
    + by apply lookup_lt_is_Some.
  - split; [by apply (grows_lookup (heap w))|]. by intros r.
Qed.

(** C10: no core operation writes to the table it is given.  Whatever the
    store, the table behind the argument is the same after the call as
    before it, whether the call returned or raised, for the categorizer and
    for [fit] and [transform] of every pipeline step; and the reference a
    [transform] returns points to a table the call itself allocated, never
    to the input. *)
Theorem input_table_never_mutated (w : world) (X : loc) (df : DataFrame) :
  heap w !! X = Some df ->
  (forall corr thresholds,
     input_untouched (analyze_feature_correlations corr X thresholds w) X df)
  /\ (forall self, input_untouched (DropColumnsHighNA.fit self X w) X df)
  /\ (forall self, returns_new_table (DropColumnsHighNA.transform self X w) w X df)
  /\ (forall self, input_untouched (IdentifyAndDropLowVarNum.fit self X w) X df)
  /\ (forall self,
        returns_new_table (IdentifyAndDropLowVarNum.transform self X w) w X df)
  /\ (forall self, input_untouched (MissingValueImputer.fit self X w) X df)
  /\ (forall self, returns_new_table (MissingValueImputer.transform self X w) w X df)
  /\ (forall self, input_untouched (SpecificColumnCategorizer.fit self X w) X df)
  /\ (forall self,
        returns_new_table (SpecificColumnCategorizer.transform self X w) w X df)
  /\ (forall self, input_untouched (ObjectToCategoryTransformer.fit self X w) X df)
  /\ (forall self,
        returns_new_table (ObjectToCategoryTransformer.transform self X w) w X df)
  /\ (forall self, input_untouched (FloatToCategoryTransformer.fit self X w) X df)
  /\ (forall self,
        returns_new_table (FloatToCategoryTransformer.transform self X w) w X df)
  /\ (forall self, input_untouched (BooleanToCategoryTransformer.fit self X w) X df)
  /\ (forall self,
        returns_new_table (BooleanToCategoryTransformer.transform self X w) w X df)
  /\ (forall self, input_untouched (ColumnDropper.fit self X w) X df)
  /\ (forall self, returns_new_table (ColumnDropper.transform self X w) w X df).
Proof.
  intros HX.
  repeat match goal with |- _ /\ _ => split end; intros;
    first [ apply hoare_input_untouched; [exact HX|]
          | apply hoare_returns_new_table; [exact HX|] ].
  - apply frame_analyze.
  - apply frame_HighNA_fit.
  - apply frame_HighNA_transform.
  - apply frame_LowVar_fit.
  - apply frame_LowVar_transform.
  - apply frame_Imputer_fit.
  - apply frame_Imputer_transform.
  - apply frame_Specific_fit.
  - apply frame_Specific_transform.
  - apply frame_Object_fit.
  - apply frame_Object_transform.
  - apply frame_Float_fit.
  - apply frame_Float_transform.
  - apply frame_Boolean_fit.
  - apply frame_Boolean_transform.
  - apply frame_ColumnDropper_fit.
  - apply frame_ColumnDropper_transform.
Qed.

Lemma input_table_never_mutated_witness :
  returns_new_table
    (DropColumnsHighNA.transform (DropColumnsHighNA.mk 50 (Some ["a"])) 0%nat
       (mkWorld [sample_missing] []))
    (mkWorld [sample_missing] []) 0%nat sample_missing.
Proof.
  exact (proj1 (proj2 (proj2 (input_table_never_mutated
                                (mkWorld [sample_missing] []) 0%nat
                                sample_missing eq_refl)))
               (DropColumnsHighNA.mk 50 (Some ["a"]))).
Defined.

(** ** Sample runs *)

(** With the ten-band table (passed as [None]), the pair of [sample_pair],
    whose correlation is 1/2, lands in [medium_positive] and nowhere else. *)
Example sample_pair_is_medium_positive :
  match analyze_feature_correlations sample_corr 0%nat None
          (mkWorld [sample_pair] []) with
  | (Ok report, _) =>
      band_list report "medium_positive" = [("A_12", "A_03", Some (1 # 2))]
      /\ band_list report "low_positive" = []
      /\ band_list report "high_positive" = []
  | (Raise _, _) => False
  end.
Proof. vm_compute. repeat split; reflexivity. Qed.

(** The population variance of [0; 1] is 1/4 (dividing by N - 1 would give
    1/2). *)
Example population_variance_of_zero_one :
  match var_ddof0 [0; 1] with
  | Some v => v == 1 # 4
  | None => False
  end.
Proof. vm_compute. reflexivity. Qed.

(** On [sample_variance] the constant column [k] is dropped at threshold
    1/100; the two-valued column [t] joins it once the threshold exceeds
    1/4. *)
Example sample_variance_drop_lists :
  learned_drop_list (1 # 100) sample_variance = ["k"]
  /\ "t" ∈ learned_drop_list (1 # 2) sample_variance
  /\ "k" ∈ learned_drop_list (1 # 2) sample_variance.
Proof.
  split; [vm_compute; reflexivity|].
  split; apply (bool_decide_unpack _); vm_compute; exact I.
Qed.

(** Dropper schema drift: a drop-list naming an absent column leaves the
    columns of the table as they are. *)
Example transform_ignores_absent_column :
  returned_table
    (DropColumnsHighNA.transform (DropColumnsHighNA.mk 70 (Some ["Y"])) 0%nat
       (mkWorld [sample_missing] []))
  = Some sample_missing.
Proof. vm_compute. reflexivity. Qed.

(** * Further properties *)

(** ** The categorizer: keys, malformed frames, the default table *)

Lemma zip_eqb_labels (l k : list string) :
  length l = length k ->
  forallb (fun p => String.eqb (fst p) (snd p)) (zip l k) = true -> l = k.
Proof.
  revert k. induction l as [|x l IH]; intros [|y k]; simpl; try done.
  intros [= Hlen] H. apply andb_true_iff in H as [Hxy Hrest].
  apply String.eqb_eq in Hxy as ->. f_equal. by apply IH.
Qed.

(** X1: The categorizer returns a report exactly when the row and the column
    labels of the correlation frame coincide; otherwise it raises
    [ValueError] before any pair is scanned.  No cell value makes it raise. *)
Theorem analyze_returns_iff_labels_agree
    (corr : DataFrame -> CorrMatrix) (w : world) (X : loc) (df : DataFrame)
    (thresholds : option threshold_table) :
  heap w !! X = Some df ->
  (corr_index (corr df) = corr_columns (corr df) ->
     exists report w',
       analyze_feature_correlations corr X thresholds w = (Ok report, w'))
  /\ (corr_index (corr df) <> corr_columns (corr df) ->
        exists msg,
          analyze_feature_correlations corr X thresholds w
          = (Raise (ValueError msg), mkWorld (heap w ++ [df]) (stdout w))).
Proof.
  intros HX. split.
  - intros Hlabels. unfold analyze_feature_correlations.
    unfold bind at 1. rewrite (copy_ok _ _ _ HX).
    unfold bind at 1. rewrite (deref_ok _ _ df) by apply lookup_new.
    rewrite Hlabels, Nat.eqb_refl, zip_same_eqb. cbn [negb].
    destruct thresholds as [given|].
    + unfold bind at 1. unfold ret at 1.
      destruct (pairs_loop_inv (fun _ => True) given (corr df)
                  (length (corr_columns (corr df)))
                  (list_to_map (map (fun item => (fst item, [])) given))
                  (mkWorld (heap w ++ [df]) (stdout w)))
        as (r' & w' & Hrun & _); [done|done|]. by exists r', w'.
    + unfold bind at 1. unfold bind at 1. unfold print, ret.
      destruct (pairs_loop_inv (fun _ => True) default_thresholds (corr df)
                  (length (corr_columns (corr df)))
                  (list_to_map (map (fun item => (fst item, [])) default_thresholds))
                  (mkWorld (heap w ++ [df])
                     (stdout w ++ ["Using default directional thresholds."])))
        as (r' & w' & Hrun & _); [done|done|]. by exists r', w'.
  - intros Hlabels. unfold analyze_feature_correlations.
    unfold bind at 1. rewrite (copy_ok _ _ _ HX).
    unfold bind at 1. rewrite (deref_ok _ _ df) by apply lookup_new.
    destruct (length (corr_index (corr df)) =? length (corr_columns (corr df)))%nat
      eqn:Hlen; cbn [negb]; [|by eexists].
    apply Nat.eqb_eq in Hlen.
    destruct (forallb _ _) eqn:Hzip; cbn [negb]; [|by eexists].
    exfalso. apply Hlabels. symmetry. by apply zip_eqb_labels.
Qed.

Lemma analyze_returns_iff_labels_agree_witness :
  (exists report w',
     analyze_feature_correlations sample_corr 0%nat None
       (mkWorld [sample_pair] []) = (Ok report, w'))
  /\ (exists msg,
        analyze_feature_correlations skewed_corr 0%nat None
          (mkWorld [sample_pair] [])
        = (Raise (ValueError msg),
           mkWorld ([sample_pair] ++ [sample_pair]) [])).
Proof.
  split.
  - apply (proj1 (analyze_returns_iff_labels_agree sample_corr
                    (mkWorld [sample_pair] []) 0%nat sample_pair None eq_refl)).
    reflexivity.
  - apply (proj2 (analyze_returns_iff_labels_agree skewed_corr
                    (mkWorld [sample_pair] []) 0%nat sample_pair None eq_refl)).
    discriminate.
Defined.

(** X2: Every band name of the threshold table that was passed is a key of the
    report, and the report has no other key. *)
Theorem report_keys_are_the_band_names
    (corr : DataFrame -> CorrMatrix) (w : world) (X : loc) (df : DataFrame)
    (thresholds : threshold_table) :
  heap w !! X = Some df ->
  corr_index (corr df) = corr_columns (corr df) ->
  exists report w',
    analyze_feature_correlations corr X (Some thresholds) w = (Ok report, w')
    /\ dom report = list_to_set (map fst thresholds).
Proof.
  intros HX Hlabels.
  rewrite (analyze_given_thresholds_run _ _ _ _ _ HX Hlabels).
  destruct (pairs_loop_inv
              (fun r => dom r = list_to_set (map fst thresholds))
              thresholds (corr df) (length (corr_columns (corr df)))
              (list_to_map (map (fun item => (fst item, [])) thresholds))
              (mkWorld (heap w ++ [df]) (stdout w)))
    as (r' & w' & Hrun & Hdom & _).
  - intros c1 c2 v r Hr. by rewrite scan_bands_dom.
  - rewrite dom_list_to_map_L, <- list_fmap_compose. f_equal.
  - by exists r', w'.
Qed.

Lemma report_keys_are_the_band_names_witness :
  exists report w',
    analyze_feature_correlations sample_corr 0%nat (Some magnitude_thresholds)
      (mkWorld [sample_pair] []) = (Ok report, w')
    /\ dom report = list_to_set (map fst magnitude_thresholds).
Proof.
  apply (report_keys_are_the_band_names sample_corr (mkWorld [sample_pair] [])
           0%nat sample_pair magnitude_thresholds); reflexivity.
Defined.








(** ** Dropping columns *)

Lemma filter_ext_in {A} (P Q : A -> Prop) `{!forall x, Decision (P x)}
    `{!forall x, Decision (Q x)} (l : list A) :
  (forall x, x ∈ l -> (P x <-> Q x)) -> filter P l = filter Q l.
Proof.
  induction l as [|x l IH]; intros Hext; [done|].
  assert (Hx : P x <-> Q x) by (apply Hext; left).
  assert (Hl : filter P l = filter Q l).
  { apply IH. intros y Hy. apply Hext. by right. }
  destruct (decide (P x)) as [HP|HP].
  - rewrite !filter_cons_True by tauto. by rewrite Hl.
  - rewrite !filter_cons_False by tauto. done.
Qed.

Lemma has_column_elem (df : DataFrame) (c : string) :
  has_column df c = true <-> c ∈ names df.
Proof. unfold has_column. apply bool_decide_eq_true. Qed.

Lemma column_label_in_names (df : DataFrame) (c : string) (s : Series) :
  (c, s) ∈ columns df -> c ∈ names df.
Proof. intros Hin. apply list_elem_of_fmap. by exists (c, s). Qed.

(** Dropping only the listed labels that the table has is dropping the
    listed labels. *)
Lemma drop_columns_present (L : list string) (df : DataFrame) :
  drop_columns (filter (fun col => has_column df col = true) L) df
  = drop_columns L df.
Proof.
  unfold drop_columns. f_equal. apply filter_ext_in. intros [c s] Hin. simpl.
  rewrite !bool_decide_eq_false, list_elem_of_filter, has_column_elem.
  pose proof (column_label_in_names _ _ _ Hin). tauto.
Qed.

Lemma drop_columns_nil (df : DataFrame) : drop_columns [] df = df.
Proof.
  destruct df as [n cs]. unfold drop_columns. simpl. f_equal.
  induction cs as [|c cs IH]; [done|].
  rewrite filter_cons_True by done. by f_equal.
Qed.

Lemma drop_columns_absent (L : list string) (df : DataFrame) :
  filter (fun col => has_column df col = true) L = [] ->
  drop_columns L df = df.
Proof.
  intros H. rewrite <- drop_columns_present, H. apply drop_columns_nil.
Qed.

Lemma names_drop_columns (L : list string) (df : DataFrame) :
  names (drop_columns L df)
  = filter (fun col => bool_decide (col ∈ L) = false) (names df).
Proof.
  destruct df as [n cs]. unfold names, drop_columns. cbn [columns].
  induction cs as [|c cs IH]; [done|]. cbn [map].
  destruct (decide (bool_decide (fst c ∈ L) = false)) as [Hc|Hc].
  - rewrite !filter_cons_True by done. cbn [map]. by rewrite IH.
  - rewrite !filter_cons_False by done. done.
Qed.

Lemma drop_columns_idem (L : list string) (df : DataFrame) :
  drop_columns L (drop_columns L df) = drop_columns L df.
Proof.
  unfold drop_columns. simpl. f_equal. rewrite list_filter_filter.
  apply filter_ext_in. tauto.
Qed.

Lemma drop_ok (w : world) (l : loc) (X : DataFrame) (cols : list string) :
  heap w !! l = Some X ->
  drop l cols w
  = (Ok (length (heap w)), mkWorld (heap w ++ [drop_columns cols X]) (stdout w)).
Proof. intros H. unfold drop, bind. by rewrite (deref_ok _ _ _ H). Qed.

Lemma returned_new (h : list DataFrame) (X : DataFrame) (out : list string) :
  returned_table (Ok (length h), mkWorld (h ++ [X]) out) = Some X.
Proof. simpl. apply lookup_new. Qed.

Lemma highna_transform_run (thr : Q) (L : list string) (w : world) (X : loc)
    (df : DataFrame) :
  heap w !! X = Some df ->
  exists r w',
    DropColumnsHighNA.transform (HighNA_with thr L) X w = (Ok r, w')
    /\ heap w' !! r = Some (drop_columns L df).
Proof.
  intros HX. unfold DropColumnsHighNA.transform, HighNA_with.
  cbn [DropColumnsHighNA.columns_to_drop_ hasattr negb getattr].
  unfold bind at 1. run_copy HX.
  unfold bind at 1. unfold ret at 1. unfold bind at 1. rewrite deref_new.
  destruct (nonempty (filter _ L)) eqn:Hne.
  - unfold bind at 1. rewrite (drop_ok _ _ df) by apply lookup_new.
    eexists _, _. split; [reflexivity|]. cbn [heap].
    rewrite drop_columns_present. apply lookup_new.
  - apply nonempty_false in Hne.
    destruct (nonempty L); eexists _, _; (split; [reflexivity|]);
      cbn [heap]; rewrite (drop_columns_absent L df Hne); apply lookup_new.
Qed.

Lemma lowvar_transform_run (thr : Q) (numeric seen L : list string) (w : world)
    (X : loc) (df : DataFrame) :
  heap w !! X = Some df ->
  exists r w',
    IdentifyAndDropLowVarNum.transform (LowVar_with thr numeric seen L) X w
    = (Ok r, w')
    /\ heap w' !! r = Some (drop_columns L df).
Proof.
  intros HX. unfold IdentifyAndDropLowVarNum.transform, LowVar_with.
  cbn [IdentifyAndDropLowVarNum.columns_to_drop_ hasattr negb getattr].
  unfold bind at 1. run_copy HX.
  unfold bind at 1. unfold ret at 1. unfold bind at 1. rewrite deref_new.
  destruct (nonempty (filter _ L)) eqn:Hne.
  - unfold bind at 1. rewrite (drop_ok _ _ df) by apply lookup_new.
    eexists _, _. split; [reflexivity|]. cbn [heap].
    rewrite drop_columns_present. apply lookup_new.
  - apply nonempty_false in Hne.
    destruct (nonempty L); eexists _, _; (split; [reflexivity|]);
      cbn [heap]; rewrite (drop_columns_absent L df Hne); apply lookup_new.
Qed.

Lemma column_dropper_transform_run (configured L : list string) (w : world)
    (X : loc) (df : DataFrame) :
  heap w !! X = Some df ->
  L <> [] ->
  exists r w',
    ColumnDropper.transform (ColumnDropper_with configured L) X w = (Ok r, w')
    /\ heap w' !! r = Some (drop_columns L df).
Proof.
  intros HX HL. unfold ColumnDropper.transform, ColumnDropper_with.
  cbn [ColumnDropper._fitted_columns_to_drop hasattr negb getattr default id].
  assert (HneL : nonempty L = true) by (by destruct L).
  rewrite HneL. cbn [negb orb].
  unfold bind at 1. unfold ret at 1. unfold bind at 1. run_copy HX.
  unfold bind at 1. rewrite deref_new.
  destruct (nonempty (filter _ L)) eqn:Hne; cbn [negb andb].
  - unfold bind at 1. unfold ret at 1.
    unfold bind at 1. rewrite (drop_ok _ _ df) by apply lookup_new.
    eexists _, _. split; [reflexivity|]. cbn [heap].
    rewrite drop_columns_present. apply lookup_new.
  - apply nonempty_false in Hne. rewrite HneL.
    eexists _, _. split; [reflexivity|].
    cbn [heap]. rewrite (drop_columns_absent L df Hne). apply lookup_new.
Qed.

(** X4: Once a drop-list [L] is learned, [transform] of each of the three
    droppers returns a new table that is the given one without the columns
    labelled in [L]: same rows, the other columns as they were and in their
    order.  A learned label that the given table lacks is skipped; no
    table makes [transform] raise. *)
Theorem droppers_transform_drops_learned_columns
    (w : world) (X : loc) (df : DataFrame) (L : list string) :
  heap w !! X = Some df ->
  (forall thr,
     returned_table (DropColumnsHighNA.transform (HighNA_with thr L) X w)
     = Some (drop_columns L df))
  /\ (forall thr numeric seen,
        returned_table
          (IdentifyAndDropLowVarNum.transform (LowVar_with thr numeric seen L) X w)
        = Some (drop_columns L df))
  /\ (forall configured,
        L <> [] ->
        returned_table
          (ColumnDropper.transform (ColumnDropper_with configured L) X w)
        = Some (drop_columns L df)).
Proof.
  intros HX. split; [|split].
  - intros thr.
    destruct (highna_transform_run thr L w X df HX) as (r & w' & -> & Hr). done.
  - intros thr numeric seen.
    destruct (lowvar_transform_run thr numeric seen L w X df HX)
      as (r & w' & -> & Hr). done.
  - intros configured HL.
    destruct (column_dropper_transform_run configured L w X df HX HL)
      as (r & w' & -> & Hr). done.
Qed.

Lemma droppers_transform_drops_learned_columns_witness :
  returned_table
    (DropColumnsHighNA.transform (HighNA_with 70 ["a"; "gone"]) 0%nat
       (mkWorld [sample_missing] []))
  = Some (drop_columns ["a"; "gone"] sample_missing).
Proof.
  exact (proj1 (droppers_transform_drops_learned_columns
                  (mkWorld [sample_missing] []) 0%nat sample_missing
                  ["a"; "gone"] eq_refl) 70).
Defined.

(** X5: [get_feature_names_out], given the labels of a table, returns the
    labels of the table [transform] makes of it, in the same order; it
    reads the drop-list only and leaves the console alone. *)
Theorem droppers_feature_names_match_transform
    (w : world) (X : loc) (df : DataFrame) (L : list string) :
  heap w !! X = Some df ->
  (forall thr, exists out,
     returned_table (DropColumnsHighNA.transform (HighNA_with thr L) X w)
     = Some out
     /\ DropColumnsHighNA.get_feature_names_out (HighNA_with thr L)
          (Some (names df)) w
        = (Ok (names out), w))
  /\ (forall thr numeric seen, exists out,
        returned_table
          (IdentifyAndDropLowVarNum.transform (LowVar_with thr numeric seen L) X w)
        = Some out
        /\ IdentifyAndDropLowVarNum.get_feature_names_out
             (LowVar_with thr numeric seen L) (Some (names df)) w
           = (Ok (names out), w))
  /\ (forall configured, L <> [] -> exists out,
        returned_table
          (ColumnDropper.transform (ColumnDropper_with configured L) X w)
        = Some out
        /\ ColumnDropper.get_feature_names_out (ColumnDropper_with configured L)
             (Some (names df)) w
           = (Ok (names out), w)).
Proof.
  intros HX. split; [|split].
  - intros thr. exists (drop_columns L df). split.
    + destruct (highna_transform_run thr L w X df HX) as (r & w' & -> & Hr). done.
    + by rewrite names_drop_columns.
  - intros thr numeric seen. exists (drop_columns L df). split.
    + destruct (lowvar_transform_run thr numeric seen L w X df HX)
        as (r & w' & -> & Hr). done.
    + by rewrite names_drop_columns.
  - intros configured HL. exists (drop_columns L df). split.
    + destruct (column_dropper_transform_run configured L w X df HX HL)
        as (r & w' & -> & Hr). done.
    + by rewrite names_drop_columns.
Qed.

Lemma droppers_feature_names_match_transform_witness :
  exists out,
    returned_table
      (IdentifyAndDropLowVarNum.transform
         (LowVar_with (1 # 100) ["k"; "t"] ["k"; "t"] ["k"]) 0%nat
         (mkWorld [sample_variance] []))
    = Some out
    /\ IdentifyAndDropLowVarNum.get_feature_names_out
         (LowVar_with (1 # 100) ["k"; "t"] ["k"; "t"] ["k"])
         (Some (names sample_variance)) (mkWorld [sample_variance] [])
       = (Ok (names out), mkWorld [sample_variance] []).
Proof.
  exact (proj1 (proj2 (droppers_feature_names_match_transform
                         (mkWorld [sample_variance] []) 0%nat sample_variance
                         ["k"] eq_refl))
               (1 # 100) ["k"; "t"] ["k"; "t"]).
Defined.

(** X6: Transforming the output of [transform] again changes nothing: the
    second result equals the first. *)
Theorem droppers_transform_is_idempotent
    (w : world) (X : loc) (df : DataFrame) (L : list string) :
  heap w !! X = Some df ->
  (forall thr, exists r w' out,
     DropColumnsHighNA.transform (HighNA_with thr L) X w = (Ok r, w')
     /\ heap w' !! r = Some out
     /\ returned_table (DropColumnsHighNA.transform (HighNA_with thr L) r w')
        = Some out)
  /\ (forall thr numeric seen, exists r w' out,
        IdentifyAndDropLowVarNum.transform (LowVar_with thr numeric seen L) X w
        = (Ok r, w')
        /\ heap w' !! r = Some out
        /\ returned_table
             (IdentifyAndDropLowVarNum.transform
                (LowVar_with thr numeric seen L) r w')
           = Some out)
  /\ (forall configured, L <> [] -> exists r w' out,
        ColumnDropper.transform (ColumnDropper_with configured L) X w = (Ok r, w')
        /\ heap w' !! r = Some out
        /\ returned_table
             (ColumnDropper.transform (ColumnDropper_with configured L) r w')
           = Some out).
Proof.
  intros HX. split; [|split].
  - intros thr.
    destruct (highna_transform_run thr L w X df HX) as (r & w' & Hrun & Hr).
    exists r, w', (drop_columns L df). split; [done|]. split; [done|].
    destruct (highna_transform_run thr L w' r _ Hr) as (r2 & w2 & -> & Hr2).
    simpl. by rewrite Hr2, drop_columns_idem.
  - intros thr numeric seen.
    destruct (lowvar_transform_run thr numeric seen L w X df HX)
      as (r & w' & Hrun & Hr).
    exists r, w', (drop_columns L df). split; [done|]. split; [done|].
    destruct (lowvar_transform_run thr numeric seen L w' r _ Hr)
      as (r2 & w2 & -> & Hr2).
    simpl. by rewrite Hr2, drop_columns_idem.
  - intros configured HL.
    destruct (column_dropper_transform_run configured L w X df HX HL)
      as (r & w' & Hrun & Hr).
    exists r, w', (drop_columns L df). split; [done|]. split; [done|].
    destruct (column_dropper_transform_run configured L w' r _ Hr HL)
      as (r2 & w2 & -> & Hr2).
    simpl. by rewrite Hr2, drop_columns_idem.
Qed.

Lemma droppers_transform_is_idempotent_witness :
  exists r w' out,
    ColumnDropper.transform (ColumnDropper_with ["a"] ["a"]) 0%nat
      (mkWorld [sample_missing] []) = (Ok r, w')
    /\ heap w' !! r = Some out
    /\ returned_table
         (ColumnDropper.transform (ColumnDropper_with ["a"] ["a"]) r w')
       = Some out.
Proof.
  apply (proj2 (proj2 (droppers_transform_is_idempotent
                         (mkWorld [sample_missing] []) 0%nat sample_missing
                         ["a"] eq_refl))).
  discriminate.
Defined.

(** ** The strict column dropper *)

(** X7: On a dropper that was constructed and not fitted, [transform] raises
    [RuntimeError] when columns were configured, and leaves the store and
    the console as they were; when none was configured it says so and
    returns a copy of the table. *)
Theorem ColumnDropper_transform_before_fit
    (configured : list string) (self : ColumnDropper.t) (w : world) (X : loc)
    (df : DataFrame) :
  ColumnDropper.__init__ configured = Ok self ->
  heap w !! X = Some df ->
  (configured <> [] ->
     exists msg, ColumnDropper.transform self X w = (Raise (RuntimeError msg), w))
  /\ (configured = [] ->
        ColumnDropper.transform self X w
        = (Ok (length (heap w)),
           mkWorld (heap w ++ [df])
             (stdout w ++ ["ColumnDropper: No columns were specified to drop. Returning original DataFrame."]))).
Proof.
  intros [= <-] HX. unfold ColumnDropper.transform.
  cbn [ColumnDropper._fitted_columns_to_drop ColumnDropper.columns_to_drop
       hasattr negb default id nonempty orb].
  split.
  - intros Hne. destruct configured; [done|]. cbn [nonempty negb]. by eexists.
  - intros ->. cbn [nonempty negb]. unfold bind, print. cbn [heap stdout].
    rewrite (copy_ok (mkWorld (heap w) _) X df HX). done.
Qed.

Lemma ColumnDropper_transform_before_fit_witness :
  (exists msg,
     ColumnDropper.transform (ColumnDropper.mk ["a"] (Some [])) 0%nat
       (mkWorld [sample_missing] [])
     = (Raise (RuntimeError msg), mkWorld [sample_missing] []))
  /\ ColumnDropper.transform (ColumnDropper.mk [] (Some [])) 0%nat
       (mkWorld [sample_missing] [])
     = (Ok 1%nat,
        mkWorld ([sample_missing] ++ [sample_missing])
          ([] ++ ["ColumnDropper: No columns were specified to drop. Returning original DataFrame."])).
Proof.
  split.
  - apply (proj1 (ColumnDropper_transform_before_fit ["a"]
                    (ColumnDropper.mk ["a"] (Some []))
                    (mkWorld [sample_missing] []) 0%nat sample_missing
                    eq_refl eq_refl)).
    discriminate.
  - apply (proj2 (ColumnDropper_transform_before_fit []
                    (ColumnDropper.mk [] (Some []))
                    (mkWorld [sample_missing] []) 0%nat sample_missing
                    eq_refl eq_refl)).
    reflexivity.
Defined.

Lemma column_dropper_fit_run (self : ColumnDropper.t) (w : world) (X : loc)
    (df : DataFrame) :
  heap w !! X = Some df ->
  Forall (fun c => c ∈ names df) (ColumnDropper.columns_to_drop self) ->
  ColumnDropper.fit self X w
  = (Ok (ColumnDropper_with (ColumnDropper.columns_to_drop self)
           (ColumnDropper.columns_to_drop self)), w).
Proof.
  intros HX Hall. unfold ColumnDropper.fit, bind. rewrite (deref_ok _ _ _ HX).
  rewrite (proj2 (nonempty_false _)); [done|].
  apply filter_none. intros c Hc. rewrite Forall_forall in Hall.
  apply Hall, has_column_elem in Hc. congruence.
Qed.

(** X8: When the table has every configured column, fitting the strict dropper
    and transforming the same table succeeds and returns the table without
    the configured columns; with no column configured this is a copy. *)
Theorem ColumnDropper_fit_transform_removes_configured
    (configured : list string) (self : ColumnDropper.t) (w : world) (X : loc)
    (df : DataFrame) :
  ColumnDropper.__init__ configured = Ok self ->
  heap w !! X = Some df ->
  Forall (fun c => c ∈ names df) configured ->
  returned_table
    (fit_then_transform ColumnDropper.fit ColumnDropper.transform self X w)
  = Some (drop_columns configured df)
  /\ forall c, c ∈ names (drop_columns configured df)
               <-> c ∈ names df /\ c ∉ configured.
Proof.
  intros [= <-] HX Hall. split.
  - unfold fit_then_transform, bind.
    rewrite (column_dropper_fit_run (ColumnDropper.mk configured (Some []))
               _ _ _ HX Hall).
    cbn [ColumnDropper.columns_to_drop].
    destruct configured as [|c0 configured].
    + unfold ColumnDropper.transform, ColumnDropper_with.
      cbn [ColumnDropper._fitted_columns_to_drop ColumnDropper.columns_to_drop
           hasattr negb default id nonempty orb].
      unfold bind, print. cbn [heap stdout].
      rewrite (copy_ok (mkWorld (heap w) _) X df HX).
      rewrite drop_columns_nil. simpl. apply lookup_new.
    + destruct (column_dropper_transform_run (c0 :: configured) (c0 :: configured)
                  w X df HX) as (r & w' & -> & Hr); done.
  - intros c. rewrite names_drop_columns, list_elem_of_filter, bool_decide_eq_false.
    tauto.
Qed.

Lemma ColumnDropper_fit_transform_removes_configured_witness :
  returned_table
    (fit_then_transform ColumnDropper.fit ColumnDropper.transform
       (ColumnDropper.mk ["b"] (Some [])) 0%nat (mkWorld [sample_missing] []))
  = Some (drop_columns ["b"] sample_missing)
  /\ forall c, c ∈ names (drop_columns ["b"] sample_missing)
               <-> c ∈ names sample_missing /\ c ∉ ["b"].
Proof.
  apply (ColumnDropper_fit_transform_removes_configured ["b"]
           (ColumnDropper.mk ["b"] (Some [])) (mkWorld [sample_missing] [])
           0%nat sample_missing eq_refl eq_refl).
  repeat constructor; apply (bool_decide_unpack _); vm_compute; exact I.
Defined.

(** ** The high-missingness dropper, fitted and applied *)

Lemma high_missing_columns_char (thr : Q) (df : DataFrame) (c : string) (s : Series) :
  NoDup (names df) ->
  (0 < index_len df)%nat ->
  (c, s) ∈ columns df ->
  c ∈ high_missing_columns thr df <-> thr <= percent_missing s (index_len df).
Proof.
  intros Hnd Hpos Hin.
  unfold high_missing_columns, DropColumnsHighNA.missing_percentage.
  rewrite list_elem_of_fmap. split.
  - intros [[c' q] [-> Hq]]. apply list_elem_of_filter in Hq as [Hq Hin'].
    apply list_elem_of_fmap in Hin' as [[c0 s'] [[= -> ->] Hin']].
    cbn [fst snd] in Hin, Hq.
    assert (s' = s) as ->.
    { apply (lookup_col_Some _ _ _ Hnd) in Hin, Hin'. congruence. }
    apply Qle_bool_iff in Hq. by apply missing_percentage_le in Hq.
  - intros Hq. eexists (c, _). split; [done|]. apply list_elem_of_filter. split.
    + apply Qle_bool_iff. by apply missing_percentage_le.
    + apply list_elem_of_fmap. by exists (c, s).
Qed.

Lemma nonempty_table_has_rows (df : DataFrame) :
  DataFrame_empty df = false -> (0 < index_len df)%nat.
Proof.
  unfold DataFrame_empty. intros H. apply orb_false_iff in H as [H _].
  apply Nat.eqb_neq in H. lia.
Qed.

Lemma highna_fit_run (self : DropColumnsHighNA.t) (w : world) (X : loc)
    (df : DataFrame) :
  heap w !! X = Some df ->
  DataFrame_empty df = false ->
  exists w',
    DropColumnsHighNA.fit self X w
    = (Ok (HighNA_with (DropColumnsHighNA.threshold self)
             (high_missing_columns (DropColumnsHighNA.threshold self) df)), w')
    /\ heap w' = heap w.
Proof.
  intros HX Hne. unfold DropColumnsHighNA.fit, bind. rewrite (deref_ok _ _ _ HX).
  rewrite Hne. fold (high_missing_columns (DropColumnsHighNA.threshold self) df).
  destruct (nonempty _); eexists; (split; [reflexivity|done]).
Qed.

Lemma highna_fit_transform_run (self : DropColumnsHighNA.t) (w : world) (X : loc)
    (df : DataFrame) :
  heap w !! X = Some df ->
  DataFrame_empty df = false ->
  returned_table
    (fit_then_transform DropColumnsHighNA.fit DropColumnsHighNA.transform self X w)
  = Some (drop_columns
            (high_missing_columns (DropColumnsHighNA.threshold self) df) df).
Proof.
  intros HX Hne. unfold fit_then_transform. unfold bind at 1.
  destruct (highna_fit_run self w X df HX Hne) as (w1 & -> & Hheap).
  destruct (highna_transform_run (DropColumnsHighNA.threshold self)
              (high_missing_columns (DropColumnsHighNA.threshold self) df)
              w1 X df) as (r & w' & -> & Hr); [by rewrite Hheap|done].
Qed.

Lemma drop_high_missing_columns (thr : Q) (df : DataFrame) :
  wf_table df ->
  (0 < index_len df)%nat ->
  columns (drop_columns (high_missing_columns thr df) df)
  = filter (fun c => below_threshold thr df c = true) (columns df).
Proof.
  intros [Hnd _] Hpos. unfold drop_columns. cbn [columns].
  apply filter_ext_in. intros [c s] Hin. cbn [fst].
  rewrite bool_decide_eq_false, (high_missing_columns_char thr df c s Hnd Hpos Hin).
  unfold below_threshold. cbn [snd].
  rewrite negb_true_iff, <- not_true_iff_false, Qle_bool_iff. done.
Qed.

Lemma init_threshold (thr : Q) (self : DropColumnsHighNA.t) :
  DropColumnsHighNA.__init__ thr = Ok self ->
  self = DropColumnsHighNA.mk thr (Some []) /\ 0 <= thr /\ thr <= 100.
Proof.
  unfold DropColumnsHighNA.__init__. intros H.
  destruct (negb _) eqn:Hrange in H; [discriminate|]. injection H as <-.
  apply negb_false_iff, andb_true_iff in Hrange as [H0 H100].
  apply Qle_bool_iff in H0, H100. done.
Qed.



Lemma percent_missing_nonneg (s : Series) (n : nat) :
  (0 < n)%nat -> 0 <= percent_missing s n.
Proof.
  intros Hn. unfold percent_missing.
  assert (Hb : 0 < inject_Z (Z.of_nat n)).
  { change 0 with (inject_Z 0). rewrite <- Zlt_Qlt. lia. }
  assert (Ha : 0 <= inject_Z (Z.of_nat (isnull_sum s))).
  { change 0 with (inject_Z 0). rewrite <- Zle_Qle. lia. }
  apply Qmult_le_0_compat; [|lra].
  apply Qle_shift_div_l; [done|]. lra.
Qed.

Lemma isnull_sum_full (s : Series) :
  isnull_sum s = length (values s) <-> forallb isnull (values s) = true.
Proof.
  unfold isnull_sum. induction (values s) as [|v vs IH]; [done|].
  cbn [forallb length]. destruct (isnull v) eqn:Hv.
  - rewrite filter_cons_True by done. cbn [length andb]. rewrite <- IH. lia.
  - rewrite filter_cons_False by (rewrite Hv; discriminate). cbn [andb].
    pose proof (length_filter (fun v => isnull v = true) vs). split; [lia|done].
Qed.

Lemma percent_missing_full (s : Series) (n : nat) :
  (0 < n)%nat -> length (values s) = n ->
  100 <= percent_missing s n <-> forallb isnull (values s) = true.
Proof.
  intros Hn Hlen. rewrite <- isnull_sum_full, Hlen. unfold percent_missing.
  assert (Hk : (isnull_sum s <= n)%nat).
  { rewrite <- Hlen. apply length_filter. }
  assert (Hb : 0 < inject_Z (Z.of_nat n)).
  { change 0 with (inject_Z 0). rewrite <- Zlt_Qlt. lia. }
  set (a := inject_Z (Z.of_nat (isnull_sum s))).
  set (b := inject_Z (Z.of_nat n)) in *.
  assert (E : a == a / b * b) by (field; lra).
  assert (Hab : b <= a <-> isnull_sum s = n).
  { unfold a, b. rewrite <- Zle_Qle. lia. }
  rewrite <- Hab. set (q := a / b) in *. clearbody q a b.
  split; intros H.
  - assert (1 <= q) by lra. rewrite E. nra.
  - rewrite E in H. assert (1 <= q) by nra. lra.
Qed.

(** X10: The two ends of the accepted threshold range.  With threshold 0 every
    column counts as highly missing, so fitting and transforming a table
    leaves its rows with no column at all; with threshold 100 exactly the
    columns that have at least one present cell are kept. *)
Theorem HighNA_threshold_extremes
    (w : world) (X : loc) (df : DataFrame) :
  heap w !! X = Some df ->
  wf_table df ->
  DataFrame_empty df = false ->
  (forall self,
     DropColumnsHighNA.__init__ 0 = Ok self ->
     returned_table
       (fit_then_transform DropColumnsHighNA.fit DropColumnsHighNA.transform
          self X w)
     = Some (mkDF (index_len df) []))
  /\ (forall self,
        DropColumnsHighNA.__init__ 100 = Ok self ->
        returned_table
          (fit_then_transform DropColumnsHighNA.fit DropColumnsHighNA.transform
             self X w)
        = Some (mkDF (index_len df)
                  (filter (fun c => forallb isnull (values (snd c)) = false)
                          (columns df)))).
Proof.
  intros HX Hwf Hne. pose proof (nonempty_table_has_rows df Hne) as Hpos.
  split; intros self Hinit; apply init_threshold in Hinit as (-> & _ & _);
    rewrite (highna_fit_transform_run _ w X df HX Hne); f_equal;
    cbn [DropColumnsHighNA.threshold];
    match goal with
    | |- ?d = _ => transitivity (mkDF (index_len d) (columns d)); [by destruct d|]
    end;
    rewrite (drop_high_missing_columns _ df Hwf Hpos); cbn [index_len drop_columns];
    f_equal.
  - apply filter_none. intros c _. unfold below_threshold.
    rewrite negb_true_iff, <- not_true_iff_false, Qle_bool_iff.
    intros Hno. apply Hno. by apply percent_missing_nonneg.
  - apply filter_ext_in. intros [c s] Hin. unfold below_threshold. cbn [snd].
    rewrite negb_true_iff, <- !not_true_iff_false, Qle_bool_iff.
    rewrite percent_missing_full; [done|done|].
    destruct Hwf as [_ Hlen]. rewrite Forall_forall in Hlen.
    apply (Hlen _ Hin).
Qed.

Lemma HighNA_threshold_extremes_witness :
  returned_table
    (fit_then_transform DropColumnsHighNA.fit DropColumnsHighNA.transform
       (DropColumnsHighNA.mk 0 (Some [])) 0%nat (mkWorld [sample_missing] []))
  = Some (mkDF (index_len sample_missing) []).
Proof.
  exact (proj1 (HighNA_threshold_extremes (mkWorld [sample_missing] []) 0%nat
                  sample_missing eq_refl sample_missing_wf eq_refl)
               (DropColumnsHighNA.mk 0 (Some [])) eq_refl).
Defined.

(** X11: Raising the threshold never drops more: a column kept under a
    threshold is kept under every higher one. *)
Theorem HighNA_higher_threshold_keeps_more
    (thr1 thr2 : Q) (self1 self2 : DropColumnsHighNA.t) (w : world) (X : loc)
    (df : DataFrame) :
  DropColumnsHighNA.__init__ thr1 = Ok self1 ->
  DropColumnsHighNA.__init__ thr2 = Ok self2 ->
  thr1 <= thr2 ->
  heap w !! X = Some df ->
  wf_table df ->
  DataFrame_empty df = false ->
  exists out1 out2,
    returned_table
      (fit_then_transform DropColumnsHighNA.fit DropColumnsHighNA.transform
         self1 X w) = Some out1
    /\ returned_table
         (fit_then_transform DropColumnsHighNA.fit DropColumnsHighNA.transform
            self2 X w) = Some out2
    /\ forall c, c ∈ columns out1 -> c ∈ columns out2.
Proof.
  intros Hinit1 Hinit2 Hle HX Hwf Hne.
  apply init_threshold in Hinit1 as (-> & _ & _).
  apply init_threshold in Hinit2 as (-> & _ & _).
  pose proof (nonempty_table_has_rows df Hne) as Hpos.
  eexists _, _.
  split; [exact (highna_fit_transform_run _ w X df HX Hne)|].
  split; [exact (highna_fit_transform_run _ w X df HX Hne)|].
  cbn [DropColumnsHighNA.threshold]. intros c.
  rewrite !(drop_high_missing_columns _ df Hwf Hpos), !list_elem_of_filter.
  unfold below_threshold.
  rewrite !negb_true_iff, <- !not_true_iff_false, !Qle_bool_iff.
  intros [Hc Hin]. split; [|done]. intros H2. apply Hc.
  eapply Qle_trans; eauto.
Qed.

Lemma HighNA_higher_threshold_keeps_more_witness :
  exists out1 out2,
    returned_table
      (fit_then_transform DropColumnsHighNA.fit DropColumnsHighNA.transform
         (DropColumnsHighNA.mk 0 (Some [])) 0%nat (mkWorld [sample_missing] []))
    = Some out1
    /\ returned_table
         (fit_then_transform DropColumnsHighNA.fit DropColumnsHighNA.transform
            (DropColumnsHighNA.mk 50 (Some [])) 0%nat
            (mkWorld [sample_missing] []))
       = Some out2
    /\ forall c, c ∈ columns out1 -> c ∈ columns out2.
Proof.
  apply (HighNA_higher_threshold_keeps_more 0 50
           (DropColumnsHighNA.mk 0 (Some [])) (DropColumnsHighNA.mk 50 (Some []))
           (mkWorld [sample_missing] []) 0%nat sample_missing
           eq_refl eq_refl).
  - lra.
  - reflexivity.
  - exact sample_missing_wf.
  - reflexivity.
Defined.

(** ** The low-variance dropper, fitted and applied *)

Lemma lowvar_fit_transform_run (self : IdentifyAndDropLowVarNum.t) (w : world)
    (X : loc) (df : DataFrame) :
  heap w !! X = Some df ->
  returned_table
    (fit_then_transform IdentifyAndDropLowVarNum.fit
       IdentifyAndDropLowVarNum.transform self X w)
  = Some (drop_columns
            (learned_drop_list
               (IdentifyAndDropLowVarNum.quasi_constant_threshold self) df) df).
Proof.
  intros HX. unfold fit_then_transform. unfold bind at 1.
  destruct (lowvar_fit_run self w X df HX) as (w1 & -> & _ & Hold).
  destruct (lowvar_transform_run
              (IdentifyAndDropLowVarNum.quasi_constant_threshold self)
              (select_dtypes is_number df) (names df)
              (learned_drop_list
                 (IdentifyAndDropLowVarNum.quasi_constant_threshold self) df)
              w1 X df (Hold _ _ HX)) as (r & w' & Hrun & Hr).
  unfold LowVar_with in Hrun. by rewrite Hrun.
Qed.

Lemma drop_learned_columns (thr : Q) (df : DataFrame) :
  wf_table df ->
  columns (drop_columns (learned_drop_list thr df) df)
  = filter (fun c => low_variance thr c = false) (columns df).
Proof.
  intros [Hnd _]. unfold drop_columns. cbn [columns].
  apply filter_ext_in. intros [c s] Hin. cbn [fst].
  rewrite bool_decide_eq_false, (learned_drop_list_char thr df c Hnd).
  unfold low_variance. cbn [snd]. rewrite <- not_true_iff_false, andb_true_iff.
  split.
  - intros Hno [Hdt Hfl]. apply Hno. by exists s.
  - intros Hno (s' & Hin' & Hdt & Hfl).
    assert (s' = s) as ->.
    { apply (lookup_col_Some _ _ _ Hnd) in Hin, Hin'. congruence. }
    by apply Hno.
Qed.






Lemma numbers_nonempty (vs : list value) :
  Exists (fun x => exists q, x = VNum q) vs -> numbers vs <> [].
Proof.
  induction 1 as [x vs (q & ->)|x vs _ IH]; cbn; [done|].
  destruct x; done.
Qed.




Lemma var_is_quasi_mono (thr1 thr2 : Q) (v : option Q) :
  thr1 <= thr2 ->
  IdentifyAndDropLowVarNum.var_is_quasi thr1 v = true ->
  IdentifyAndDropLowVarNum.var_is_quasi thr2 v = true.
Proof.
  intros Hle. destruct v as [v|]; [|done]. cbn.
  rewrite !andb_true_iff, !negb_true_iff, !Qle_bool_false. intros [H0 H1].
  split; [done|]. lra.
Qed.

Lemma flagged_mono (thr1 thr2 : Q) (s : Series) :
  thr1 <= thr2 -> flagged thr1 s = true -> flagged thr2 s = true.
Proof.
  intros Hle. unfold flagged. destruct (0 <? nunique s)%nat; [|done].
  rewrite !orb_true_iff. intros [H|H]; [by left|right].
  by apply (var_is_quasi_mono thr1 thr2).
Qed.

(** X14: Raising the threshold never keeps more: a column that survives under
    a threshold survives under every lower one. *)
Theorem LowVar_higher_threshold_drops_more
    (self1 self2 : IdentifyAndDropLowVarNum.t) (w : world) (X : loc)
    (df : DataFrame) :
  IdentifyAndDropLowVarNum.quasi_constant_threshold self1
  <= IdentifyAndDropLowVarNum.quasi_constant_threshold self2 ->
  heap w !! X = Some df ->
  wf_table df ->
  exists out1 out2,
    returned_table
      (fit_then_transform IdentifyAndDropLowVarNum.fit
         IdentifyAndDropLowVarNum.transform self1 X w) = Some out1
    /\ returned_table
         (fit_then_transform IdentifyAndDropLowVarNum.fit
            IdentifyAndDropLowVarNum.transform self2 X w) = Some out2
    /\ forall c, c ∈ columns out2 -> c ∈ columns out1.
Proof.
  intros Hle HX Hwf. eexists _, _.
  split; [exact (lowvar_fit_transform_run self1 w X df HX)|].
  split; [exact (lowvar_fit_transform_run self2 w X df HX)|].
  intros c. rewrite !(drop_learned_columns _ df Hwf), !list_elem_of_filter.
  unfold low_variance. intros [Hc Hin]. split; [|done].
  destruct (is_number _); [|done]. cbn [andb] in *.
  apply not_true_iff_false. intros Hfl.
  apply (flagged_mono _ _ _ Hle) in Hfl. congruence.
Qed.

Lemma LowVar_higher_threshold_drops_more_witness :
  exists out1 out2,
    returned_table
      (fit_then_transform IdentifyAndDropLowVarNum.fit
         IdentifyAndDropLowVarNum.transform
         (IdentifyAndDropLowVarNum.mk (1 # 100) [] (Some []) []) 0%nat
         (mkWorld [sample_variance] [])) = Some out1
    /\ returned_table
         (fit_then_transform IdentifyAndDropLowVarNum.fit
            IdentifyAndDropLowVarNum.transform
            (IdentifyAndDropLowVarNum.mk (1 # 2) [] (Some []) []) 0%nat
            (mkWorld [sample_variance] [])) = Some out2
    /\ forall c, c ∈ columns out2 -> c ∈ columns out1.
Proof.
  apply (LowVar_higher_threshold_drops_more
           (IdentifyAndDropLowVarNum.mk (1 # 100) [] (Some []) [])
           (IdentifyAndDropLowVarNum.mk (1 # 2) [] (Some []) [])
           (mkWorld [sample_variance] []) 0%nat sample_variance).
  - cbn. lra.
  - reflexivity.
  - exact sample_variance_wf.
Defined.

(** ** Rescaled variance never exceeds a quarter *)












(** ** Output labels when no input labels are given *)

(** X16: [get_feature_names_out()] without input labels.  The high-missingness
    dropper, once its drop-list is assigned, warns and returns an empty
    list whatever [transform] keeps; the strict dropper raises
    [ValueError]; the low-variance dropper falls back on the labels it saw
    in [fit] and returns the labels of the table [transform] makes of the
    fitted table, unless that table had no column, when it raises
    [ValueError]. *)
Theorem feature_names_without_input_features
    (w : world) (X : loc) (df : DataFrame) :
  heap w !! X = Some df ->
  (forall thr L,
     DropColumnsHighNA.get_feature_names_out (HighNA_with thr L) None w
     = (Ok [],
        mkWorld (heap w)
          (stdout w ++ ["DropColumnsHighNA Warning: input_features was None in get_feature_names_out. Returning an empty list or based on limited info."])))
  /\ (forall self,
        exists msg,
          ColumnDropper.get_feature_names_out self None w
          = (Raise (ValueError msg), w))
  /\ (forall self, exists fitted w',
        IdentifyAndDropLowVarNum.fit self X w = (Ok fitted, w')
        /\ (names df <> [] ->
              exists out,
                returned_table (IdentifyAndDropLowVarNum.transform fitted X w')
                = Some out
                /\ IdentifyAndDropLowVarNum.get_feature_names_out fitted None w'
                   = (Ok (names out), w'))
        /\ (names df = [] ->
              exists msg,
                IdentifyAndDropLowVarNum.get_feature_names_out fitted None w'
                = (Raise (ValueError msg), w'))).
Proof.
  intros HX. split; [done|]. split; [by eexists|].
  intros self.
  destruct (lowvar_fit_run self w X df HX) as (w1 & Hfit & _ & Hold).
  eexists _, w1. split; [exact Hfit|]. split.
  - intros Hne.
    destruct (lowvar_transform_run
                (IdentifyAndDropLowVarNum.quasi_constant_threshold self)
                (select_dtypes is_number df) (names df)
                (learned_drop_list
                   (IdentifyAndDropLowVarNum.quasi_constant_threshold self) df)
                w1 X df (Hold _ _ HX)) as (r & w' & Hrun & Hr).
    unfold LowVar_with in Hrun. exists (drop_columns
      (learned_drop_list (IdentifyAndDropLowVarNum.quasi_constant_threshold self) df)
      df).
    split; [by rewrite Hrun|].
    unfold IdentifyAndDropLowVarNum.get_feature_names_out.
    cbn [IdentifyAndDropLowVarNum._input_features_during_fit
         IdentifyAndDropLowVarNum.columns_to_drop_ hasattr negb getattr].
    destruct (names df) as [|c0 cs] eqn:Hnames; [done|].
    rewrite names_drop_columns, Hnames. reflexivity.
  - intros Hnil. unfold IdentifyAndDropLowVarNum.get_feature_names_out.
    cbn [IdentifyAndDropLowVarNum._input_features_during_fit].
    rewrite Hnil. by eexists.
Qed.

Lemma feature_names_without_input_features_witness :
  exists fitted w',
    IdentifyAndDropLowVarNum.fit
      (IdentifyAndDropLowVarNum.mk (1 # 100) [] (Some []) []) 0%nat
      (mkWorld [sample_variance] []) = (Ok fitted, w')
    /\ (names sample_variance <> [] ->
          exists out,
            returned_table (IdentifyAndDropLowVarNum.transform fitted 0%nat w')
            = Some out
            /\ IdentifyAndDropLowVarNum.get_feature_names_out fitted None w'
               = (Ok (names out), w'))
    /\ (names sample_variance = [] ->
          exists msg,
            IdentifyAndDropLowVarNum.get_feature_names_out fitted None w'
            = (Raise (ValueError msg), w')).
Proof.
  exact (proj2 (proj2 (feature_names_without_input_features
                         (mkWorld [sample_variance] []) 0%nat sample_variance
                         eq_refl))
               (IdentifyAndDropLowVarNum.mk (1 # 100) [] (Some []) [])).
Defined.

(** ** The dtype converters *)

Lemma lookup_col_None (cs : list (string * Series)) (c : string) :
  c ∉ map fst cs -> lookup_col cs c = None.
Proof.
  induction cs as [|[c0 s0] cs IH]; cbn; [done|].
  intros Hnot. apply not_elem_of_cons in Hnot as [Hne Hnot].
  destruct (String.eqb_spec c0 c); [congruence|]. by apply IH.
Qed.

Lemma with_categories_names (L : list string) (df : DataFrame) :
  names (with_categories L df) = names df.
Proof.
  unfold names, with_categories. cbn [columns]. rewrite map_map.
  apply map_ext. intros [c s]. cbn. by destruct (bool_decide _).
Qed.

(** The conversion loop on the fresh copy of a table that has every listed
    column. *)
Lemma convert_copy_run (L : list string) (msg : string) (h : list DataFrame)
    (out : list string) (df : DataFrame) :
  NoDup (names df) ->
  (forall c, c ∈ L -> c ∈ names df) ->
  convert_columns (length h) L msg (mkWorld (h ++ [df]) out)
  = (Ok tt,
     mkWorld (h ++ [with_categories L df]) (out ++ map (fun _ => msg) L)).
Proof.
  intros Hnd HL. rewrite (convert_columns_run _ _ _ _ df); try done.
  - cbn [heap stdout]. f_equal. f_equal.
    rewrite <- (Nat.add_0_r (length h)). by rewrite insert_app_r.
  - apply lookup_new.
Qed.

(** The conversion loop stops with [KeyError] at the first listed column
    that the table lacks. *)
Lemma convert_columns_absent (L : list string) (msg : string) :
  forall (w : world) (X : loc) (df : DataFrame),
  heap w !! X = Some df ->
  NoDup (names df) ->
  (exists col, col ∈ L /\ col ∉ names df) ->
  exists c w',
    c ∈ L /\ (c ∉ names df)
    /\ convert_columns X L msg w = (Raise (KeyError c), w').
Proof.
  unfold convert_columns.
  induction L as [|c L IH]; intros w X [n cs] HX Hnd (col & Hcol & Habs).
  { by apply elem_of_nil in Hcol. }
  cbn [for_each]. destruct (decide (c ∈ names (mkDF n cs))) as [Hc|Hc].
  - destruct (lookup_col_is_Some cs c Hc) as [s Hs].
    unfold bind at 1. unfold bind at 1.
    rewrite (getitem_ok _ _ _ _ _ HX Hs).
    unfold bind at 1. rewrite (setitem_ok _ _ _ _ _ HX).
    cbn [index_len columns print heap stdout].
    rewrite (assign_col_map cs c s astype_category Hnd Hs).
    set (cs1 := map _ cs).
    assert (Hnames : map fst cs1 = map fst cs).
    { unfold cs1. rewrite map_map. apply map_ext. intros [c0 s0]. cbn.
      by destruct (String.eqb c0 c). }
    destruct (IH (mkWorld (<[X := mkDF n cs1]> (heap w)) (stdout w ++ [msg]))
                X (mkDF n cs1)) as (c' & w' & Hc' & Habs' & Hrun).
    + cbn [heap]. apply list_lookup_insert_eq. by eapply lookup_lt_Some.
    + unfold names. cbn [columns]. by rewrite Hnames.
    + exists col. unfold names. cbn [columns]. rewrite Hnames. split; [|done].
      apply elem_of_cons in Hcol as [->|Hcol]; [done|done].
    + exists c', w'. split; [by right|]. split.
      * unfold names in *. cbn [columns] in *. by rewrite <- Hnames.
      * exact Hrun.
  - exists c. eexists. split; [left|]. split; [done|].
    unfold getitem, bind. rewrite (deref_ok _ _ _ HX). cbn [columns].
    rewrite (lookup_col_None cs c Hc). reflexivity.
Qed.

(** X17: A dtype converter that learned a column raises [KeyError] when
    [transform] is given a table without it, where a dropper would skip
    the column. *)
Theorem converters_transform_raises_on_absent_learned_column
    (L : list string) (w : world) (X : loc) (df : DataFrame) (col : string) :
  heap w !! X = Some df ->
  NoDup (names df) ->
  col ∈ L ->
  col ∉ names df ->
  (forall configured, exists c w',
     c ∈ L /\ (c ∉ names df)
     /\ SpecificColumnCategorizer.transform
          (SpecificColumnCategorizer.mk configured L) X w
        = (Raise (KeyError c), w'))
  /\ (forall ratio most, exists c w',
        c ∈ L /\ (c ∉ names df)
        /\ ObjectToCategoryTransformer.transform
             (ObjectToCategoryTransformer.mk ratio most L) X w
           = (Raise (KeyError c), w'))
  /\ (exists c w',
        c ∈ L /\ (c ∉ names df)
        /\ FloatToCategoryTransformer.transform
             (FloatToCategoryTransformer.mk L) X w
           = (Raise (KeyError c), w'))
  /\ (exists c w',
        c ∈ L /\ (c ∉ names df)
        /\ BooleanToCategoryTransformer.transform
             (BooleanToCategoryTransformer.mk L) X w
           = (Raise (KeyError c), w')).
Proof.
  intros HX Hnd Hcol Habs.
  assert (HL : nonempty L = true) by (destruct L; [by apply elem_of_nil in Hcol|done]).
  assert (Hconv : forall msg out, exists c w',
    c ∈ L /\ (c ∉ names df)
    /\ convert_columns (length (heap w)) L msg (mkWorld (heap w ++ [df]) out)
       = (Raise (KeyError c), w')).
  { intros msg out. apply (convert_columns_absent L msg _ _ df); [|done|by exists col].
    apply lookup_new. }
  split; [|split; [|split]].
  - intros configured.
    destruct (Hconv "SpecificColumnCategorizer: Converted to category." (stdout w))
      as (c & w' & Hc & Hc' & Hrun).
    exists c, w'. split; [done|]. split; [done|].
    unfold SpecificColumnCategorizer.transform. unfold bind at 1. run_copy HX.
    cbn [SpecificColumnCategorizer.fitted_columns_].
    unfold bind at 1. by rewrite Hrun.
  - intros ratio most.
    destruct (Hconv "ObjectToCategoryTransformer: Converted to category." (stdout w))
      as (c & w' & Hc & Hc' & Hrun).
    exists c, w'. split; [done|]. split; [done|].
    unfold ObjectToCategoryTransformer.transform. unfold bind at 1. run_copy HX.
    cbn [ObjectToCategoryTransformer.object_cols_to_convert_]. rewrite HL.
    cbn [negb]. unfold bind at 1. unfold ret at 1.
    unfold bind at 1. by rewrite Hrun.
  - destruct (Hconv "FloatToCategoryTransformer: Converted float column to category."
                (stdout w)) as (c & w' & Hc & Hc' & Hrun).
    exists c, w'. split; [done|]. split; [done|].
    unfold FloatToCategoryTransformer.transform. unfold bind at 1. run_copy HX.
    cbn [FloatToCategoryTransformer.float_cols_to_convert_]. rewrite HL.
    cbn [negb]. unfold bind at 1. unfold ret at 1.
    unfold bind at 1. by rewrite Hrun.
  - destruct (Hconv "BooleanToCategoryTransformer: Converted boolean column to category."
                (stdout w)) as (c & w' & Hc & Hc' & Hrun).
    exists c, w'. split; [done|]. split; [done|].
    unfold BooleanToCategoryTransformer.transform. unfold bind at 1. run_copy HX.
    cbn [BooleanToCategoryTransformer.bool_cols_to_convert_]. rewrite HL.
    cbn [negb]. unfold bind at 1. unfold ret at 1.
    unfold bind at 1. by rewrite Hrun.
Qed.

Lemma sample_mixed_wf : wf_table sample_mixed.
Proof.
  split.
  - apply (bool_decide_unpack _). vm_compute. exact I.
  - repeat constructor.
Defined.

Lemma converters_transform_raises_on_absent_learned_column_witness :
  exists c w',
    c ∈ ["flag"] /\ (c ∉ names sample_missing)
    /\ BooleanToCategoryTransformer.transform
         (BooleanToCategoryTransformer.mk ["flag"]) 0%nat
         (mkWorld [sample_missing] [])
       = (Raise (KeyError c), w').
Proof.
  refine (proj2 (proj2 (proj2
            (converters_transform_raises_on_absent_learned_column ["flag"]
               (mkWorld [sample_missing] []) 0%nat sample_missing "flag"
               eq_refl (proj1 sample_missing_wf) _ _)))).
  - left.
  - apply (bool_decide_unpack _). vm_compute. exact I.
Defined.

Lemma lookup_with_categories (L : list string) (df : DataFrame) (c : string) :
  lookup_col (columns (with_categories L df)) c
  = match lookup_col (columns df) c with
    | Some s => Some (if bool_decide (c ∈ L) then astype_category s else s)
    | None => None
    end.
Proof.
  unfold with_categories. cbn [columns].
  induction (columns df) as [|[c0 s0] cs IH]; [done|]. cbn [map fst snd].
  destruct (bool_decide (c0 ∈ L)) eqn:Hc0; cbn [lookup_col];
    (destruct (String.eqb_spec c0 c) as [->|Hne]; [by rewrite Hc0|apply IH]).
Qed.

Lemma with_categories_present (L : list string) (df : DataFrame) :
  with_categories (filter (fun col => has_column df col = true) L) df
  = with_categories L df.
Proof.
  unfold with_categories. f_equal. apply map_ext_in. intros [c s] Hin.
  cbn [fst]. apply list_elem_of_In in Hin.
  pose proof (column_label_in_names _ _ _ Hin) as Hc.
  assert (E : bool_decide (c ∈ filter (fun col => has_column df col = true) L)
              = bool_decide (c ∈ L)).
  { apply bool_decide_ext. rewrite list_elem_of_filter, has_column_elem. tauto. }
  by rewrite E.
Qed.

Lemma returned_fresh (r : result loc * world) (h : list DataFrame) (X : DataFrame) :
  (exists w', r = (Ok (length h), w') /\ heap w' = h ++ [X]) ->
  returned_table r = Some X.
Proof. intros (w' & -> & Hh). cbn. rewrite Hh. apply lookup_new. Qed.

Lemma specific_transform_run (configured L : list string) (w : world) (X : loc)
    (df : DataFrame) :
  heap w !! X = Some df ->
  NoDup (names df) ->
  (forall c, c ∈ L -> c ∈ names df) ->
  returned_table
    (SpecificColumnCategorizer.transform
       (SpecificColumnCategorizer.mk configured L) X w)
  = Some (with_categories L df).
Proof.
  intros HX Hnd HL. apply (returned_fresh _ (heap w)).
  unfold SpecificColumnCategorizer.transform.
  unfold bind at 1. run_copy HX. simpl. unfold bind. simpl.
  rewrite (convert_copy_run L _ _ _ df Hnd HL). eexists. split; reflexivity.
Qed.

Lemma object_transform_run (ratio : Q) (most : nat) (L : list string) (w : world)
    (X : loc) (df : DataFrame) :
  heap w !! X = Some df ->
  NoDup (names df) ->
  (forall c, c ∈ L -> c ∈ names df) ->
  returned_table
    (ObjectToCategoryTransformer.transform
       (ObjectToCategoryTransformer.mk ratio most L) X w)
  = Some (with_categories L df).
Proof.
  intros HX Hnd HL. apply (returned_fresh _ (heap w)).
  unfold ObjectToCategoryTransformer.transform.
  unfold bind at 1. run_copy HX. simpl.
  destruct (nonempty L); simpl; unfold bind; simpl;
    rewrite (convert_copy_run L _ _ _ df Hnd HL); eexists; split; reflexivity.
Qed.

Lemma float_transform_run (L : list string) (w : world) (X : loc) (df : DataFrame) :
  heap w !! X = Some df ->
  NoDup (names df) ->
  (forall c, c ∈ L -> c ∈ names df) ->
  returned_table
    (FloatToCategoryTransformer.transform (FloatToCategoryTransformer.mk L) X w)
  = Some (with_categories L df).
Proof.
  intros HX Hnd HL. apply (returned_fresh _ (heap w)).
  unfold FloatToCategoryTransformer.transform.
  unfold bind at 1. run_copy HX. simpl.
  destruct (nonempty L); simpl; unfold bind; simpl;
    rewrite (convert_copy_run L _ _ _ df Hnd HL); eexists; split; reflexivity.
Qed.

Lemma boolean_transform_run (L : list string) (w : world) (X : loc) (df : DataFrame) :
  heap w !! X = Some df ->
  NoDup (names df) ->
  (forall c, c ∈ L -> c ∈ names df) ->
  returned_table
    (BooleanToCategoryTransformer.transform (BooleanToCategoryTransformer.mk L) X w)
  = Some (with_categories L df).
Proof.
  intros HX Hnd HL. apply (returned_fresh _ (heap w)).
  unfold BooleanToCategoryTransformer.transform.
  unfold bind at 1. run_copy HX. simpl.
  destruct (nonempty L); simpl; unfold bind; simpl;
    rewrite (convert_copy_run L _ _ _ df Hnd HL); eexists; split; reflexivity.
Qed.

(** X18: Given a table that has every learned column, [transform] of each of
    the four converters returns one and the same new table: it has the
    labels of the given table in their order and the same rows, every cell
    holds the value it held, the learned columns are categorical and the
    dtype of every other column is as it was. *)
Theorem converters_transform_changes_dtypes_only
    (L : list string) (w : world) (X : loc) (df : DataFrame) :
  heap w !! X = Some df ->
  NoDup (names df) ->
  (forall c, c ∈ L -> c ∈ names df) ->
  exists out,
    (forall configured,
       returned_table
         (SpecificColumnCategorizer.transform
            (SpecificColumnCategorizer.mk configured L) X w) = Some out)
    /\ (forall ratio most,
          returned_table
            (ObjectToCategoryTransformer.transform
               (ObjectToCategoryTransformer.mk ratio most L) X w) = Some out)
    /\ returned_table
         (FloatToCategoryTransformer.transform
            (FloatToCategoryTransformer.mk L) X w) = Some out
    /\ returned_table
         (BooleanToCategoryTransformer.transform
            (BooleanToCategoryTransformer.mk L) X w) = Some out
    /\ names out = names df
    /\ index_len out = index_len df
    /\ (forall c i, cell out c i = cell df c i)
    /\ (forall c, c ∈ L -> dtype_at out c = Some category)
    /\ (forall c, c ∉ L -> dtype_at out c = dtype_at df c).
Proof.
  intros HX Hnd HL. exists (with_categories L df).
  split; [intros; by apply specific_transform_run|].
  split; [intros; by apply object_transform_run|].
  split; [by apply float_transform_run|].
  split; [by apply boolean_transform_run|].
  split; [apply with_categories_names|]. split; [done|].
  split; [|split].
  - intros c i. unfold cell. rewrite lookup_with_categories.
    destruct (lookup_col (columns df) c) as [s|]; [|done].
    by destruct (bool_decide _).
  - intros c Hc. unfold dtype_at. rewrite lookup_with_categories.
    destruct (lookup_col_is_Some (columns df) c (HL c Hc)) as [s ->].
    by rewrite bool_decide_eq_true_2.
  - intros c Hc. unfold dtype_at. rewrite lookup_with_categories.
    destruct (lookup_col (columns df) c) as [s|]; [|done].
    by rewrite bool_decide_eq_false_2.
Qed.

Lemma converters_transform_changes_dtypes_only_witness :
  exists out,
    (forall configured,
       returned_table
         (SpecificColumnCategorizer.transform
            (SpecificColumnCategorizer.mk configured ["flag"]) 0%nat
            (mkWorld [sample_mixed] [])) = Some out)
    /\ (forall ratio most,
          returned_table
            (ObjectToCategoryTransformer.transform
               (ObjectToCategoryTransformer.mk ratio most ["flag"]) 0%nat
               (mkWorld [sample_mixed] [])) = Some out)
    /\ returned_table
         (FloatToCategoryTransformer.transform
            (FloatToCategoryTransformer.mk ["flag"]) 0%nat
            (mkWorld [sample_mixed] [])) = Some out
    /\ returned_table
         (BooleanToCategoryTransformer.transform
            (BooleanToCategoryTransformer.mk ["flag"]) 0%nat
            (mkWorld [sample_mixed] [])) = Some out
    /\ names out = names sample_mixed
    /\ index_len out = index_len sample_mixed
    /\ (forall c i, cell out c i = cell sample_mixed c i)
    /\ (forall c, c ∈ ["flag"] -> dtype_at out c = Some category)
    /\ (forall c, c ∉ ["flag"] -> dtype_at out c = dtype_at sample_mixed c).
Proof.
  apply (converters_transform_changes_dtypes_only ["flag"]
           (mkWorld [sample_mixed] []) 0%nat sample_mixed eq_refl
           (proj1 sample_mixed_wf)).
  intros c Hc. apply list_elem_of_singleton in Hc as ->.
  apply (bool_decide_unpack _). vm_compute. exact I.
Defined.

(** X19: Whatever columns were configured, fitting the specific-column
    categorizer on a table and transforming that table succeeds: the
    configured columns that the table has become categorical, the ones it
    lacks are left out at [fit]. *)
Theorem SpecificColumnCategorizer_fit_transform_converts_present_columns
    (self : SpecificColumnCategorizer.t) (w : world) (X : loc) (df : DataFrame) :
  heap w !! X = Some df ->
  NoDup (names df) ->
  returned_table
    (fit_then_transform SpecificColumnCategorizer.fit
       SpecificColumnCategorizer.transform self X w)
  = Some (with_categories (SpecificColumnCategorizer.columns_to_categorize self) df)
  /\ forall c, c ∈ names df ->
       dtype_at
         (with_categories (SpecificColumnCategorizer.columns_to_categorize self) df)
         c
       = if bool_decide (c ∈ SpecificColumnCategorizer.columns_to_categorize self)
         then Some category else dtype_at df c.
Proof.
  intros HX Hnd. split.
  - unfold fit_then_transform, SpecificColumnCategorizer.fit.
    unfold bind at 1. unfold bind at 1. rewrite (deref_ok _ _ _ HX).
    cbn [SpecificColumnCategorizer.fitted_columns_
         SpecificColumnCategorizer.columns_to_categorize].
    set (fitted := filter _ _).
    assert (Hsub : forall c, c ∈ fitted -> c ∈ names df).
    { intros c Hc. apply list_elem_of_filter in Hc as [Hc _].
      by apply has_column_elem. }
    rewrite <- with_categories_present. fold fitted.
    destruct (nonempty fitted); cbn [negb]; unfold bind at 1;
      [unfold ret at 1|unfold print at 1]; unfold ret at 1.
    + by apply specific_transform_run.
    + by apply (specific_transform_run _ fitted (mkWorld (heap w) _)).
  - intros c Hc. unfold dtype_at. rewrite lookup_with_categories.
    destruct (lookup_col_is_Some (columns df) c Hc) as [s ->].
    by destruct (bool_decide _).
Qed.

Lemma SpecificColumnCategorizer_fit_transform_converts_present_columns_witness :
  returned_table
    (fit_then_transform SpecificColumnCategorizer.fit
       SpecificColumnCategorizer.transform
       (SpecificColumnCategorizer.mk ["size"; "gone"] []) 0%nat
       (mkWorld [sample_mixed] []))
  = Some (with_categories ["size"; "gone"] sample_mixed)
  /\ forall c, c ∈ names sample_mixed ->
       dtype_at (with_categories ["size"; "gone"] sample_mixed) c
       = if bool_decide (c ∈ ["size"; "gone"])
         then Some category else dtype_at sample_mixed c.
Proof.
  apply (SpecificColumnCategorizer_fit_transform_converts_present_columns
           (SpecificColumnCategorizer.mk ["size"; "gone"] [])
           (mkWorld [sample_mixed] []) 0%nat sample_mixed eq_refl
           (proj1 sample_mixed_wf)).
Defined.

(** X20: Fitted on a table and applied to it, the boolean converter returns
    the table with every boolean column made categorical: the result has
    no boolean column, and the columns that were not boolean keep their
    dtype. *)
Theorem BooleanToCategory_fit_transform_leaves_no_boolean_column
    (self : BooleanToCategoryTransformer.t) (w : world) (X : loc) (df : DataFrame) :
  heap w !! X = Some df ->
  NoDup (names df) ->
  exists out,
    returned_table
      (fit_then_transform BooleanToCategoryTransformer.fit
         BooleanToCategoryTransformer.transform self X w)
    = Some out
    /\ names out = names df
    /\ (forall c, dtype_at out c <> Some bool_)
    /\ (forall c, dtype_at df c <> Some bool_ -> dtype_at out c = dtype_at df c).
Proof.
  intros HX Hnd.
  set (L := select_dtypes (fun d => bool_decide (d = bool_)) df).
  assert (HL : forall c, c ∈ L <-> dtype_at df c = Some bool_).
  { intros c. unfold L, dtype_at. rewrite elem_of_select_dtypes. split.
    - intros (s & Hin & Hdt). rewrite (lookup_col_Some _ _ _ Hnd Hin).
      apply bool_decide_eq_true in Hdt. by rewrite Hdt.
    - destruct (lookup_col (columns df) c) as [s|] eqn:Hs; [|done].
      intros [= Hdt]. exists s. split; [|by apply bool_decide_eq_true].
      clear -Hs. induction (columns df) as [|[c0 s0] cs IH]; [done|].
      cbn in Hs. destruct (String.eqb_spec c0 c) as [->|Hne].
      + injection Hs as ->. left.
      + right. by apply IH. }
  exists (with_categories L df). split.
  - unfold fit_then_transform, BooleanToCategoryTransformer.fit.
    unfold bind at 1. unfold bind at 1. rewrite (deref_ok _ _ _ HX).
    unfold ret at 1. apply boolean_transform_run; [done|done|].
    intros c Hc. by apply select_dtypes_names in Hc.
  - split; [apply with_categories_names|]. split.
    + intros c. unfold dtype_at. rewrite lookup_with_categories.
      destruct (lookup_col (columns df) c) as [s|] eqn:Hs; [|done].
      destruct (decide (c ∈ L)) as [Hc|Hc].
      * by rewrite bool_decide_eq_true_2.
      * rewrite bool_decide_eq_false_2 by done. intros Heq. apply Hc, HL.
        unfold dtype_at. by rewrite Hs.
    + intros c Hc. unfold dtype_at. rewrite lookup_with_categories.
      destruct (lookup_col (columns df) c) as [s|] eqn:Hs; [|done].
      rewrite bool_decide_eq_false_2; [done|].
      intros Hin. apply HL in Hin. done.
Qed.

Lemma BooleanToCategory_fit_transform_leaves_no_boolean_column_witness :
  exists out,
    returned_table
      (fit_then_transform BooleanToCategoryTransformer.fit
         BooleanToCategoryTransformer.transform
         (BooleanToCategoryTransformer.mk []) 0%nat (mkWorld [sample_mixed] []))
    = Some out
    /\ names out = names sample_mixed
    /\ (forall c, dtype_at out c <> Some bool_)
    /\ (forall c, dtype_at sample_mixed c <> Some bool_ ->
          dtype_at out c = dtype_at sample_mixed c).
Proof.
  apply (BooleanToCategory_fit_transform_leaves_no_boolean_column
           (BooleanToCategoryTransformer.mk []) (mkWorld [sample_mixed] [])
           0%nat sample_mixed eq_refl (proj1 sample_mixed_wf)).
Defined.

(** ** The object-to-category step's [fit] *)

Lemma lookup_col_elem (cs : list (string * Series)) (c : string) (s : Series) :
  lookup_col cs c = Some s -> (c, s) ∈ cs.
Proof.
  induction cs as [|[c0 s0] cs IH]; [done|]. cbn.
  destruct (String.eqb_spec c0 c) as [->|Hne].
  - intros [= ->]. left.
  - intros H. right. by apply IH.
Qed.

Lemma column_length (df : DataFrame) (c : string) (s : Series) :
  wf_table df -> lookup_col (columns df) c = Some s ->
  length (values s) = index_len df.
Proof.
  intros [_ Hlen] Hs. apply lookup_col_elem in Hs.
  rewrite Forall_forall in Hlen. apply (Hlen _ Hs).
Qed.




(** X22: On a table without rows that has a text column, [fit] of the
    object-to-category step raises [ZeroDivisionError]: the share of
    distinct values divides by the number of rows.  The store and the
    console are left as they were. *)
Theorem ObjectToCategory_fit_divides_by_zero_on_rowless_table
    (self : ObjectToCategoryTransformer.t) (w : world) (X : loc) (df : DataFrame)
    (c : string) (s : Series) :
  heap w !! X = Some df ->
  wf_table df ->
  index_len df = 0%nat ->
  (c, s) ∈ columns df ->
  dtype_of s = object ->
  ObjectToCategoryTransformer.fit self X w = (Raise ZeroDivisionError, w).
Proof.
  intros HX Hwf Hrows Hin Hdt.
  unfold ObjectToCategoryTransformer.fit. unfold bind at 1.
  rewrite (deref_ok _ _ _ HX). cbv zeta.
  assert (Hc : c ∈ select_dtypes (fun d => bool_decide (d = object)) df).
  { apply elem_of_select_dtypes. exists s. split; [done|].
    by apply bool_decide_eq_true. }
  destruct (select_dtypes _ df) as [|c0 cols] eqn:Hcols.
  { by apply elem_of_nil in Hc. }
  assert (Hc0 : c0 ∈ names df).
  { apply (select_dtypes_names (fun d => bool_decide (d = object))).
    rewrite Hcols. left. }
  destruct (lookup_col_is_Some (columns df) c0 Hc0) as [s0 Hs0].
  cbn [for_fold]. unfold bind at 1. unfold bind at 1.
  rewrite (getitem_ok _ _ _ _ _ HX Hs0). unfold bind at 1.
  rewrite (column_length df c0 s0 Hwf Hs0), Hrows. reflexivity.
Qed.

Lemma ObjectToCategory_fit_divides_by_zero_on_rowless_table_witness :
  ObjectToCategoryTransformer.fit
    (ObjectToCategoryTransformer.mk (1 # 10) 50 []) 0%nat
    (mkWorld [sample_empty] [])
  = (Raise ZeroDivisionError, mkWorld [sample_empty] []).
Proof.
  apply (ObjectToCategory_fit_divides_by_zero_on_rowless_table
           (ObjectToCategoryTransformer.mk (1 # 10) 50 [])
           (mkWorld [sample_empty] []) 0%nat sample_empty
           "name" (mkSeries object []) eq_refl sample_empty_wf eq_refl).
  - left.
  - reflexivity.
Defined.

(** ** The imputer's [fit] *)

Lemma init_imputer (ns : string) (cs : value) (self : MissingValueImputer.t) :
  MissingValueImputer.__init__ ns cs = Ok self ->
  self = MissingValueImputer.mk ns cs ∅ ∅ (Some []) []
  /\ (ns = "mean" \/ ns = "median" \/ ns = "mode").
Proof.
  unfold MissingValueImputer.__init__. intros H.
  destruct (bool_decide _) eqn:Hns in H; [|discriminate]. injection H as <-.
  split; [done|]. apply bool_decide_eq_true in Hns.
  rewrite !elem_of_cons in Hns. destruct Hns as [?|[?|[?|Hnil]]]; auto.
  by apply elem_of_nil in Hnil.
Qed.

Lemma imputer_num_loop (ns : string) (cs : value) (X_fit : loc) (df : DataFrame)
    (nums cats : list string) (cols : list string) (w : world) :
  ns = "mean" \/ ns = "median" \/ ns = "mode" ->
  heap w !! X_fit = Some df ->
  (forall c, c ∈ cols -> c ∈ names df) ->
  exists num,
    for_fold cols
      (fun self col =>
         let! s := getitem X_fit col in
         if isnull_any s then
           if String.eqb (MissingValueImputer.num_strategy self) "mean" then
             ret (MissingValueImputer.set_num self col
                    (Some (MissingValueImputer.of_float (mean (numbers (values s))))))
           else if String.eqb (MissingValueImputer.num_strategy self) "median" then
             ret (MissingValueImputer.set_num self col
                    (Some (MissingValueImputer.of_float (median (numbers (values s))))))
           else if String.eqb (MissingValueImputer.num_strategy self) "mode" then
             let mode_val := mode (values s) in
             ret (MissingValueImputer.set_num self col
                    (Some (match mode_val with v :: _ => v | [] => VNum 0 end)))
           else ret self
         else ret (MissingValueImputer.set_num self col None))
      (MissingValueImputer.mk ns cs ∅ ∅ (Some nums) cats) w
    = (Ok (MissingValueImputer.mk ns cs num ∅ (Some nums) cats), w)
    /\ forall c, num !! c
                 = if bool_decide (c ∈ cols) then entry_at (num_fill ns) df c
                   else None.
Proof.
  intros Hns HX Hcols.
  destruct (for_fold_prefix_inv cols
              (fun self col =>
                 let! s := getitem X_fit col in
                 if isnull_any s then
                   if String.eqb (MissingValueImputer.num_strategy self) "mean" then
                     ret (MissingValueImputer.set_num self col
                            (Some (MissingValueImputer.of_float
                                     (mean (numbers (values s))))))
                   else if String.eqb (MissingValueImputer.num_strategy self) "median" then
                     ret (MissingValueImputer.set_num self col
                            (Some (MissingValueImputer.of_float
                                     (median (numbers (values s))))))
                   else if String.eqb (MissingValueImputer.num_strategy self) "mode" then
                     let mode_val := mode (values s) in
                     ret (MissingValueImputer.set_num self col
                            (Some (match mode_val with v :: _ => v | [] => VNum 0 end)))
                   else ret self
                 else ret (MissingValueImputer.set_num self col None))
              (fun pre self w0 =>
                 w0 = w
                 /\ exists num,
                      self = MissingValueImputer.mk ns cs num ∅ (Some nums) cats
                      /\ forall c, num !! c
                                   = if bool_decide (c ∈ pre)
                                     then entry_at (num_fill ns) df c else None))
    with (s := MissingValueImputer.mk ns cs ∅ ∅ (Some nums) cats) (w := w)
    as (self' & w' & Hrun & -> & num & -> & Hnum).
  - intros pre x self w0 Hx (-> & num & -> & Hnum).
    destruct (lookup_col_is_Some (columns df) x (Hcols x Hx)) as [s Hs].
    unfold bind at 1. rewrite (getitem_ok _ _ _ _ _ HX Hs).
    cbn [MissingValueImputer.num_strategy].
    assert (Hstep : forall v,
      v = (if isnull_any s then Some (num_fill ns s) else None) ->
      forall c, <[x := v]> num !! c
                = if bool_decide (c ∈ pre ++ [x])
                  then entry_at (num_fill ns) df c else None).
    { intros v -> c. destruct (decide (c = x)) as [->|Hne].
      - rewrite lookup_insert_eq, bool_decide_eq_true_2
          by (apply elem_of_app; right; left).
        unfold entry_at. by rewrite Hs.
      - rewrite lookup_insert_ne by done. rewrite Hnum.
        apply (f_equal (fun b : bool => if b then _ else _)).
        apply bool_decide_ext. rewrite elem_of_app, list_elem_of_singleton.
        tauto. }
    destruct (isnull_any s) eqn:Hnull.
    + destruct Hns as [-> | [-> | ->]]; cbn [String.eqb Ascii.eqb Bool.eqb andb];
        (eexists _, _; split; [reflexivity|]; split; [done|];
         eexists; split; [reflexivity|]; by apply Hstep).
    + eexists _, _. split; [reflexivity|]. split; [done|].
      eexists. split; [reflexivity|]. by apply Hstep.
  - split; [done|]. exists ∅. split; [done|]. intros c.
    rewrite lookup_empty. by rewrite bool_decide_eq_false_2 by apply not_elem_of_nil.
  - exists num. by rewrite Hrun.
Qed.

Lemma imputer_cat_loop (ns : string) (cs : value) (X_fit : loc) (df : DataFrame)
    (num : gmap string (option value)) (nums cats : list string)
    (cols : list string) (w : world) :
  heap w !! X_fit = Some df ->
  (forall c, c ∈ cols -> c ∈ names df) ->
  exists cat,
    for_fold cols
      (fun self col =>
         let! s := getitem X_fit col in
         if isnull_any s then
           if value_eqb (MissingValueImputer.cat_strategy self) (VStr "mode") then
             let mode_val := mode (values s) in
             ret (MissingValueImputer.set_cat self col
                    (Some (match mode_val with v :: _ => v | [] => VStr "Unknown" end)))
           else ret (MissingValueImputer.set_cat self col
                       (Some (MissingValueImputer.cat_strategy self)))
         else ret (MissingValueImputer.set_cat self col None))
      (MissingValueImputer.mk ns cs num ∅ (Some nums) cats) w
    = (Ok (MissingValueImputer.mk ns cs num cat (Some nums) cats), w)
    /\ forall c, cat !! c
                 = if bool_decide (c ∈ cols) then entry_at (cat_fill cs) df c
                   else None.
Proof.
  intros HX Hcols.
  destruct (for_fold_prefix_inv cols
              (fun self col =>
                 let! s := getitem X_fit col in
                 if isnull_any s then
                   if value_eqb (MissingValueImputer.cat_strategy self) (VStr "mode") then
                     let mode_val := mode (values s) in
                     ret (MissingValueImputer.set_cat self col
                            (Some (match mode_val with
                                   | v :: _ => v | [] => VStr "Unknown" end)))
                   else ret (MissingValueImputer.set_cat self col
                               (Some (MissingValueImputer.cat_strategy self)))
                 else ret (MissingValueImputer.set_cat self col None))
              (fun pre self w0 =>
                 w0 = w
                 /\ exists cat,
                      self = MissingValueImputer.mk ns cs num cat (Some nums) cats
                      /\ forall c, cat !! c
                                   = if bool_decide (c ∈ pre)
                                     then entry_at (cat_fill cs) df c else None))
    with (s := MissingValueImputer.mk ns cs num ∅ (Some nums) cats) (w := w)
    as (self' & w' & Hrun & -> & cat & -> & Hcat).
  - intros pre x self w0 Hx (-> & cat & -> & Hcat).
    destruct (lookup_col_is_Some (columns df) x (Hcols x Hx)) as [s Hs].
    unfold bind at 1. rewrite (getitem_ok _ _ _ _ _ HX Hs).
    cbn [MissingValueImputer.cat_strategy].
    assert (Hstep : forall v,
      v = (if isnull_any s then Some (cat_fill cs s) else None) ->
      forall c, <[x := v]> cat !! c
                = if bool_decide (c ∈ pre ++ [x])
                  then entry_at (cat_fill cs) df c else None).
    { intros v -> c. destruct (decide (c = x)) as [->|Hne].
      - rewrite lookup_insert_eq, bool_decide_eq_true_2
          by (apply elem_of_app; right; left).
        unfold entry_at. by rewrite Hs.
      - rewrite lookup_insert_ne by done. rewrite Hcat.
        apply (f_equal (fun b : bool => if b then _ else _)).
        apply bool_decide_ext. rewrite elem_of_app, list_elem_of_singleton.
        tauto. }
    destruct (isnull_any s) eqn:Hnull.
    + destruct (value_eqb cs (VStr "mode")) eqn:Hmode;
        (eexists _, _; split; [reflexivity|]; split; [done|];
         eexists; split; [reflexivity|]; apply Hstep;
         unfold cat_fill; by rewrite Hmode).
    + eexists _, _. split; [reflexivity|]. split; [done|].
      eexists. split; [reflexivity|]. by apply Hstep.
  - split; [done|]. exists ∅. split; [done|]. intros c.
    rewrite lookup_empty. by rewrite bool_decide_eq_false_2 by apply not_elem_of_nil.
  - exists cat. by rewrite Hrun.
Qed.

(** [fit] on a freshly built imputer never raises; it works on a copy of
    the table and announces the end of the fit. *)
Lemma imputer_fit_run (ns : string) (cs : value) (self : MissingValueImputer.t)
    (w : world) (X : loc) (df : DataFrame) :
  MissingValueImputer.__init__ ns cs = Ok self ->
  heap w !! X = Some df ->
  exists fitted,
    MissingValueImputer.fit self X w
    = (Ok fitted,
       mkWorld (heap w ++ [df]) (stdout w ++ ["MissingValueImputer: Fitted."]))
    /\ learned_from ns cs df fitted.
Proof.
  intros Hinit HX. apply init_imputer in Hinit as [-> Hns].
  unfold MissingValueImputer.fit. unfold bind at 1. run_copy HX.
  unfold bind at 1. rewrite deref_new.
  cbn [MissingValueImputer.num_strategy MissingValueImputer.cat_strategy
       MissingValueImputer.num_imputers_ MissingValueImputer.cat_imputers_
       MissingValueImputer.categorical_cols_].
  set (nums := select_dtypes is_number df).
  set (cats := select_dtypes (fun d => negb (is_number d)) df).
  destruct (imputer_num_loop ns cs (length (heap w)) df nums cats nums
              (mkWorld (heap w ++ [df]) (stdout w)) Hns)
    as (num & Hnum_run & Hnum); [apply lookup_new|apply select_dtypes_names|].
  cbv zeta in Hnum_run. unfold bind at 1. rewrite Hnum_run.
  cbn [MissingValueImputer.categorical_cols_].
  destruct (imputer_cat_loop ns cs (length (heap w)) df num nums cats cats
              (mkWorld (heap w ++ [df]) (stdout w)))
    as (cat & Hcat_run & Hcat); [apply lookup_new|apply select_dtypes_names|].
  cbv zeta in Hcat_run. unfold bind at 1. rewrite Hcat_run.
  eexists. split; [reflexivity|]. by repeat split.
Qed.

(** ** The imputer's [transform] *)

Lemma impute_step_names (d : gmap string (option value)) (cur : DataFrame)
    (col : string) :
  names (impute_step d cur col) = names cur.
Proof.
  unfold names, impute_step. cbn [columns]. rewrite map_map.
  apply map_ext. intros [c s]. cbn. by destruct (String.eqb c col).
Qed.

Lemma impute_step_unchanged (d : gmap string (option value)) (cur : DataFrame)
    (col : string) :
  NoDup (names cur) ->
  (forall s, lookup_col (columns cur) col = Some s -> apply_fill d col s = s) ->
  impute_step d cur col = cur.
Proof.
  intros Hnd Hsame. destruct cur as [n cs]. unfold impute_step. cbn [index_len columns] in *.
  f_equal. rewrite <- (map_id cs) at 2. apply map_ext_in. intros [c s] Hin.
  cbn [fst snd]. destruct (String.eqb_spec c col) as [->|Hne]; [|done].
  rewrite Hsame; [done|]. apply lookup_col_Some; [done|]. by apply list_elem_of_In.
Qed.

Lemma impute_step_assign (d : gmap string (option value)) (cur : DataFrame)
    (col : string) (s : Series) (fill : value) :
  NoDup (names cur) ->
  lookup_col (columns cur) col = Some s ->
  d !! col = Some (Some fill) ->
  isnull_any s = true ->
  mkDF (index_len cur) (assign_col (columns cur) col (fillna fill s))
  = impute_step d cur col.
Proof.
  intros Hnd Hs Hd Hnull. unfold impute_step. f_equal.
  rewrite (assign_col_map (columns cur) col s (fillna fill) Hnd Hs).
  apply map_ext_in. intros [c s'] Hin. cbn [fst snd].
  destruct (String.eqb_spec c col) as [->|Hne]; [|done].
  assert (s' = s) as ->.
  { apply list_elem_of_In in Hin. apply (lookup_col_Some _ _ _ Hnd) in Hin.
    congruence. }
  unfold apply_fill. by rewrite Hd, Hnull.
Qed.

(** One iteration of an imputation loop rewrites the table behind the
    reference into [impute_step]; it never raises. *)
Lemma impute_column_run (d : gmap string (option value)) (Xt : loc) (col : string)
    (w : world) (cur : DataFrame) :
  heap w !! Xt = Some cur ->
  NoDup (names cur) ->
  exists w',
    MissingValueImputer.impute_column d Xt col w = (Ok tt, w')
    /\ heap w' = <[Xt := impute_step d cur col]> (heap w).
Proof.
  intros HX Hnd. unfold MissingValueImputer.impute_column.
  unfold bind at 1. rewrite (deref_ok _ _ _ HX).
  assert (Hkeep : forall w0 : world,
    heap w0 = heap w ->
    (forall s, lookup_col (columns cur) col = Some s -> apply_fill d col s = s) ->
    heap w0 = <[Xt := impute_step d cur col]> (heap w)).
  { intros w0 -> Hsame. rewrite (impute_step_unchanged d cur col Hnd Hsame).
    by rewrite list_insert_id. }
  destruct (has_column cur col) eqn:Hhas.
  - apply has_column_elem in Hhas.
    destruct (lookup_col_is_Some (columns cur) col Hhas) as [s Hs].
    destruct (d !! col) as [[fill|]|] eqn:Hd.
    + unfold bind at 1. rewrite (getitem_ok _ _ _ _ _ HX Hs).
      destruct (isnull_any s) eqn:Hnull.
      * rewrite (setitem_ok _ _ _ _ _ HX). eexists. split; [reflexivity|].
        cbn [heap]. by rewrite (impute_step_assign d cur col s fill).
      * eexists. split; [reflexivity|]. apply Hkeep; [done|].
        intros s' Hs'. assert (s' = s) as -> by congruence.
        unfold apply_fill. by rewrite Hd, Hnull.
    + unfold bind at 1. rewrite (getitem_ok _ _ _ _ _ HX Hs).
      destruct (isnull_any s); (eexists; split; [reflexivity|]);
        (apply Hkeep; [done|]); intros s' _; unfold apply_fill; by rewrite Hd.
    + unfold bind at 1. rewrite (getitem_ok _ _ _ _ _ HX Hs).
      destruct (isnull_any s); (eexists; split; [reflexivity|]);
        (apply Hkeep; [done|]); intros s' _; unfold apply_fill; by rewrite Hd.
  - eexists. split; [reflexivity|]. apply Hkeep; [done|].
    intros s Hs. apply lookup_col_elem, column_label_in_names in Hs.
    apply has_column_elem in Hs. congruence.
Qed.

Lemma impute_loop_run (d : gmap string (option value)) (Xt : loc)
    (cols : list string) :
  forall (w : world) (cur : DataFrame),
  heap w !! Xt = Some cur ->
  NoDup (names cur) ->
  exists w',
    for_each cols (MissingValueImputer.impute_column d Xt) w = (Ok tt, w')
    /\ heap w' = <[Xt := fold_left (impute_step d) cols cur]> (heap w).
Proof.
  induction cols as [|c cols IH]; intros w cur HX Hnd.
  - exists w. split; [done|]. cbn. by rewrite list_insert_id.
  - destruct (impute_column_run d Xt c w cur HX Hnd) as (w1 & Hrun & Hheap).
    cbn [for_each fold_left]. unfold bind at 1. rewrite Hrun.
    destruct (IH w1 (impute_step d cur c)) as (w2 & Hrun2 & Hheap2).
    + rewrite Hheap. apply list_lookup_insert_eq. by eapply lookup_lt_Some.
    + by rewrite impute_step_names.
    + exists w2. split; [done|]. rewrite Hheap2, Hheap.
      by rewrite list_insert_insert_eq.
Qed.

Lemma fold_impute_columns (d : gmap string (option value)) (cols : list string) :
  NoDup cols ->
  forall cur,
  fold_left (impute_step d) cols cur
  = mkDF (index_len cur)
      (map (fun p => (fst p, if bool_decide (fst p ∈ cols)
                             then apply_fill d (fst p) (snd p) else snd p))
           (columns cur)).
Proof.
  induction 1 as [|c cols Hc Hnd IH]; intros [n cs].
  - cbn. f_equal. rewrite <- (map_id cs) at 1. apply map_ext. by intros [c s].
  - cbn [fold_left]. rewrite IH. unfold impute_step. cbn [index_len columns].
    f_equal. rewrite map_map. apply map_ext. intros [c0 s0]. cbn [fst snd].
    destruct (String.eqb_spec c0 c) as [->|Hne]; cbn [fst snd].
    + rewrite (bool_decide_eq_false_2 (c ∈ cols)) by done.
      by rewrite (bool_decide_eq_true_2 (c ∈ c :: cols)) by left.
    + assert (E : bool_decide (c0 ∈ c :: cols) = bool_decide (c0 ∈ cols)).
      { apply bool_decide_ext. rewrite elem_of_cons. tauto. }
      by rewrite E.
Qed.

Lemma select_dtypes_NoDup (p : dtype -> bool) (df : DataFrame) :
  NoDup (names df) -> NoDup (select_dtypes p df).
Proof.
  unfold names, select_dtypes. intros Hnd.
  apply (sublist_NoDup _ (map fst (columns df))); [done|].
  apply (fmap_sublist fst). apply sublist_filter.
Qed.

(** [transform] never raises once the column lists are assigned: it
    returns a new table in which each column is what the two imputation
    loops make of it. *)
Lemma imputer_transform_run (self : MissingValueImputer.t) (nums : list string)
    (w : world) (X : loc) (df : DataFrame) :
  MissingValueImputer.numerical_cols_ self = Some nums ->
  NoDup nums ->
  NoDup (MissingValueImputer.categorical_cols_ self) ->
  heap w !! X = Some df ->
  NoDup (names df) ->
  returned_table (MissingValueImputer.transform self X w)
  = Some (imputed_table self df).
Proof.
  intros Hnums Hnd_nums Hnd_cats HX Hnd.
  unfold MissingValueImputer.transform. rewrite Hnums.
  cbn [hasattr negb getattr].
  assert (Hguard :
    (if MissingValueImputer.dict_empty (MissingValueImputer.num_imputers_ self)
        && MissingValueImputer.dict_empty (MissingValueImputer.cat_imputers_ self)
     then
       let! numerical_cols_ := ret nums in
       if nonempty numerical_cols_
          || nonempty (MissingValueImputer.categorical_cols_ self)
       then ret tt else ret tt
     else ret tt) w = (Ok tt, w)).
  { destruct (_ && _); [|done]. unfold bind, ret. by destruct (_ || _). }
  unfold bind at 1. rewrite Hguard.
  unfold bind at 1. run_copy HX.
  unfold bind at 1. unfold ret at 1.
  destruct (impute_loop_run (MissingValueImputer.num_imputers_ self)
              (length (heap w)) nums (mkWorld (heap w ++ [df]) (stdout w)) df)
    as (w1 & Hrun1 & Hheap1); [apply lookup_new|done|].
  unfold bind at 1. rewrite Hrun1.
  destruct (impute_loop_run (MissingValueImputer.cat_imputers_ self)
              (length (heap w)) (MissingValueImputer.categorical_cols_ self) w1
              (fold_left (impute_step (MissingValueImputer.num_imputers_ self))
                 nums df))
    as (w2 & Hrun2 & Hheap2).
  { rewrite Hheap1. cbn [heap]. apply list_lookup_insert_eq.
    rewrite length_app. cbn. lia. }
  { rewrite (fold_impute_columns _ nums Hnd_nums). unfold names. cbn [columns].
    rewrite map_map. exact Hnd. }
  unfold bind at 1. rewrite Hrun2. unfold bind, print, ret.
  cbn [returned_table heap]. rewrite Hheap2, Hheap1. cbn [heap].
  rewrite list_insert_insert_eq.
  rewrite list_lookup_insert_eq by (rewrite length_app; cbn; lia).
  f_equal. rewrite (fold_impute_columns _ _ Hnd_cats),
    (fold_impute_columns _ nums Hnd_nums).
  unfold imputed_table, imputed_column. rewrite Hnums.
  cbn [index_len columns default id]. f_equal. rewrite map_map.
  apply map_ext. by intros [c s].
Qed.

Lemma isnull_any_false (s : Series) (i : nat) (v : value) :
  isnull_any s = false -> values s !! i = Some v -> isnull v = false.
Proof.
  unfold isnull_any. intros Hany Hv. apply list_elem_of_lookup_2 in Hv.
  apply not_true_iff_false. intros Hnull.
  assert (existsb isnull (values s) = true); [|congruence].
  apply existsb_exists. exists v. split; [by apply list_elem_of_In|done].
Qed.


Lemma apply_fill_lookup (d : gmap string (option value)) (c : string) (s : Series)
    (i : nat) :
  values (apply_fill d c s) !! i
  = match values s !! i with
    | Some v =>
        Some (match d !! c with
              | Some (Some fill) => if isnull v then fill else v
              | _ => v
              end)
    | None => None
    end.
Proof.
  unfold apply_fill. destruct (d !! c) as [[fill|]|]; try by destruct (values s !! i).
  destruct (isnull_any s) eqn:Hany.
  - unfold fillna. cbn [values].
    change (map ?f ?l) with (f <$> l). rewrite list_lookup_fmap.
    by destruct (values s !! i).
  - destruct (values s !! i) as [v|] eqn:Hv; [|done].
    by rewrite (isnull_any_false s i v Hany Hv).
Qed.

Lemma lookup_imputed_table (self : MissingValueImputer.t) (df : DataFrame)
    (c : string) :
  lookup_col (columns (imputed_table self df)) c
  = match lookup_col (columns df) c with
    | Some s => Some (imputed_column self c s)
    | None => None
    end.
Proof.
  unfold imputed_table. cbn [columns].
  induction (columns df) as [|[c0 s0] cs IH]; [done|]. cbn [map fst snd lookup_col].
  destruct (String.eqb_spec c0 c) as [->|Hne]; [done|apply IH].
Qed.

Lemma imputed_table_names (self : MissingValueImputer.t) (df : DataFrame) :
  names (imputed_table self df) = names df.
Proof.
  unfold names, imputed_table. cbn [columns]. rewrite map_map.
  apply map_ext. by intros [c s].
Qed.

(** After [fit] on a table with unique labels, a column is on the
    numerical list exactly when its dtype is numeric, and on the other
    list otherwise. *)
Lemma column_on_one_list (df : DataFrame) (c : string) (s : Series) :
  NoDup (names df) ->
  (c, s) ∈ columns df ->
  bool_decide (c ∈ select_dtypes is_number df) = is_number (dtype_of s)
  /\ bool_decide (c ∈ select_dtypes (fun d => negb (is_number d)) df)
     = negb (is_number (dtype_of s)).
Proof.
  intros Hnd Hin.
  assert (Hone : forall p : dtype -> bool,
    bool_decide (c ∈ select_dtypes p df) = p (dtype_of s)).
  { intros p. destruct (p (dtype_of s)) eqn:Hp.
    - apply bool_decide_eq_true. apply elem_of_select_dtypes. by exists s.
    - apply bool_decide_eq_false. intros (s' & Hin' & Hp')%elem_of_select_dtypes.
      assert (s' = s) as ->.
      { apply (lookup_col_Some _ _ _ Hnd) in Hin, Hin'. congruence. }
      congruence. }
  split; apply Hone.
Qed.

Lemma imputer_fit_transform_run (ns : string) (cs : value)
    (self : MissingValueImputer.t) (w : world) (X : loc) (df : DataFrame) :
  MissingValueImputer.__init__ ns cs = Ok self ->
  heap w !! X = Some df ->
  NoDup (names df) ->
  exists fitted,
    learned_from ns cs df fitted
    /\ returned_table
         (fit_then_transform MissingValueImputer.fit MissingValueImputer.transform
            self X w)
       = Some (imputed_table fitted df).
Proof.
  intros Hinit HX Hnd.
  destruct (imputer_fit_run ns cs self w X df Hinit HX) as (fitted & Hfit & Hlearned).
  exists fitted. split; [done|].
  unfold fit_then_transform. unfold bind at 1. rewrite Hfit.
  destruct Hlearned as (Hnums & Hcats & _).
  apply (imputer_transform_run fitted _ _ X df Hnums).
  - by apply select_dtypes_NoDup.
  - rewrite Hcats. by apply select_dtypes_NoDup.
  - cbn [heap]. by apply lookup_app_l_Some.
  - done.
Qed.

(** What the fitted imputer makes of a column of the table it was fitted
    on: each missing cell holds the learned fill value, every other cell is
    as before. *)
Lemma imputed_cell_after_fit (ns : string) (cs : value)
    (fitted : MissingValueImputer.t) (df : DataFrame) (c : string) (s : Series)
    (i : nat) (v : value) :
  learned_from ns cs df fitted ->
  NoDup (names df) ->
  (c, s) ∈ columns df ->
  values s !! i = Some v ->
  cell (imputed_table fitted df) c i
  = Some (if isnull v
          then (if is_number (dtype_of s) then num_fill ns s else cat_fill cs s)
          else v).
Proof.
  intros (Hnums & Hcats & Hnum & Hcat) Hnd Hin Hv.
  pose proof (lookup_col_Some _ _ _ Hnd Hin) as Hs.
  destruct (column_on_one_list df c s Hnd Hin) as [Hon_num Hon_cat].
  unfold cell. rewrite lookup_imputed_table, Hs.
  unfold imputed_column. rewrite Hnums, Hcats. cbn [default id].
  rewrite Hon_num, Hon_cat.
  destruct (is_number (dtype_of s)); cbn [negb];
    rewrite apply_fill_lookup, Hv; f_equal.
  - rewrite Hnum, Hon_num. unfold entry_at. rewrite Hs.
    destruct (isnull_any s) eqn:Hany; [done|].
    by rewrite (isnull_any_false s i v Hany Hv).
  - rewrite Hcat, Hon_cat. unfold entry_at. rewrite Hs.
    destruct (isnull_any s) eqn:Hany; [done|].
    by rewrite (isnull_any_false s i v Hany Hv).
Qed.


Lemma scenario_table_NoDup : NoDup (names scenario_table).
Proof. apply (bool_decide_unpack _). vm_compute. exact I. Defined.

Lemma scenario_table_no_category (c : string) :
  dtype_at scenario_table c <> Some category.
Proof.
  unfold dtype_at, scenario_table. cbn [columns lookup_col].
  destruct (String.eqb "A" c); [discriminate|].
  destruct (String.eqb "B" c); discriminate.
Defined.


(** ** Fill values are present values *)

Lemma insert_value_elem (x y : value) (l : list value) :
  y ∈ insert_value x l -> y = x \/ y ∈ l.
Proof.
  induction l as [|z l IH]; cbn.
  - rewrite list_elem_of_singleton. by left.
  - destruct (value_leb x z).
    + rewrite elem_of_cons. tauto.
    + rewrite !elem_of_cons. intros [->|H]; [right; by left|].
      destruct (IH H); [by left|right; by right].
Qed.

Lemma mode_present (vs : list value) (v : value) :
  v ∈ mode vs -> isnull v = false.
Proof.
  unfold mode.
  set (l := filter _ (unique (dropna vs))).
  assert (Hl : forall x, x ∈ l -> isnull x = false).
  { intros x Hx. apply list_elem_of_filter in Hx as [_ Hx].
    apply unique_subset in Hx. by apply list_elem_of_filter in Hx as [Hx _]. }
  clearbody l. induction l as [|x l IH]; cbn.
  - intros H. by apply elem_of_nil in H.
  - intros H. apply insert_value_elem in H as [->|H].
    + apply Hl. left.
    + apply IH; [|done]. intros y Hy. apply Hl. by right.
Qed.

Lemma insert_sorted_length (x : Q) (l : list Q) :
  length (insert_sorted x l) = S (length l).
Proof.
  induction l as [|y l IH]; cbn; [done|].
  destruct (Qle_bool x y); cbn; [done|]. by rewrite IH.
Qed.

Lemma sort_Q_length (l : list Q) : length (sort_Q l) = length l.
Proof.
  induction l as [|x l IH]; cbn; [done|].
  unfold sort_Q in *. by rewrite insert_sorted_length, IH.
Qed.

Lemma median_defined (l : list Q) : l <> [] -> exists m, median l = Some m.
Proof.
  intros Hne. unfold median. rewrite sort_Q_length.
  destruct l as [|x l]; [done|]. cbn [length].
  destruct (Nat.even (S (length l))); by eexists.
Qed.

Lemma num_fill_present (ns : string) (s : Series) :
  ns = "mean" \/ ns = "median" \/ ns = "mode" ->
  ns = "mode" \/ Exists (fun x => exists q, x = VNum q) (values s) ->
  isnull (num_fill ns s) = false.
Proof.
  intros Hns Hcase. unfold num_fill.
  assert (Hmode : isnull (match mode (values s) with v :: _ => v | [] => VNum 0 end)
                  = false).
  { destruct (mode (values s)) as [|v l] eqn:Hm; [done|].
    apply (mode_present (values s)). rewrite Hm. left. }
  destruct Hns as [-> | [-> | ->]]; cbn [String.eqb Ascii.eqb Bool.eqb andb];
    [| |done].
  - destruct Hcase as [?|Hex]; [done|].
    pose proof (numbers_nonempty _ Hex) as Hne.
    unfold mean. by destruct (numbers (values s)).
  - destruct Hcase as [?|Hex]; [done|].
    destruct (median_defined _ (numbers_nonempty _ Hex)) as [m ->]. done.
Qed.

Lemma cat_fill_present (cs : value) (s : Series) :
  isnull cs = false -> isnull (cat_fill cs s) = false.
Proof.
  intros Hcs. unfold cat_fill. destruct (value_eqb cs (VStr "mode")); [|done].
  destruct (mode (values s)) as [|v l] eqn:Hm; [done|].
  apply (mode_present (values s)). rewrite Hm. left.
Qed.

Lemma all_missing_values (vs : list value) :
  forallb isnull vs = true -> numbers vs = [] /\ mode vs = [].
Proof.
  intros Hall.
  assert (Hd : dropna vs = []).
  { apply filter_none. intros v Hv. rewrite forallb_forall in Hall.
    rewrite (Hall v); [done|]. by apply list_elem_of_In. }
  split.
  - induction vs as [|v vs IH]; [done|].
    cbn [forallb] in Hall. apply andb_true_iff in Hall as [Hv Hvs].
    destruct v; try discriminate. cbn. apply IH; [done|].
    apply filter_none. intros x Hx. rewrite forallb_forall in Hvs.
    rewrite (Hvs x); [done|]. by apply list_elem_of_In.
  - unfold mode. by rewrite Hd.
Qed.

Lemma imputed_cell_outside (self : MissingValueImputer.t) (df : DataFrame)
    (c : string) (s : Series) (i : nat) :
  lookup_col (columns df) c = Some s ->
  values s !! i = None ->
  cell (imputed_table self df) c i = None.
Proof.
  intros Hs Hv. unfold cell. rewrite lookup_imputed_table, Hs.
  unfold imputed_column.
  repeat (destruct (bool_decide _)); rewrite ?apply_fill_lookup, ?Hv; done.
Qed.

(** X24: What is left missing after fitting an imputer on a table and
    transforming that table (columns of dtype category aside).  A numeric
    column has no missing cell left when the strategy is "mode", or when
    the column held a number; a column of another dtype has none left
    when the configured strategy is not itself a missing value.  A column
    that was entirely missing is left entirely missing by "mean" and
    "median", and is filled with 0 by "mode", or with "Unknown" when it is
    not numeric and the strategy is "mode". *)
Theorem Imputer_fit_transform_leaves_no_fillable_gap
    (ns : string) (cs : value) (self : MissingValueImputer.t) (w : world)
    (X : loc) (df : DataFrame) :
  MissingValueImputer.__init__ ns cs = Ok self ->
  heap w !! X = Some df ->
  NoDup (names df) ->
  (forall c, dtype_at df c <> Some category) ->
  exists out,
    returned_table
      (fit_then_transform MissingValueImputer.fit MissingValueImputer.transform
         self X w)
    = Some out
    /\ (forall c s,
          (c, s) ∈ columns df ->
          is_number (dtype_of s) = true ->
          ns = "mode" \/ Exists (fun x => exists q, x = VNum q) (values s) ->
          forall i v, cell out c i = Some v -> isnull v = false)
    /\ (forall c s,
          (c, s) ∈ columns df ->
          is_number (dtype_of s) = false ->
          isnull cs = false ->
          forall i v, cell out c i = Some v -> isnull v = false)
    /\ (forall c s i,
          (c, s) ∈ columns df ->
          forallb isnull (values s) = true ->
          (i < length (values s))%nat ->
          cell out c i
          = Some (if is_number (dtype_of s)
                  then (if String.eqb ns "mode" then VNum 0 else NaN)
                  else (if value_eqb cs (VStr "mode") then VStr "Unknown" else cs))).
Proof.
  intros Hinit HX Hnd _.
  destruct (imputer_fit_transform_run ns cs self w X df Hinit HX Hnd)
    as (fitted & Hlearned & Hrun).
  apply init_imputer in Hinit as [_ Hns].
  exists (imputed_table fitted df). split; [done|].
  assert (Hcell : forall c s i v',
    (c, s) ∈ columns df ->
    cell (imputed_table fitted df) c i = Some v' ->
    exists v, values s !! i = Some v
              /\ v' = if isnull v
                      then (if is_number (dtype_of s)
                            then num_fill ns s else cat_fill cs s)
                      else v).
  { intros c s i v' Hin Hv'. destruct (values s !! i) as [v|] eqn:Hv.
    - exists v. split; [done|].
      rewrite (imputed_cell_after_fit ns cs fitted df c s i v) in Hv'; try done.
      by injection Hv' as <-.
    - rewrite (imputed_cell_outside fitted df c s i) in Hv'; [done| |done].
      by apply lookup_col_Some. }
  split; [|split].
  - intros c s Hin Hdt Hcase i v' Hv'.
    destruct (Hcell c s i v' Hin Hv') as (v & _ & ->). rewrite Hdt.
    destruct (isnull v) eqn:Hv; [|done]. by apply num_fill_present.
  - intros c s Hin Hdt Hcs i v' Hv'.
    destruct (Hcell c s i v' Hin Hv') as (v & _ & ->). rewrite Hdt.
    destruct (isnull v) eqn:Hv; [|done]. by apply cat_fill_present.
  - intros c s i Hin Hall Hi.
    destruct (lookup_lt_is_Some_2 (values s) i Hi) as [v Hv].
    rewrite (imputed_cell_after_fit ns cs fitted df c s i v); try done.
    assert (Hnull : isnull v = true).
    { rewrite forallb_forall in Hall. apply Hall.
      apply list_elem_of_In. by eapply list_elem_of_lookup_2. }
    rewrite Hnull. f_equal.
    destruct (all_missing_values _ Hall) as [Hnumbers Hmode].
    unfold num_fill, cat_fill. rewrite Hnumbers, Hmode.
    destruct (is_number (dtype_of s)); [|done].
    destruct Hns as [-> | [-> | ->]]; done.
Qed.

Lemma Imputer_fit_transform_leaves_no_fillable_gap_witness :
  exists out,
    returned_table
      (fit_then_transform MissingValueImputer.fit MissingValueImputer.transform
         (MissingValueImputer.mk "median" (VStr "mode") ∅ ∅ (Some []) [])
         0%nat (mkWorld [scenario_table] []))
    = Some out
    /\ (forall c s,
          (c, s) ∈ columns scenario_table ->
          is_number (dtype_of s) = true ->
          "median" = "mode" \/ Exists (fun x => exists q, x = VNum q) (values s) ->
          forall i v, cell out c i = Some v -> isnull v = false)
    /\ (forall c s,
          (c, s) ∈ columns scenario_table ->
          is_number (dtype_of s) = false ->
          isnull (VStr "mode") = false ->
          forall i v, cell out c i = Some v -> isnull v = false)
    /\ (forall c s i,
          (c, s) ∈ columns scenario_table ->
          forallb isnull (values s) = true ->
          (i < length (values s))%nat ->
          cell out c i
          = Some (if is_number (dtype_of s)
                  then (if String.eqb "median" "mode" then VNum 0 else NaN)
                  else (if value_eqb (VStr "mode") (VStr "mode")
                        then VStr "Unknown" else VStr "mode"))).
Proof.
  apply (Imputer_fit_transform_leaves_no_fillable_gap "median" (VStr "mode")
           (MissingValueImputer.mk "median" (VStr "mode") ∅ ∅ (Some []) [])
           (mkWorld [scenario_table] []) 0%nat scenario_table
           eq_refl eq_refl scenario_table_NoDup scenario_table_no_category).
Defined.

Lemma apply_fill_marker (d : gmap string (option value)) (c : string) (s : Series) :
  d !! c = Some None \/ d !! c = None -> apply_fill d c s = s.
Proof. unfold apply_fill. by intros [-> | ->]. Qed.

(** X25: A column that had no missing cell when the imputer was fitted is
    never imputed afterwards: in any table given to [transform] (columns
    of dtype category aside) its cells come back as they are, the missing
    ones still missing. *)
Theorem Imputer_column_without_gap_at_fit_is_never_filled
    (ns : string) (cs : value) (self : MissingValueImputer.t) (w : world)
    (X X2 : loc) (df df2 : DataFrame) (c : string) (s : Series) :
  MissingValueImputer.__init__ ns cs = Ok self ->
  heap w !! X = Some df ->
  NoDup (names df) ->
  heap w !! X2 = Some df2 ->
  NoDup (names df2) ->
  (forall c2, dtype_at df2 c2 <> Some category) ->
  (c, s) ∈ columns df ->
  isnull_any s = false ->
  exists fitted w1 out,
    MissingValueImputer.fit self X w = (Ok fitted, w1)
    /\ returned_table (MissingValueImputer.transform fitted X2 w1) = Some out
    /\ names out = names df2
    /\ forall i, cell out c i = cell df2 c i.
Proof.
  intros Hinit HX Hnd HX2 Hnd2 _ Hin Hclean.
  destruct (imputer_fit_run ns cs self w X df Hinit HX)
    as (fitted & Hfit & Hnums & Hcats & Hnum & Hcat).
  exists fitted. eexists. exists (imputed_table fitted df2).
  split; [exact Hfit|]. split.
  { apply (imputer_transform_run fitted _ _ X2 df2 Hnums).
    - by apply select_dtypes_NoDup.
    - rewrite Hcats. by apply select_dtypes_NoDup.
    - cbn [heap]. by apply lookup_app_l_Some.
    - done. }
  split; [apply imputed_table_names|].
  intros i. unfold cell. rewrite lookup_imputed_table.
  destruct (lookup_col (columns df2) c) as [s2|]; [|done].
  pose proof (lookup_col_Some _ _ _ Hnd Hin) as Hs.
  assert (Hn : apply_fill (MissingValueImputer.num_imputers_ fitted) c s2 = s2).
  { apply apply_fill_marker. rewrite Hnum. unfold entry_at. rewrite Hs, Hclean.
    destruct (bool_decide _); auto. }
  assert (Hc : apply_fill (MissingValueImputer.cat_imputers_ fitted) c s2 = s2).
  { apply apply_fill_marker. rewrite Hcat. unfold entry_at. rewrite Hs, Hclean.
    destruct (bool_decide _); auto. }
  unfold imputed_column.
  repeat (destruct (bool_decide _)); by rewrite ?Hn, ?Hc.
Qed.

Lemma scenario_later_no_category (c : string) :
  dtype_at scenario_later c <> Some category.
Proof.
  unfold dtype_at, scenario_later. cbn [columns lookup_col].
  destruct (String.eqb "A" c); [discriminate|].
  destruct (String.eqb "B" c); discriminate.
Defined.

Lemma Imputer_column_without_gap_at_fit_is_never_filled_witness :
  exists fitted w1 out,
    MissingValueImputer.fit
      (MissingValueImputer.mk "median" (VStr "mode") ∅ ∅ (Some []) []) 0%nat
      (mkWorld [scenario_table; scenario_later] []) = (Ok fitted, w1)
    /\ returned_table (MissingValueImputer.transform fitted 1%nat w1) = Some out
    /\ names out = names scenario_later
    /\ forall i, cell out "B" i = cell scenario_later "B" i.
Proof.
  apply (Imputer_column_without_gap_at_fit_is_never_filled "median" (VStr "mode")
           (MissingValueImputer.mk "median" (VStr "mode") ∅ ∅ (Some []) [])
           (mkWorld [scenario_table; scenario_later] []) 0%nat 1%nat
           scenario_table scenario_later "B"
           (mkSeries object [VStr "x"; VStr "y"; VStr "x"; VStr "x"])
           eq_refl eq_refl scenario_table_NoDup eq_refl).
  - apply (bool_decide_unpack _). vm_compute. exact I.
  - exact scenario_later_no_category.
  - right. left.
  - reflexivity.
Defined.

(** X26: The labels the imputer reports.  Given labels, it returns them.
    Given none, a fitted imputer returns the numeric labels followed by
    the other labels: the labels of the fitted table, rearranged.  A
    freshly built imputer returns the empty list: its column lists are
    assigned by the constructor, so the [ValueError] branch is never
    taken. *)
Theorem Imputer_feature_names_are_rearranged_labels
    (ns : string) (cs : value) (self : MissingValueImputer.t) (w : world)
    (X : loc) (df : DataFrame) :
  MissingValueImputer.__init__ ns cs = Ok self ->
  heap w !! X = Some df ->
  MissingValueImputer.get_feature_names_out self None w = (Ok [], w)
  /\ exists fitted w1 labels,
       MissingValueImputer.fit self X w = (Ok fitted, w1)
       /\ MissingValueImputer.get_feature_names_out fitted None w1
          = (Ok labels, w1)
       /\ labels
          = select_dtypes is_number df
            ++ select_dtypes (fun d => negb (is_number d)) df
       /\ labels ≡ₚ names df
       /\ forall given,
            MissingValueImputer.get_feature_names_out fitted (Some given) w1
            = (Ok given, w1).
Proof.
  intros Hinit HX.
  destruct (imputer_fit_run ns cs self w X df Hinit HX)
    as (fitted & Hfit & Hnums & Hcats & _).
  apply init_imputer in Hinit as [-> _]. split; [done|].
  exists fitted. eexists. eexists. split; [exact Hfit|].
  unfold MissingValueImputer.get_feature_names_out. rewrite Hnums, Hcats.
  cbn [hasattr getattr]. split; [reflexivity|]. split; [done|]. split; [|done].
  unfold select_dtypes, names.
  change (map fst ?l) with (fst <$> l). rewrite <- fmap_app.
  apply fmap_Permutation.
  rewrite (list_filter_iff (fun c : string * Series => negb (is_number (dtype_of (snd c))) = true)
             (fun c => ~ is_number (dtype_of (snd c)) = true)).
  - apply filter_app_complement.
  - intros c. rewrite negb_true_iff. by destruct (is_number _).
Qed.

Lemma Imputer_feature_names_are_rearranged_labels_witness :
  MissingValueImputer.get_feature_names_out
    (MissingValueImputer.mk "median" (VStr "mode") ∅ ∅ (Some []) []) None
    (mkWorld [sample_mixed] []) = (Ok [], mkWorld [sample_mixed] [])
  /\ exists fitted w1 labels,
       MissingValueImputer.fit
         (MissingValueImputer.mk "median" (VStr "mode") ∅ ∅ (Some []) []) 0%nat
         (mkWorld [sample_mixed] []) = (Ok fitted, w1)
       /\ MissingValueImputer.get_feature_names_out fitted None w1
          = (Ok labels, w1)
       /\ labels
          = select_dtypes is_number sample_mixed
            ++ select_dtypes (fun d => negb (is_number d)) sample_mixed
       /\ labels ≡ₚ names sample_mixed
       /\ forall given,
            MissingValueImputer.get_feature_names_out fitted (Some given) w1
            = (Ok given, w1).
Proof.
  apply (Imputer_feature_names_are_rearranged_labels "median" (VStr "mode")
           (MissingValueImputer.mk "median" (VStr "mode") ∅ ∅ (Some []) [])
           (mkWorld [sample_mixed] []) 0%nat sample_mixed eq_refl eq_refl).
Defined.

(** ** Bands tested on magnitude *)



